(** * Coverage analysis engine: a shallow embedding and its properties

    The development follows the backend of the assessment-moderation
    system:

    - [services/openaiService.js]  ([calculateSimilarity]),
    - [routes/coverage.js]         ([runCoverageAnalysis], the report and
                                    statistics handlers),
    - [routes/ai.js]               (the MCQ repair of [/generate-questions]),
    - [models/Coverage.js], [models/Question.js], [models/Module.js].

    Conventions of the embedding.

    - A JavaScript number is a value of [jsnum]: [NaN], the two infinities,
      or a finite value carried as a rational.  The numbers that the engine
      reads and computes are binary64 values: [parseFloat] delivers the
      binary64 value nearest to the decimal text, and a sum, a product or a
      quotient of scores is the exact result rounded to the nearest
      binary64 value, a tie going to the even significand ([JS.add64],
      [JS.mul64], [JS.div64]).  Comparisons, [Math.min], [Math.max] and
      [Math.round] are exact on such values.  The readers add and divide
      stored percentages, which are integers from 0 to 100, with the exact
      operations.  The sign of zero is not represented.
    - A string is the UTF-8 encoding of its text; its length and its
      cuts are counted in UTF-16 code units, as the language counts them.
    - [null] and [undefined] are [None]; truthiness is written out where the
      source relies on it ([x || y], [if (x)], [!x]).
    - The MongoDB collections are lists of documents in storage order; the
      database itself never fails, and object identifiers are well formed.
    - Everything outside the process (the chat-completion service, the
      question generator, the clock) is reached through an abstract world
      state that is threaded through every call, so that two calls with the
      same arguments may answer differently.
    - A call that may throw returns an [Outcome]; what the source writes to
      the console in the coverage engine is kept as a list of lines. *)

From Stdlib Require Import List String Ascii ZArith QArith Qround Qabs Qpower Bool Lia Lqa.
From Stdlib Require Import Permutation Sorted.
Import ListNotations.

Set Implicit Arguments.

(* ================================================================== *)
(** * JavaScript numbers *)
(* ================================================================== *)

Module JS.

Inductive jsnum : Type :=
| NaN
| PosInf
| NegInf
| Fin (q : Q).

Definition of_Z (z : Z) : jsnum := Fin (inject_Z z).
Definition of_nat (n : nat) : jsnum := of_Z (Z.of_nat n).

Definition isNaN (x : jsnum) : bool :=
  match x with NaN => true | _ => false end.

(** Three-way comparison; [None] when one side is [NaN]. *)
Definition compare (x y : jsnum) : option comparison :=
  match x, y with
  | NaN, _ | _, NaN => None
  | PosInf, PosInf => Some Eq
  | NegInf, NegInf => Some Eq
  | PosInf, _ => Some Gt
  | _, PosInf => Some Lt
  | NegInf, _ => Some Lt
  | _, NegInf => Some Gt
  | Fin a, Fin b => Some (a ?= b)%Q
  end.

(** [x < y], [x > y], [x >= y], [x <= y]: all false on [NaN]. *)
Definition ltb (x y : jsnum) : bool :=
  match compare x y with Some Lt => true | _ => false end.
Definition gtb (x y : jsnum) : bool := ltb y x.
Definition leb (x y : jsnum) : bool :=
  match compare x y with Some Lt | Some Eq => true | _ => false end.
Definition geb (x y : jsnum) : bool := leb y x.

(** [Math.min] and [Math.max]: [NaN] as soon as one argument is. *)
Definition min (x y : jsnum) : jsnum :=
  match compare x y with
  | None => NaN
  | Some Gt => y
  | Some _ => x
  end.

Definition max (x y : jsnum) : jsnum :=
  match compare x y with
  | None => NaN
  | Some Lt => y
  | Some _ => x
  end.

(** The exact sum, product and quotient. *)
Definition add (x y : jsnum) : jsnum :=
  match x, y with
  | NaN, _ | _, NaN => NaN
  | PosInf, NegInf | NegInf, PosInf => NaN
  | PosInf, _ | _, PosInf => PosInf
  | NegInf, _ | _, NegInf => NegInf
  | Fin a, Fin b => Fin (a + b)
  end.

(** Sign of a number that is not [NaN]. *)
Definition sign (x : jsnum) : comparison :=
  match x with
  | NaN => Eq
  | PosInf => Gt
  | NegInf => Lt
  | Fin a => (a ?= 0)%Q
  end.

Definition signed_inf (s t : comparison) : jsnum :=
  match s, t with
  | Eq, _ | _, Eq => NaN
  | Gt, Gt | Lt, Lt => PosInf
  | _, _ => NegInf
  end.

Definition mul (x y : jsnum) : jsnum :=
  match x, y with
  | NaN, _ | _, NaN => NaN
  | Fin a, Fin b => Fin (a * b)
  | _, _ => signed_inf (sign x) (sign y)
  end.

Definition div (x y : jsnum) : jsnum :=
  match x, y with
  | NaN, _ | _, NaN => NaN
  | Fin a, Fin b =>
      match (b ?= 0)%Q with
      | Eq => signed_inf (a ?= 0)%Q Gt
      | _ => Fin (a / b)
      end
  | Fin _, _ => Fin 0
  | _, Fin b =>
      match (b ?= 0)%Q with
      | Eq => x
      | s => signed_inf (sign x) s
      end
  | _, _ => NaN
  end.

(** [Math.round]: the nearest integer, a tie going up. *)
Definition round (x : jsnum) : jsnum :=
  match x with
  | Fin a => of_Z (Qfloor (a + (1 # 2)))
  | _ => x
  end.

(** [x || y] on numbers: [0] and [NaN] are falsy. *)
Definition truthy (x : jsnum) : bool :=
  match x with
  | NaN => false
  | Fin a => negb (Qeq_bool a 0)
  | _ => true
  end.

(** A number is finite and lies in the rational interval [lo, hi]. *)
Definition in_range (lo hi : Q) (x : jsnum) : Prop :=
  exists q : Q, x = Fin q /\ lo <= q /\ q <= hi.

(** ** binary64 *)

(** [2 ^ e] for an integer [e]. *)
Definition pow2 (e : Z) : Q :=
  if (0 <=? e)%Z then inject_Z (2 ^ e) else 1 / inject_Z (2 ^ (- e)).

(** The exponent of the binade of a positive rational: the largest [e]
    with [2 ^ e <= a]. *)
Definition ilog2 (a : Q) : Z :=
  let e := (Z.log2 (Qnum a) - Z.log2 (Zpos (Qden a)))%Z in
  if Qle_bool (pow2 e) a then e else (e - 1)%Z.

(** The nearest integer, a tie going to the even one. *)
Definition rne (q : Q) : Z :=
  let f := Qfloor q in
  match (q - inject_Z f ?= 1 # 2)%Q with
  | Lt => f
  | Gt => (f + 1)%Z
  | Eq => if Z.even f then f else (f + 1)%Z
  end.

(** The binary64 value nearest to a rational, a tie going to the even
    significand: 53 bits of significand in the binade of the value, the
    spacing of the smallest normal binade below it, an infinity from
    [2 ^ 1024] on. *)
Definition round64 (q : Q) : jsnum :=
  match (q ?= 0)%Q with
  | Eq => Fin 0
  | s =>
      let a := Qabs q in
      let e := Z.max (ilog2 a) (-1022) in
      let ulp := pow2 (e - 52) in
      let r := Qred (inject_Z (rne (a / ulp)) * ulp) in
      if Qle_bool (pow2 1024) r
      then match s with Lt => NegInf | _ => PosInf end
      else Fin (match s with Lt => - r | _ => r end)
  end.

(** The result of an operation, as the language delivers it. *)
Definition fl (x : jsnum) : jsnum :=
  match x with
  | Fin q => round64 q
  | _ => x
  end.

(** [x + y], [x * y] and [x / y] on binary64 values. *)
Definition add64 (x y : jsnum) : jsnum := fl (add x y).
Definition mul64 (x y : jsnum) : jsnum := fl (mul x y).
Definition div64 (x y : jsnum) : jsnum := fl (div x y).

End JS.

(* ================================================================== *)
(** * Strings: [trim] and [parseFloat] *)
(* ================================================================== *)

Module Text.

(** The white space of the language ([WhiteSpace] and [LineTerminator]):
    U+0009 to U+000D and U+0020 on one byte, U+00A0 on two, and U+1680,
    U+2000 to U+200A, U+2028, U+2029, U+202F, U+205F, U+3000 and U+FEFF on
    three. *)
Definition is_space (c : ascii) : bool :=
  let n := nat_of_ascii c in
  ((9 <=? n) && (n <=? 13) || (n =? 32))%nat.

Definition is_space2 (c1 c2 : ascii) : bool :=
  ((nat_of_ascii c1 =? 194) && (nat_of_ascii c2 =? 160))%nat.

Definition is_space3 (c1 c2 c3 : ascii) : bool :=
  let a := nat_of_ascii c1 in
  let b := nat_of_ascii c2 in
  let c := nat_of_ascii c3 in
  ((a =? 225) && (b =? 154) && (c =? 128)
   || (a =? 226) && (b =? 128)
      && ((128 <=? c) && (c <=? 138) || (c =? 168) || (c =? 169) || (c =? 175))
   || (a =? 226) && (b =? 129) && (c =? 159)
   || (a =? 227) && (b =? 128) && (c =? 128)
   || (a =? 239) && (b =? 187) && (c =? 191))%nat.

Definition is_digit (c : ascii) : bool :=
  let n := nat_of_ascii c in ((48 <=? n) && (n <=? 57))%nat.

Definition digit_val (c : ascii) : Z := Z.of_nat (nat_of_ascii c) - 48.

(** The input after its leading white space. *)
Fixpoint skip_spaces (s : list ascii) : list ascii :=
  match s with
  | c1 :: t1 =>
      if is_space c1 then skip_spaces t1
      else
        match t1 with
        | c2 :: t2 =>
            if is_space2 c1 c2 then skip_spaces t2
            else
              match t2 with
              | c3 :: t3 => if is_space3 c1 c2 c3 then skip_spaces t3 else s
              | [] => s
              end
        | [] => s
        end
  | [] => []
  end.

(** The same on the reversed input, for the white space at the end. *)
Fixpoint skip_spaces_rev (s : list ascii) : list ascii :=
  match s with
  | c1 :: t1 =>
      if is_space c1 then skip_spaces_rev t1
      else
        match t1 with
        | c2 :: t2 =>
            if is_space2 c2 c1 then skip_spaces_rev t2
            else
              match t2 with
              | c3 :: t3 => if is_space3 c3 c2 c1 then skip_spaces_rev t3 else s
              | [] => s
              end
        | [] => s
        end
  | [] => []
  end.

(** [String.prototype.trim]. *)
Definition trim (s : string) : string :=
  string_of_list_ascii
    (rev (skip_spaces_rev (rev (skip_spaces (list_ascii_of_string s))))).

(** The longest run of decimal digits at the head of [s]: its value, its
    length and the rest of the input. *)
Fixpoint digits (acc : Z) (len : nat) (s : list ascii) : Z * nat * list ascii :=
  match s with
  | c :: t =>
      if is_digit c then digits (10 * acc + digit_val c) (S len) t
      else (acc, len, s)
  | [] => (acc, len, [])
  end.

Fixpoint starts_with (p s : list ascii) : bool :=
  match p, s with
  | [], _ => true
  | a :: p', b :: s' => Ascii.eqb a b && starts_with p' s'
  | _ :: _, [] => false
  end.

(** The exponent part [e[+-]ddd]; [0] when there is none. *)
Definition exponent (s : list ascii) : Z :=
  match s with
  | c :: t =>
      if Ascii.eqb c "e" || Ascii.eqb c "E" then
        let '(neg, t') :=
          match t with
          | d :: u =>
              if Ascii.eqb d "-" then (true, u)
              else if Ascii.eqb d "+" then (false, u)
              else (false, t)
          | [] => (false, t)
          end in
        let '(v, n, _) := digits 0 0 t' in
        match n with
        | O => 0
        | _ => if neg then - v else v
        end
      else 0
  | [] => 0
  end%Z.

Definition pow10 (e : Z) : Q :=
  if (0 <=? e)%Z then inject_Z (10 ^ e) else 1 / inject_Z (10 ^ (- e)).

(** The built-in [parseFloat]: the binary64 value nearest to the value of
    the longest prefix, after leading white space, that is a decimal
    literal ([Infinity], or digits with an optional fraction and exponent,
    with an optional sign); [NaN] when there is none. *)
Definition parseFloat (input : string) : JS.jsnum :=
  let s := skip_spaces (list_ascii_of_string input) in
  let '(neg, s) :=
    match s with
    | c :: t =>
        if Ascii.eqb c "-" then (true, t)
        else if Ascii.eqb c "+" then (false, t)
        else (false, s)
    | [] => (false, s)
    end in
  if starts_with (list_ascii_of_string "Infinity") s then
    if neg then JS.NegInf else JS.PosInf
  else
    let '(ip, ni, s1) := digits 0 0 s in
    let '(fp, nf, s2) :=
      match s1 with
      | c :: t => if Ascii.eqb c "." then digits ip 0 t else (ip, O, s1)
      | [] => (ip, O, s1)
      end in
    match (ni + nf)%nat with
    | O => JS.NaN
    | _ =>
        let m := inject_Z (if neg then - fp else fp) in
        JS.round64 (m * pow10 (exponent s2 - Z.of_nat nf))
    end.

(** ** Code units *)

(** The language counts and cuts a string by UTF-16 code units.  The
    number of units that start at a byte: one at the first byte of a
    sequence of one, two or three bytes, two at the first byte of a sequence
    of four, none at a continuation byte. *)
Definition units (c : ascii) : nat :=
  let n := nat_of_ascii c in
  if (n <? 128)%nat then 1%nat
  else if (n <? 192)%nat then 0%nat
  else if (n <? 240)%nat then 1%nat
  else 2%nat.

(** [s.length]. *)
Definition jsLength (s : string) : nat :=
  list_sum (map units (list_ascii_of_string s)).

(** The first unit of a sequence of four bytes, the high surrogate of its
    code point, written on three bytes; the unit only appears alone where a
    cut falls between the two units of the sequence. *)
Definition highSurrogate (c0 : ascii) (t : list ascii) : list ascii :=
  let b i := N_of_ascii (nth i t zero) in
  let cp := ((N_of_ascii c0 mod 8) * 262144 + (b 0%nat mod 64) * 4096
             + (b 1%nat mod 64) * 64 + b 2%nat mod 64)%N in
  let hs := (55296 + (cp - 65536) / 1024)%N in
  [ascii_of_N 237; ascii_of_N (128 + (hs / 64) mod 64); ascii_of_N (128 + hs mod 64)].

(** The first [n] code units. *)
Fixpoint firstUnits (n : nat) (s : list ascii) : list ascii :=
  match s with
  | [] => []
  | c :: t =>
      match units c, n with
      | O, _ => c :: firstUnits n t
      | _, O => []
      | S O, S n' => c :: firstUnits n' t
      | _, S O => highSurrogate c t
      | _, S (S n'') => c :: firstUnits n'' t
      end
  end.

(** [s.slice(0, n)]. *)
Definition slice (n : nat) (s : string) : string :=
  string_of_list_ascii (firstUnits n (list_ascii_of_string s)).

End Text.

(* ================================================================== *)
(** * Documents of the three collections *)
(* ================================================================== *)

Open Scope string_scope.
Open Scope list_scope.

Definition ObjectId := nat.

(** The result of a call that may throw. *)
Inductive Outcome (A : Type) : Type :=
| Ok (a : A)
| Throw.
Arguments Ok {A} a.
Arguments Throw {A}.

Module LearningOutcome.
Record t := mk
  { loId : string;
    description : string;
    bloomLevel : string }.
End LearningOutcome.

Module ModuleDoc.
Record t := mk
  { _id : ObjectId;
    moduleCode : string;
    moduleName : string;
    learningOutcomes : list LearningOutcome.t }.
End ModuleDoc.

Inductive QuestionType := MCQ | Structured.
Inductive QuestionSource := Uploaded | Manual | AI.

Module Question.
Record t := mk
  { _id : ObjectId;
    moduleId : ObjectId;
    questionText : string;
    questionType : QuestionType;
    source : QuestionSource;
    options : list string;
    correctAnswer : string;
    marks : JS.jsnum;
    sampleAnswer : string }.
End Question.

Inductive Status := Covered | PartiallyCovered | NotCovered.

Definition Status_eqb (a b : Status) : bool :=
  match a, b with
  | Covered, Covered | PartiallyCovered, PartiallyCovered
  | NotCovered, NotCovered => true
  | _, _ => false
  end.

Module Covered.
Record t := mk
  { questionId : ObjectId;
    similarityScore : JS.jsnum }.
End Covered.

Module Coverage.
Record t := mk
  { moduleId : ObjectId;
    loId : string;
    coveragePercentage : JS.jsnum;
    status : Status;
    questionsCovered : list Covered.t;
    analyzedAt : Z;
    analysisTag : option string;
    questionCount : option nat;
    analyzedQuestions : option (list ObjectId) }.
End Coverage.

Record Database := mkDatabase
  { Modules : list ModuleDoc.t;
    Questions : list Question.t;
    Coverages : list Coverage.t }.

(** Lines written to the console by the coverage engine. *)
Inductive LogLine :=
| SkippingNoLearningOutcomes (moduleId : ObjectId)
| SkippingNoQuestions (moduleId : ObjectId)
| ErrorCalculatingSimilarity (questionId : ObjectId)
| AnalysisCompleted (moduleId : ObjectId).

(** ** Queries *)

(** [Model.findById]. *)
Definition findById (id : ObjectId) (ms : list ModuleDoc.t) : option ModuleDoc.t :=
  find (fun m => Nat.eqb (ModuleDoc._id m) id) ms.

(** [Question.find({ moduleId })]. *)
Definition findQuestions (moduleId : ObjectId) (qs : list Question.t) :=
  filter (fun q => Nat.eqb (Question.moduleId q) moduleId) qs.

(** [Question.find({ moduleId, _id: { $in: questionIds } })]. *)
Definition findQuestionsIn (moduleId : ObjectId) (questionIds : list ObjectId)
    (qs : list Question.t) :=
  filter (fun q => Nat.eqb (Question.moduleId q) moduleId
                   && existsb (Nat.eqb (Question._id q)) questionIds) qs.

(** The questions of a run: the selected ones when [questionIds] is a
    non-empty array, all the questions of the module otherwise. *)
Definition resolveQuestions (moduleId : ObjectId) (questionIds : option (list ObjectId))
    (qs : list Question.t) : list Question.t :=
  match questionIds with
  | Some ids =>
      if (0 <? List.length ids)%nat
      then findQuestionsIn moduleId ids qs
      else findQuestions moduleId qs
  | None => findQuestions moduleId qs
  end.

(** Truthiness of an optional string: [null], [undefined] and the empty
    string are falsy. *)
Definition truthy (s : option string) : bool :=
  match s with
  | Some t => negb (String.eqb t "")
  | None => false
  end.

(** [s || null]. *)
Definition orNull (s : option string) : option string :=
  if truthy s then s else None.

(** The filter that the engine and both readers build from [moduleId] and
    [analysisTag]: [{ moduleId, analysisTag }] for a truthy tag, and
    [{ moduleId, $or: [{ analysisTag: { $exists: false } },
    { analysisTag: null }] }] otherwise. *)
Definition scopeQuery (moduleId : ObjectId) (analysisTag : option string)
    (c : Coverage.t) : bool :=
  Nat.eqb (Coverage.moduleId c) moduleId &&
  (if truthy analysisTag then
     match Coverage.analysisTag c, analysisTag with
     | Some a, Some b => String.eqb a b
     | _, _ => false
     end
   else
     match Coverage.analysisTag c with
     | None => true
     | Some _ => false
     end).

(** [Coverage.deleteMany(query)]. *)
Definition deleteMany (query : Coverage.t -> bool) (cs : list Coverage.t) :=
  filter (fun c => negb (query c)) cs.

(* ================================================================== *)
(** * The similarity service and the coverage engine *)
(* ================================================================== *)

(** What the chat-completion request can come back with: a failure of the
    client or the network, or a completion whose content may be [null]. *)
Inductive ApiResult :=
| ApiError
| Completion (content : option string).

Section Engine.

(** The outside world: the state of the remote service and of the clock. *)
Variable World : Type.
Variable chatCompletion : World -> string -> string -> ApiResult * World.
Variable dateNow : World -> Z * World.

Record Sys := mkSys
  { db : Database;
    console : list LogLine;
    world : World }.

(** [calculateSimilarity(eloText, questionText)]. *)
Definition calculateSimilarity (w : World) (eloText questionText : string)
  : Outcome JS.jsnum * World :=
  let (response, w') := chatCompletion w eloText questionText in
  match response with
  | Completion (Some content) =>
      let scoreText := Text.trim content in
      let score := Text.parseFloat scoreText in
      if JS.isNaN score then (Ok (JS.of_Z 0), w')
      else (Ok (JS.max (JS.of_Z 0) (JS.min (JS.of_Z 1) score)), w')
  | _ => (Throw, w')
  end.

(** The three accumulators of the comparison loop, and the console. *)
Record Acc := mkAcc
  { questionsCovered : list Covered.t;
    totalSimilarity : JS.jsnum;
    questionCount : nat;
    logged : list LogLine }.

(** The bound of [similarityScore > 0.3].  The literal is the binary64
    value next below 3/10 and no binary64 value lies between the two
    (lemma [JSFacts.no_score_between]), so that the comparison with 3/10
    gives on every score what the comparison with the literal gives (lemma
    [score_above_literal]). *)
Definition threshold : JS.jsnum := JS.Fin (3 # 10).

(** One turn of [for (const question of questions)]. *)
Definition compareQuestion (lo : LearningOutcome.t) (question : Question.t)
    (acc : Acc) (w : World) : Acc * World :=
  let (r, w') := calculateSimilarity w (LearningOutcome.description lo)
                   (Question.questionText question) in
  match r with
  | Ok similarityScore =>
      if JS.gtb similarityScore threshold then
        (mkAcc (questionsCovered acc ++
                  [Covered.mk (Question._id question) similarityScore])
               (JS.add64 (totalSimilarity acc) similarityScore)
               (S (questionCount acc))
               (logged acc), w')
      else (acc, w')
  | Throw =>
      (mkAcc (questionsCovered acc) (totalSimilarity acc) (questionCount acc)
             (logged acc ++ [ErrorCalculatingSimilarity (Question._id question)]),
       w')
  end.

Fixpoint compareQuestions (lo : LearningOutcome.t) (questions : list Question.t)
    (acc : Acc) (w : World) : Acc * World :=
  match questions with
  | [] => (acc, w)
  | question :: rest =>
      let (acc', w') := compareQuestion lo question acc w in
      compareQuestions lo rest acc' w'
  end.

Definition coveragePercentageOf (acc : Acc) : JS.jsnum :=
  let averageSimilarity :=
    if (0 <? questionCount acc)%nat
    then JS.div64 (totalSimilarity acc) (JS.of_nat (questionCount acc))
    else JS.of_Z 0 in
  JS.min (JS.of_Z 100) (JS.round (JS.mul64 averageSimilarity (JS.of_Z 100))).

Definition statusOf (coveragePercentage : JS.jsnum) : Status :=
  if JS.geb coveragePercentage (JS.of_Z 70) then Covered
  else if JS.geb coveragePercentage (JS.of_Z 30) then PartiallyCovered
  else NotCovered.

(** The body of [for (const lo of module.learningOutcomes)]: compare,
    aggregate, build the document (its [analyzedAt] defaults to the
    clock) and save it.  The validators of the schema accept every document
    built here (lemma [run_saved_valid]), so [save] is an insertion. *)
Definition analyzeLO (moduleId : ObjectId) (questionIds : option (list ObjectId))
    (analysisTag : option string) (questions : list Question.t)
    (lo : LearningOutcome.t) (s : Sys) : Sys :=
  let (acc, w1) :=
    compareQuestions lo questions (mkAcc [] (JS.of_Z 0) 0 (console s)) (world s) in
  let coveragePercentage := coveragePercentageOf acc in
  let status := statusOf coveragePercentage in
  let (now, w2) := dateNow w1 in
  let coverage :=
    Coverage.mk moduleId (LearningOutcome.loId lo) coveragePercentage status
      (questionsCovered acc) now (orNull analysisTag)
      (Some (List.length questions)) questionIds in
  mkSys (mkDatabase (Modules (db s)) (Questions (db s))
                    (Coverages (db s) ++ [coverage]))
        (logged acc) w2.

Definition say (l : LogLine) (s : Sys) : Sys :=
  mkSys (db s) (console s ++ [l]) (world s).

(** [runCoverageAnalysis(moduleId, questionIds = null, analysisTag = null)]. *)
Definition runCoverageAnalysis (moduleId : ObjectId)
    (questionIds : option (list ObjectId)) (analysisTag : option string)
    (s : Sys) : Sys :=
  match findById moduleId (Modules (db s)) with
  | None => say (SkippingNoLearningOutcomes moduleId) s
  | Some mdl =>
      match ModuleDoc.learningOutcomes mdl with
      | [] => say (SkippingNoLearningOutcomes moduleId) s
      | _ :: _ =>
          let questions := resolveQuestions moduleId questionIds (Questions (db s)) in
          match questions with
          | [] => say (SkippingNoQuestions moduleId) s
          | _ :: _ =>
              let s1 :=
                mkSys (mkDatabase (Modules (db s)) (Questions (db s))
                         (deleteMany (scopeQuery moduleId analysisTag)
                                     (Coverages (db s))))
                      (console s) (world s) in
              let s2 :=
                fold_left
                  (fun st lo => analyzeLO moduleId questionIds analysisTag questions lo st)
                  (ModuleDoc.learningOutcomes mdl) s1 in
              say (AnalysisCompleted moduleId) s2
          end
      end
  end.

End Engine.

(* ================================================================== *)
(** * The readers: report and statistics *)
(* ================================================================== *)

(** [Coverage.find(query)]. *)
Definition findCoverage (query : Coverage.t -> bool) (cs : list Coverage.t) :=
  filter query cs.

(** [.sort({ analyzedAt: -1 })]: most recent first; documents with equal
    dates keep their storage order. *)
Fixpoint insertByDate (c : Coverage.t) (sorted : list Coverage.t) : list Coverage.t :=
  match sorted with
  | [] => [c]
  | d :: rest =>
      if (Coverage.analyzedAt d <=? Coverage.analyzedAt c)%Z
      then c :: sorted
      else d :: insertByDate c rest
  end.

Definition sortByAnalyzedAtDesc (cs : list Coverage.t) : list Coverage.t :=
  fold_right insertByDate [] cs.

(** A JavaScript [Map] keyed by strings: the entries in insertion order. *)
Module StrMap.
Definition t (V : Type) := list (string * V).

Definition has {V} (k : string) (m : t V) : bool :=
  existsb (fun e => String.eqb (fst e) k) m.

Fixpoint set {V} (k : string) (v : V) (m : t V) : t V :=
  match m with
  | [] => [(k, v)]
  | (k', v') :: rest =>
      if String.eqb k' k then (k', v) :: rest else (k', v') :: set k v rest
  end.

Definition values {V} (m : t V) : list V := map snd m.

Fixpoint get {V} (k : string) (m : t V) : option V :=
  match m with
  | [] => None
  | (k', v') :: rest => if String.eqb k' k then Some v' else get k rest
  end.

Fixpoint remove {V} (k : string) (m : t V) : t V :=
  match m with
  | [] => []
  | (k', v') :: rest =>
      if String.eqb k' k then remove k rest else (k', v') :: remove k rest
  end.
End StrMap.

(** The loop that fills [uniqueReports]. *)
Fixpoint collectUnique (reports : list Coverage.t) (uniqueReports : StrMap.t Coverage.t)
  : StrMap.t Coverage.t :=
  match reports with
  | [] => uniqueReports
  | report :: rest =>
      if negb (StrMap.has (Coverage.loId report) uniqueReports)
      then collectUnique rest (StrMap.set (Coverage.loId report) report uniqueReports)
      else collectUnique rest uniqueReports
  end.

Definition deduplicate (coverageReports : list Coverage.t) : list Coverage.t :=
  StrMap.values (collectUnique coverageReports []).

Module ReportEntry.
Record t := mk
  { loId : string;
    description : string;
    bloomLevel : string;
    coveragePercentage : JS.jsnum;
    status : Status;
    questionsCovered : list Covered.t;
    questionsCoveredCount : nat;
    analyzedAt : Z }.
End ReportEntry.

(** The enrichment of one report with the module's current outcome. *)
Definition enrich (mdl : ModuleDoc.t) (report : Coverage.t) : ReportEntry.t :=
  let lo := find (fun lo => String.eqb (LearningOutcome.loId lo) (Coverage.loId report))
                 (ModuleDoc.learningOutcomes mdl) in
  ReportEntry.mk
    (Coverage.loId report)
    (match lo with Some l => LearningOutcome.description l | None => "Unknown" end)
    (match lo with Some l => LearningOutcome.bloomLevel l | None => "Unknown" end)
    (Coverage.coveragePercentage report)
    (Coverage.status report)
    (Coverage.questionsCovered report)
    (List.length (Coverage.questionsCovered report))
    (Coverage.analyzedAt report).

(** [GET /module/:moduleId]: the [results] of the response, [None] for the
    404 answer.  The two [populate] calls, which replace question
    identifiers by question documents, are left out. *)
Definition getReport (moduleId : ObjectId) (analysisTag : option string)
    (d : Database) : option (list ReportEntry.t) :=
  match findById moduleId (Modules d) with
  | None => None
  | Some mdl =>
      let coverageReports :=
        sortByAnalyzedAtDesc
          (findCoverage (scopeQuery moduleId analysisTag) (Coverages d)) in
      let deduplicatedReports := deduplicate coverageReports in
      Some (map (enrich mdl) deduplicatedReports)
  end.

Module Stats.
Record t := mk
  { totalLOs : nat;
    covered : nat;
    partiallyCovered : nat;
    notCovered : nat;
    averageCoverage : JS.jsnum }.
End Stats.

Definition countStatus (st : Status) (reports : list Coverage.t) : nat :=
  List.length (filter (fun r => Status_eqb (Coverage.status r) st) reports).

(** [GET /stats/:moduleId]: the [stats] of the response, [None] for the
    404 answer. *)
Definition getStats (moduleId : ObjectId) (analysisTag : option string)
    (d : Database) : option Stats.t :=
  match findById moduleId (Modules d) with
  | None => None
  | Some mdl =>
      let coverageReports :=
        findCoverage (scopeQuery moduleId analysisTag) (Coverages d) in
      Some (Stats.mk
              (List.length (ModuleDoc.learningOutcomes mdl))
              (countStatus Covered coverageReports)
              (countStatus PartiallyCovered coverageReports)
              (countStatus NotCovered coverageReports)
              (if (0 <? List.length coverageReports)%nat
               then JS.round
                      (JS.div
                         (fold_left (fun sum r => JS.add sum (Coverage.coveragePercentage r))
                                    coverageReports (JS.of_Z 0))
                         (JS.of_nat (List.length coverageReports)))
               else JS.of_Z 0))
  end.

(* ================================================================== *)
(** * Question generation: the repair of generated MCQs *)
(* ================================================================== *)

(** One element of [generatedQuestions.mcqs] as it comes out of
    [JSON.parse]: every field may be missing, and nothing checks the shape
    of [options], which is missing or [null], a boolean, a number, a
    string, an array or an object.  The text and the designated answer are
    strings when they are there, and so are the elements of an array of
    options. *)
Module GeneratedMCQ.
Inductive shape :=
| Nullish
| Bool (b : bool)
| Num (n : JS.jsnum)
| Str (s : string)
| Arr (items : list string)
| Obj.
Record t := mk
  { question : option string;
    options : shape;
    correctAnswer : option string }.
End GeneratedMCQ.

Module GeneratedStructured.
Record t := mk
  { question : option string;
    marks : option JS.jsnum;
    sampleAnswer : option string }.
End GeneratedStructured.

Module Generated.
Record t := mk
  { mcqs : option (list GeneratedMCQ.t);
    structured : option (list GeneratedStructured.t) }.
End Generated.

(** [String.fromCharCode(n)] for a code below 256. *)
Definition fromCharCode (n : nat) : string := String (ascii_of_nat n) "".

(** [while (options.length < 4) options.push(...)]; the first argument
    bounds the number of turns. *)
Fixpoint padOptions (turns : nat) (options : list string) : list string :=
  match turns with
  | O => options
  | S turns' =>
      if (List.length options <? 4)%nat
      then padOptions turns'
             (options ++ [("Option " ++ fromCharCode (65 + List.length options))%string])
      else options
  end.

(** The value of the constant [options]: an array or a string. *)
Inductive OptionsValue :=
| AnArray (items : list string)
| AString (s : string).

(** [(mcq.options || []).slice(0, 4)].  A falsy value gives way to the
    empty array; an array and a string have a [slice]; a call of [slice] on
    [true], on a number or on an object is a [TypeError]. *)
Definition sliceOptions (options : GeneratedMCQ.shape) : Outcome OptionsValue :=
  match options with
  | GeneratedMCQ.Nullish => Ok (AnArray [])
  | GeneratedMCQ.Bool b => if b then Throw else Ok (AnArray [])
  | GeneratedMCQ.Num n => if JS.truthy n then Throw else Ok (AnArray [])
  | GeneratedMCQ.Str s =>
      if truthy (Some s) then Ok (AString (Text.slice 4 s)) else Ok (AnArray [])
  | GeneratedMCQ.Arr items => Ok (AnArray (firstn 4 items))
  | GeneratedMCQ.Obj => Throw
  end.

(** The loop [while (options.length < 4) options.push(...)]: it fills an
    array, it is not entered on a string of four units, and its first turn
    is a [TypeError] on a shorter string, which has no [push]. *)
Definition fillOptions (options : OptionsValue) : Outcome OptionsValue :=
  match options with
  | AnArray items => Ok (AnArray (padOptions 4 items))
  | AString s => if (Text.jsLength s <? 4)%nat then Throw else Ok (AString s)
  end.

(** The constant [options] when the document is built. *)
Definition repairOptions (mcq : GeneratedMCQ.t) : Outcome OptionsValue :=
  match sliceOptions (GeneratedMCQ.options mcq) with
  | Ok options => fillOptions options
  | Throw => Throw
  end.

(** [options[0]]: the first element of an array, the first unit of a
    string. *)
Definition firstOption (options : OptionsValue) : option string :=
  match options with
  | AnArray items => nth_error items 0
  | AString s => if (0 <? Text.jsLength s)%nat then Some (Text.slice 1 s) else None
  end.

(** [mcq.correctAnswer || options[0] || '']. *)
Definition repairCorrectAnswer (mcq : GeneratedMCQ.t) (options : OptionsValue) : string :=
  if truthy (GeneratedMCQ.correctAnswer mcq)
  then match GeneratedMCQ.correctAnswer mcq with Some a => a | None => "" end
  else if truthy (firstOption options)
       then match firstOption options with Some a => a | None => "" end
       else "".

(** What the schema makes of the field [options], declared as an array of
    strings: an array is kept, and a string becomes the only element of an
    array. *)
Definition castOptions (options : OptionsValue) : list string :=
  match options with
  | AnArray items => items
  | AString s => [s]
  end.

(** The outcome of [question.save()]: the schema requires [questionText]
    (a missing or empty text is rejected); on success the document is
    appended to the collection. *)
Definition saveQuestion (questionText : option string)
    (build : string -> Question.t) (d : Database) : Outcome Question.t * Database :=
  if truthy questionText then
    let q := build (match questionText with Some s => s | None => "" end) in
    (Ok q, mkDatabase (Modules d) (Questions d ++ [q]) (Coverages d))
  else (Throw, d).

Section Generation.

Variable World : Type.
Variable generateQuestions :
  World -> string -> string -> Z -> Z -> Outcome Generated.t * World.
Variable newObjectId : World -> ObjectId * World.

(** The loop over [generatedQuestions.mcqs]. *)
Fixpoint saveMCQs (moduleId : ObjectId) (mcqs : list GeneratedMCQ.t)
    (savedMCQs : list Question.t) (d : Database) (w : World)
  : Outcome (list Question.t) * Database * World :=
  match mcqs with
  | [] => (Ok savedMCQs, d, w)
  | mcq :: rest =>
      match repairOptions mcq with
      | Throw => (Throw, d, w)
      | Ok options =>
          let (id, w') := newObjectId w in
          match saveQuestion (GeneratedMCQ.question mcq)
                  (fun text =>
                     Question.mk id moduleId text MCQ AI (castOptions options)
                       (repairCorrectAnswer mcq options) (JS.of_Z 0) "") d with
          | (Ok question, d') => saveMCQs moduleId rest (savedMCQs ++ [question]) d' w'
          | (Throw, d') => (Throw, d', w')
          end
      end
  end.

(** The loop over [generatedQuestions.structured]. *)
Fixpoint saveStructured (moduleId : ObjectId) (items : list GeneratedStructured.t)
    (savedStructured : list Question.t) (d : Database) (w : World)
  : Outcome (list Question.t) * Database * World :=
  match items with
  | [] => (Ok savedStructured, d, w)
  | structured :: rest =>
      let (id, w') := newObjectId w in
      match saveQuestion (GeneratedStructured.question structured)
              (fun text =>
                 Question.mk id moduleId text Structured AI [] ""
                   (match GeneratedStructured.marks structured with
                    | Some m => if JS.truthy m then m else JS.of_Z 10
                    | None => JS.of_Z 10
                    end)
                   (match GeneratedStructured.sampleAnswer structured with
                    | Some a => a
                    | None => ""
                    end)) d with
      | (Ok question, d') =>
          saveStructured moduleId rest (savedStructured ++ [question]) d' w'
      | (Throw, d') => (Throw, d', w')
      end
  end.

(** The answers of [POST /generate-questions]. *)
Inductive Response :=
| BadRequest
| NotFound
| ServerError
| Success (savedMCQs savedStructured : list Question.t).

(** [POST /generate-questions]; the questions saved before a failure stay
    in the collection. *)
Definition generateQuestionsRoute (moduleId : option ObjectId) (loId : option string)
    (mcqCount structuredCount : Z) (d : Database) (w : World)
  : Response * Database * World :=
  match moduleId with
  | None => (BadRequest, d, w)
  | Some moduleId =>
      if negb (truthy loId) || (mcqCount =? 0)%Z || (structuredCount =? 0)%Z
      then (BadRequest, d, w)
      else
        match findById moduleId (Modules d) with
        | None => (NotFound, d, w)
        | Some mdl =>
            match find (fun l => match loId with
                                 | Some i => String.eqb (LearningOutcome.loId l) i
                                 | None => false
                                 end)
                       (ModuleDoc.learningOutcomes mdl) with
            | None => (NotFound, d, w)
            | Some lo =>
                let (g, w1) :=
                  generateQuestions w (LearningOutcome.description lo)
                    (LearningOutcome.bloomLevel lo) mcqCount structuredCount in
                match g with
                | Throw => (ServerError, d, w1)
                | Ok generatedQuestions =>
                    match saveMCQs moduleId
                            (match Generated.mcqs generatedQuestions with
                             | Some l => l
                             | None => []
                             end) [] d w1 with
                    | (Throw, d1, w2) => (ServerError, d1, w2)
                    | (Ok savedMCQs, d1, w2) =>
                        match saveStructured moduleId
                                (match Generated.structured generatedQuestions with
                                 | Some l => l
                                 | None => []
                                 end) [] d1 w2 with
                        | (Throw, d2, w3) => (ServerError, d2, w3)
                        | (Ok savedStructured, d2, w3) =>
                            (Success savedMCQs savedStructured, d2, w3)
                        end
                    end
                end
            end
        end
  end.

End Generation.

(* ================================================================== *)
(** * Vocabulary of the statements *)
(* ================================================================== *)

(** The value returned for a completion, as a function of what
    [parseFloat] makes of its text. *)
Definition clamped (score : JS.jsnum) : JS.jsnum :=
  if JS.isNaN score then JS.of_Z 0
  else JS.max (JS.of_Z 0) (JS.min (JS.of_Z 1) score).

(** The scores of a covering set. *)
Definition scores (covering : list Covered.t) : list JS.jsnum :=
  map Covered.similarityScore covering.

(** The percentage in the words of the specification: the mean of the
    scores of the covering questions, times 100, rounded, at most 100; and
    0 when no question covers the outcome.  The mean and the product are
    the exact ones. *)
Definition mean (xs : list JS.jsnum) : JS.jsnum :=
  JS.div (fold_left JS.add xs (JS.of_Z 0)) (JS.of_nat (List.length xs)).

Definition specPercentage (covering : list JS.jsnum) : JS.jsnum :=
  match covering with
  | [] => JS.of_Z 0
  | _ :: _ => JS.min (JS.of_Z 100) (JS.round (JS.mul (mean covering) (JS.of_Z 100)))
  end.

(** The same with the operations of binary64: the scores are added from
    0 in the order of the covering set, and the sum, the quotient and the
    product are each rounded. *)
Definition sum64 (xs : list JS.jsnum) : JS.jsnum :=
  fold_left JS.add64 xs (JS.of_Z 0).

Definition mean64 (xs : list JS.jsnum) : JS.jsnum :=
  JS.div64 (sum64 xs) (JS.of_nat (List.length xs)).

Definition percentage64 (covering : list JS.jsnum) : JS.jsnum :=
  match covering with
  | [] => JS.of_Z 0
  | _ :: _ =>
      JS.min (JS.of_Z 100) (JS.round (JS.mul64 (mean64 covering) (JS.of_Z 100)))
  end.

(** A number that is positive infinity or a finite value that is not
    negative. *)
Definition nonneg (x : JS.jsnum) : Prop :=
  x = JS.PosInf \/ exists q, x = JS.Fin q /\ (0 <= q)%Q.


(** A score is strictly greater than the rational [t]. *)
Definition exceeds (t : Q) (s : JS.jsnum) : Prop :=
  match s with
  | JS.Fin x => (t < x)%Q
  | JS.PosInf => True
  | _ => False
  end.

(** A score of a covering set: finite, above 0.3 and at most 1. *)
Definition coveringScore (s : JS.jsnum) : Prop :=
  exists x, s = JS.Fin x /\ ((3 # 10) < x)%Q /\ (x <= 1)%Q.

(** ** What the world answers during a run *)

Section Observations.

Variable World : Type.
Variable chatCompletion : World -> string -> string -> ApiResult * World.
Variable dateNow : World -> Z * World.

(** The answers of the similarity service to the comparisons of one
    outcome with the questions, in the order of the calls. *)
Fixpoint similarityAnswers (lo : LearningOutcome.t) (questions : list Question.t)
    (w : World) : list (Question.t * Outcome JS.jsnum) * World :=
  match questions with
  | [] => ([], w)
  | question :: rest =>
      let (r, w1) := calculateSimilarity chatCompletion w (LearningOutcome.description lo)
                       (Question.questionText question) in
      let (tr, w2) := similarityAnswers lo rest w1 in
      ((question, r) :: tr, w2)
  end.

(** For each outcome in turn: the answers to its comparisons, then the
    date read when its document is built. *)
Fixpoint analysisTrace (questions : list Question.t) (los : list LearningOutcome.t)
    (w : World)
  : list (LearningOutcome.t * list (Question.t * Outcome JS.jsnum) * Z) * World :=
  match los with
  | [] => ([], w)
  | lo :: rest =>
      let (tr, w1) := similarityAnswers lo questions w in
      let (now, w2) := dateNow w1 in
      let (trs, w3) := analysisTrace questions rest w2 in
      ((lo, tr, now) :: trs, w3)
  end.

End Observations.

(** ** The comparison loop as a filter over the answers *)

Definition entryOf (a : Question.t * Outcome JS.jsnum) : list Covered.t :=
  match snd a with
  | Ok s => if JS.gtb s threshold then [Covered.mk (Question._id (fst a)) s] else []
  | Throw => []
  end.

Definition errorOf (a : Question.t * Outcome JS.jsnum) : list LogLine :=
  match snd a with
  | Ok _ => []
  | Throw => [ErrorCalculatingSimilarity (Question._id (fst a))]
  end.

Definition coveredBy (tr : list (Question.t * Outcome JS.jsnum)) : list Covered.t :=
  flat_map entryOf tr.

Definition errorsOf (tr : list (Question.t * Outcome JS.jsnum)) : list LogLine :=
  flat_map errorOf tr.

Definition errorsOfRun
    (trs : list (LearningOutcome.t * list (Question.t * Outcome JS.jsnum) * Z))
  : list LogLine :=
  flat_map (fun e => errorsOf (snd (fst e))) trs.

(** The document of an outcome, from the answers to its comparisons and
    the date of its construction. *)
Definition recordOf (moduleId : ObjectId) (questionIds : option (list ObjectId))
    (analysisTag : option string) (questions : list Question.t)
    (e : LearningOutcome.t * list (Question.t * Outcome JS.jsnum) * Z) : Coverage.t :=
  let covering := coveredBy (snd (fst e)) in
  let percentage := percentage64 (scores covering) in
  Coverage.mk moduleId (LearningOutcome.loId (fst (fst e))) percentage
    (statusOf percentage) covering (snd e) (orNull analysisTag)
    (Some (List.length questions)) questionIds.

(** The validators of the Coverage schema: [coveragePercentage] between 0
    and 100, every [similarityScore] between 0 and 1. *)
Definition schemaValid (c : Coverage.t) : Prop :=
  JS.in_range 0 100 (Coverage.coveragePercentage c)
  /\ Forall (fun e => JS.in_range 0 1 (Covered.similarityScore e))
            (Coverage.questionsCovered c).

(** ** Runs *)

(** The run goes past its two guards: the module exists with at least one
    outcome, and at least one question is resolved. *)
Definition proceeds (moduleId : ObjectId) (questionIds : option (list ObjectId))
    (d : Database) : bool :=
  match findById moduleId (Modules d) with
  | Some mdl =>
      negb (Nat.eqb (List.length (ModuleDoc.learningOutcomes mdl)) 0)
      && negb (Nat.eqb (List.length (resolveQuestions moduleId questionIds (Questions d))) 0)
  | None => false
  end.

(** The outcomes of a module; none when the module does not exist. *)
Definition outcomesOf (moduleId : ObjectId) (d : Database) : list LearningOutcome.t :=
  match findById moduleId (Modules d) with
  | Some mdl => ModuleDoc.learningOutcomes mdl
  | None => []
  end.

(** The documents of the collection after the run that come after those
    the run kept from before. *)
Definition savedCoverages (moduleId : ObjectId) (analysisTag : option string)
    (before after : Database) : list Coverage.t :=
  skipn (List.length (deleteMany (scopeQuery moduleId analysisTag) (Coverages before)))
        (Coverages after).

Definition withAnalyzedQuestions (a : option (list ObjectId)) (c : Coverage.t)
  : Coverage.t :=
  Coverage.mk (Coverage.moduleId c) (Coverage.loId c) (Coverage.coveragePercentage c)
    (Coverage.status c) (Coverage.questionsCovered c) (Coverage.analyzedAt c)
    (Coverage.analysisTag c) (Coverage.questionCount c) a.

(** ** Readers and generation *)

(** Most recent first. *)
Definition newerFirst (a b : Coverage.t) : Prop :=
  (Coverage.analyzedAt b <= Coverage.analyzedAt a)%Z.

Definition keyed (m : StrMap.t Coverage.t) : Prop :=
  forall e, In e m -> fst e = Coverage.loId (snd e).

Definition firstWith (k : string) (reports : list Coverage.t) : option Coverage.t :=
  find (fun r => String.eqb (Coverage.loId r) k) reports.

(** The placeholder pushed when [options] has [n] elements. *)
Definition placeholder (n : nat) : string :=
  ("Option " ++ fromCharCode (65 + n))%string.

(** The options that came as an array; a falsy value stands for the
    empty array, and there is none for a string that is not empty, for
    [true], for a number other than zero and for an object. *)
Definition arrayOf (options : GeneratedMCQ.shape) : option (list string) :=
  match options with
  | GeneratedMCQ.Nullish => Some []
  | GeneratedMCQ.Bool b => if b then None else Some []
  | GeneratedMCQ.Num n => if JS.truthy n then None else Some []
  | GeneratedMCQ.Str s => if truthy (Some s) then None else Some []
  | GeneratedMCQ.Arr items => Some items
  | GeneratedMCQ.Obj => None
  end.

(** The four options in the words of the specification: the first four of
    those that came, followed by the placeholders of the missing
    positions. *)
Definition fourOptions (given : list string) : list string :=
  firstn 4 given ++ map placeholder (seq (List.length given) (4 - List.length given)).

(** A saved question is the repair of a generated MCQ. *)
Definition repairs (moduleId : ObjectId) (mcq : GeneratedMCQ.t) (q : Question.t) : Prop :=
  Question.moduleId q = moduleId
  /\ Question.questionType q = MCQ
  /\ Question.source q = AI
  /\ GeneratedMCQ.question mcq = Some (Question.questionText q)
  /\ exists options,
       repairOptions mcq = Ok options
       /\ Question.options q = castOptions options
       /\ Question.correctAnswer q = repairCorrectAnswer mcq options.

(* ================================================================== *)
(** * Worked scenarios *)
(* ================================================================== *)

Module Scenario.

Local Open Scope nat_scope.

(** A world whose similarity service answers from a table of texts and
    fails on every other pair, and whose clock advances by one at each
    reading. *)
Definition World : Type := list (string * string * ApiResult) * Z.

Definition chat (w : World) (eloText questionText : string) : ApiResult * World :=
  (match find (fun e => String.eqb (fst (fst e)) eloText
                        && String.eqb (snd (fst e)) questionText) (fst w) with
   | Some e => snd e
   | None => ApiError
   end, w).

Definition clock (w : World) : Z * World := (snd w, (fst w, (snd w + 1)%Z)).

Definition LO1 := LearningOutcome.mk "LO1" "understand loops" "Understand".
Definition LO2 := LearningOutcome.mk "LO2" "build a sorting algorithm" "Create".
Definition CS101 := ModuleDoc.mk 1 "CS101" "Programming" [LO1; LO2].

Definition question (id moduleId : ObjectId) (text : string) : Question.t :=
  Question.mk id moduleId text Structured Manual [] "" (JS.of_Z 10) "".

Definition Q1 := question 11 1 "Q1".
Definition Q2 := question 12 1 "Q2".
Definition Q3 := question 13 1 "Q3".
(** A question of another module. *)
Definition Q9 := question 99 2 "Q9".

(** The service scores (LO1, Q1) at 0.8, (LO1, Q2) at 0.1, (LO1, Q3) at
    0.5, and every pair of LO2 at 0. *)
Definition answers : list (string * string * ApiResult) :=
  [ ("understand loops", "Q1", Completion (Some "0.8"));
    ("understand loops", "Q2", Completion (Some "0.1"));
    ("understand loops", "Q3", Completion (Some "0.5"));
    ("build a sorting algorithm", "Q1", Completion (Some "0"));
    ("build a sorting algorithm", "Q2", Completion (Some "0"));
    ("build a sorting algorithm", "Q3", Completion (Some "0")) ].

Definition database : Database := mkDatabase [CS101] [Q1; Q2; Q3; Q9] [].

Definition start : Sys World := mkSys database [] (answers, 1000%Z).

(** The same system with a service that fails on every pair but
    (LO1, Q1) and (LO1, Q3). *)
Definition flaky : Sys World :=
  mkSys database []
        ([ ("understand loops", "Q1", Completion (Some "0.8"));
           ("understand loops", "Q3", Completion (Some "0.5")) ], 1000%Z).

(** The same system with a service that scores (LO1, Q1) at 0.35 and
    (LO1, Q3) at 0.78 and fails on every other pair. *)
Definition halfway : Sys World :=
  mkSys database []
        ([ ("understand loops", "Q1", Completion (Some "0.35"));
           ("understand loops", "Q3", Completion (Some "0.78")) ], 1000%Z).

(** A stored document of scope [(1, null)] for LO1. *)
Definition stale (at_ : Z) (st : Status) (pct : Z) : Coverage.t :=
  Coverage.mk 1 "LO1" (JS.of_Z pct) st [] at_ None (Some 3%nat) None.

(** The module has outcomes and a stored document, but no question. *)
Definition withoutQuestions : Sys World :=
  mkSys (mkDatabase [CS101] [Q9] [stale 500 Covered 80]) [] (answers, 1000%Z).

(** The system of the scenario with a stored document of the default
    scope. *)
Definition withStale : Sys World :=
  mkSys (mkDatabase [CS101] [Q1; Q2; Q3; Q9] [stale 500 Covered 80]) []
        (answers, 1000%Z).

(** Two documents for LO1 in the default scope, as two interleaved runs
    leave them. *)
Definition duplicated : Database :=
  mkDatabase [ModuleDoc.mk 1 "CS101" "Programming" [LO1]] [Q1]
    [stale 500 Covered 80; stale 600 Covered 90].

(** A generated MCQ with two options and no designated answer. *)
Definition twoOptions : GeneratedMCQ.t :=
  GeneratedMCQ.mk (Some "What is a loop?") (GeneratedMCQ.Arr ["for"; "while"]) None.

(** The same with a string in the place of the array: of four letters, and
    of two. *)
Definition fourLetters : GeneratedMCQ.t :=
  GeneratedMCQ.mk (Some "What is a loop?") (GeneratedMCQ.Str "abcd") None.

Definition twoLetters : GeneratedMCQ.t :=
  GeneratedMCQ.mk (Some "What is a loop?") (GeneratedMCQ.Str "ab") None.

(** A generator that answers one MCQ. *)
Definition generating (mcq : GeneratedMCQ.t) (w : World) (_ _ : string) (_ _ : Z)
  : Outcome Generated.t * World :=
  (Ok (Generated.mk (Some [mcq]) None), w).

Definition generator : World -> string -> string -> Z -> Z -> Outcome Generated.t * World :=
  generating twoOptions.

Definition freshId (w : World) : ObjectId * World :=
  (Z.to_nat (snd w), (fst w, (snd w + 1)%Z)).

End Scenario.

(* ================================================================== *)
(** * The other routes of the coverage router *)
(* ================================================================== *)

Module AnalyzeEntry.
Record t := mk
  { loId : string;
    description : string;
    bloomLevel : string;
    coveragePercentage : JS.jsnum;
    status : Status;
    questionsCovered : nat;
    analysisTag : option string;
    questionCount : nat }.
End AnalyzeEntry.

(** The answers of [POST /analyze/:moduleId]. *)
Inductive AnalyzeResponse :=
| AnalyzeModuleNotFound
| AnalyzeNoQuestions
| AnalyzeCompleted (totalLOs totalQuestions : nat) (analysisTag : option string)
                   (results : list AnalyzeEntry.t).

(** One element of [results] in the answer of [POST /analyze/:moduleId];
    [n || m] on counts takes [m] when [n] is [null] or 0. *)
Definition analyzeEntry (mdl : ModuleDoc.t) (totalQuestions : nat) (report : Coverage.t)
  : AnalyzeEntry.t :=
  let lo := find (fun lo => String.eqb (LearningOutcome.loId lo) (Coverage.loId report))
                 (ModuleDoc.learningOutcomes mdl) in
  AnalyzeEntry.mk
    (Coverage.loId report)
    (match lo with Some l => LearningOutcome.description l | None => "Unknown" end)
    (match lo with Some l => LearningOutcome.bloomLevel l | None => "Unknown" end)
    (Coverage.coveragePercentage report)
    (Coverage.status report)
    (List.length (Coverage.questionsCovered report))
    (orNull (Coverage.analysisTag report))
    (match Coverage.questionCount report with
     | Some (S n) => S n
     | _ => totalQuestions
     end).

Section CoverageRoutes.

Variable World : Type.
Variable chatCompletion : World -> string -> string -> ApiResult * World.
Variable dateNow : World -> Z * World.

(** [POST /analyze/:moduleId] with the body [{ questionIds, analysisTag }]. *)
Definition analyzeRoute (moduleId : ObjectId) (questionIds : option (list ObjectId))
    (analysisTag : option string) (s : Sys World) : AnalyzeResponse * Sys World :=
  match findById moduleId (Modules (db s)) with
  | None => (AnalyzeModuleNotFound, s)
  | Some mdl =>
      let questions := resolveQuestions moduleId questionIds (Questions (db s)) in
      match questions with
      | [] => (AnalyzeNoQuestions, s)
      | _ :: _ =>
          let s' := runCoverageAnalysis chatCompletion dateNow moduleId questionIds
                      analysisTag s in
          let coverageReports :=
            findCoverage (scopeQuery moduleId analysisTag) (Coverages (db s')) in
          (AnalyzeCompleted
             (List.length (ModuleDoc.learningOutcomes mdl))
             (List.length questions)
             (orNull analysisTag)
             (map (analyzeEntry mdl (List.length questions)) coverageReports),
           s')
      end
  end.

End CoverageRoutes.

Definition isSome {A} (o : option A) : bool :=
  match o with Some _ => true | None => false end.

Definition option_string_dec (a b : option string) : {a = b} + {a <> b}.
Proof.
  decide equality. apply string_dec.
Defined.

(** [Coverage.distinct('analysisTag', { moduleId, analysisTag: { $ne: null } })]:
    each value once. *)
Definition distinctTags (moduleId : ObjectId) (cs : list Coverage.t)
  : list (option string) :=
  nodup option_string_dec
        (map Coverage.analysisTag
             (filter (fun c => Nat.eqb (Coverage.moduleId c) moduleId
                               && isSome (Coverage.analysisTag c)) cs)).

(** [tags.filter(tag => tag !== null)]. *)
Definition someTags (tags : list (option string)) : list string :=
  flat_map (fun tag => match tag with Some t => [t] | None => [] end) tags.

(** [GET /analysis-tags/:moduleId]: the [tags] of the response. *)
Definition analysisTags (moduleId : ObjectId) (d : Database) : list string :=
  someTags (distinctTags moduleId (Coverages d)).

(** An integer percentage. *)
Definition isPercentage (x : JS.jsnum) : Prop :=
  exists z : Z, x = JS.of_Z z /\ (0 <= z <= 100)%Z.

(* ================================================================== *)
(** * The Bloom-level rollup of the coverage pages *)
(* ================================================================== *)

Definition bloomLevels : list string :=
  ["Remember"; "Understand"; "Apply"; "Analyze"; "Evaluate"; "Create"].

Module BloomStats.
Record t := mk
  { count : nat;
    totalCoverage : JS.jsnum;
    covered : nat;
    partiallyCovered : nat;
    notCovered : nat }.
End BloomStats.

Module BloomItem.
Record t := mk
  { level : string;
    count : nat;
    averageCoverage : JS.jsnum;
    covered : nat;
    partiallyCovered : nat;
    notCovered : nat }.
End BloomItem.

(** [bloomStats] after its initialisation: an entry for each level. *)
Definition initialBloomStats : StrMap.t BloomStats.t :=
  fold_left (fun m level => StrMap.set level (BloomStats.mk 0 (JS.of_Z 0) 0 0 0) m)
            bloomLevels [].

(** The update of the entry of a level by one result. *)
Definition countResult (result : ReportEntry.t) (stats : BloomStats.t) : BloomStats.t :=
  BloomStats.mk
    (S (BloomStats.count stats))
    (JS.add (BloomStats.totalCoverage stats) (ReportEntry.coveragePercentage result))
    (match ReportEntry.status result with
     | Covered => S (BloomStats.covered stats)
     | _ => BloomStats.covered stats
     end)
    (match ReportEntry.status result with
     | PartiallyCovered => S (BloomStats.partiallyCovered stats)
     | _ => BloomStats.partiallyCovered stats
     end)
    (match ReportEntry.status result with
     | NotCovered => S (BloomStats.notCovered stats)
     | _ => BloomStats.notCovered stats
     end).

(** One turn of [coverageData.results.forEach]: a result whose level has no
    entry is passed over.  (The level of a result is one of the six levels of
    the schema or "Unknown".) *)
Definition tallyResult (bloomStats : StrMap.t BloomStats.t) (result : ReportEntry.t)
  : StrMap.t BloomStats.t :=
  match StrMap.get (ReportEntry.bloomLevel result) bloomStats with
  | Some stats =>
      StrMap.set (ReportEntry.bloomLevel result) (countResult result stats) bloomStats
  | None => bloomStats
  end.

Definition bloomItem (bloomStats : StrMap.t BloomStats.t) (level : string) : BloomItem.t :=
  let stats :=
    match StrMap.get level bloomStats with
    | Some st => st
    | None => BloomStats.mk 0 (JS.of_Z 0) 0 0 0
    end in
  BloomItem.mk level (BloomStats.count stats)
    (if (0 <? BloomStats.count stats)%nat
     then JS.round (JS.div (BloomStats.totalCoverage stats)
                           (JS.of_nat (BloomStats.count stats)))
     else JS.of_Z 0)
    (BloomStats.covered stats) (BloomStats.partiallyCovered stats)
    (BloomStats.notCovered stats).

(** [calculateBloomLevelCoverage], on [coverageData.results]; [None] is
    the [null] returned when there is no data. *)
Definition calculateBloomLevelCoverage (results : option (list ReportEntry.t))
  : option (list BloomItem.t) :=
  match results with
  | None => None
  | Some results =>
      let bloomStats := fold_left tallyResult results initialBloomStats in
      Some (filter (fun item => (0 <? BloomItem.count item)%nat)
                   (map (bloomItem bloomStats) bloomLevels))
  end.

(** The update of the entry of [level] by a result, when the result is of
    that level. *)
Definition tallyAt (level : string) (stats : BloomStats.t) (result : ReportEntry.t)
  : BloomStats.t :=
  if String.eqb (ReportEntry.bloomLevel result) level
  then countResult result stats
  else stats.

(** The results of a level, and the number of results with a status. *)
Definition ofLevel (level : string) (results : list ReportEntry.t) : list ReportEntry.t :=
  filter (fun r => String.eqb (ReportEntry.bloomLevel r) level) results.

Definition withStatus (st : Status) (results : list ReportEntry.t) : nat :=
  List.length (filter (fun r => Status_eqb (ReportEntry.status r) st) results).

(* ================================================================== *)
(** * Manual entry of a question *)
(* ================================================================== *)

(** The body of [POST /api/questions]. *)
Module QuestionBody.
Record t := mk
  { moduleId : option ObjectId;
    questionText : option string;
    questionType : option string;
    options : option (list string);
    correctAnswer : option string;
    marks : option JS.jsnum;
    sampleAnswer : option string }.
End QuestionBody.

Inductive CreateResponse :=
| MissingFields
| InvalidQuestionType
| TooFewOptions
| TooFewValidOptions
| CreateModuleNotFound
| CreateFailed
| Created (question : Question.t).

(** [opt && opt.trim().length > 0]. *)
Definition nonBlank (opt : string) : bool :=
  negb (String.eqb opt "") && (0 <? String.length (Text.trim opt))%nat.

(** [['MCQ', 'Structured'].includes(questionType)]. *)
Definition questionTypeOf (questionType : string) : option QuestionType :=
  if String.eqb questionType "MCQ" then Some MCQ
  else if String.eqb questionType "Structured" then Some Structured
  else None.

(** [s || ''] followed by [trim]. *)
Definition trimOrEmpty (s : option string) : string :=
  Text.trim (match s with Some t => t | None => "" end).

Section QuestionRoutes.

Variable World : Type.
Variable chatCompletion : World -> string -> string -> ApiResult * World.
Variable dateNow : World -> Z * World.
Variable newObjectId : World -> ObjectId * World.

(** [POST /api/questions].  The state returned is the one reached when the
    analysis started in the background has finished. *)
Definition createQuestionRoute (body : QuestionBody.t) (s : Sys World)
  : CreateResponse * Sys World :=
  match QuestionBody.moduleId body with
  | None => (MissingFields, s)
  | Some moduleId =>
      if negb (truthy (QuestionBody.questionText body))
         || negb (truthy (QuestionBody.questionType body))
      then (MissingFields, s)
      else
        match questionTypeOf (match QuestionBody.questionType body with
                              | Some t => t
                              | None => ""
                              end) with
        | None => (InvalidQuestionType, s)
        | Some questionType =>
            let options :=
              match QuestionBody.options body with Some o => o | None => [] end in
            let isMCQ := match questionType with MCQ => true | Structured => false end in
            if isMCQ && (negb (isSome (QuestionBody.options body))
                         || (List.length options <? 2)%nat)
            then (TooFewOptions, s)
            else if isMCQ && (List.length (filter nonBlank options) <? 2)%nat
            then (TooFewValidOptions, s)
            else
              match findById moduleId (Modules (db s)) with
              | None => (CreateModuleNotFound, s)
              | Some _ =>
                  let (id, w1) := newObjectId (world s) in
                  let question :=
                    Question.mk id moduleId
                      (trimOrEmpty (QuestionBody.questionText body))
                      questionType Manual
                      (if isMCQ then filter nonBlank options else [])
                      (if isMCQ then trimOrEmpty (QuestionBody.correctAnswer body) else "")
                      (match QuestionBody.marks body with
                       | Some m => if JS.truthy m then m else JS.of_Z 0
                       | None => JS.of_Z 0
                       end)
                      (if isMCQ then "" else trimOrEmpty (QuestionBody.sampleAnswer body)) in
                  match saveQuestion (Some (Question.questionText question))
                          (fun _ => question) (db s) with
                  | (Throw, d1) => (CreateFailed, mkSys d1 (console s) w1)
                  | (Ok saved, d1) =>
                      (Created saved,
                       runCoverageAnalysis chatCompletion dateNow moduleId None None
                         (mkSys d1 (console s) w1))
                  end
              end
        end
  end.

End QuestionRoutes.

(* ================================================================== *)
(** * Batch generation *)
(* ================================================================== *)

(** One element of [results] in the answer of [POST /generate-batch]. *)
Inductive BatchResult :=
| BatchOutcomeNotFound (loId : string)
| BatchFailed (loId : string)
| BatchGenerated (loId : string) (mcqsGenerated structuredGenerated : nat).

Definition batchLoId (r : BatchResult) : string :=
  match r with
  | BatchOutcomeNotFound loId | BatchFailed loId | BatchGenerated loId _ _ => loId
  end.

(** The number of questions an element of [results] reports. *)
Definition generatedCount (r : BatchResult) : nat :=
  match r with
  | BatchGenerated _ mcqsGenerated structuredGenerated =>
      (mcqsGenerated + structuredGenerated)%nat
  | _ => 0%nat
  end.

(** A question as the generation routes save it: it belongs to the
    module, comes from the generator and has a text; an MCQ has four
    options, or has for its only option a string of four code units, which
    is what [slice] leaves of options that came as a string. *)
Definition generatedFor (moduleId : ObjectId) (q : Question.t) : Prop :=
  Question.moduleId q = moduleId
  /\ Question.source q = AI
  /\ Question.questionText q <> ""
  /\ (Question.questionType q = MCQ ->
      List.length (Question.options q) = 4%nat
      \/ exists s, Question.options q = [s] /\ Text.jsLength s = 4%nat).

(** What one of the two saving loops adds to the database, whether it
    reaches its end or stops at a question the schema refuses. *)
Definition appends {World : Type} (moduleId : ObjectId) (saved : list Question.t)
    (res : Outcome (list Question.t) * Database * World) (d : Database)
    (added : list Question.t) : Prop :=
  Questions (snd (fst res)) = Questions d ++ added
  /\ Modules (snd (fst res)) = Modules d
  /\ Coverages (snd (fst res)) = Coverages d
  /\ Forall (generatedFor moduleId) added
  /\ (forall l, fst (fst res) = Ok l -> l = saved ++ added).

Inductive BatchResponse :=
| BatchBadRequest
| BatchModuleNotFound
| BatchCompleted (results : list BatchResult).

(** [parseInt(count) || byDefault]. *)
Definition countOr (count : option Z) (byDefault : Z) : Z :=
  match count with
  | Some z => if (z =? 0)%Z then byDefault else z
  | None => byDefault
  end.

Section BatchGeneration.

Variable World : Type.
Variable generateQuestions :
  World -> string -> string -> Z -> Z -> Outcome Generated.t * World.
Variable newObjectId : World -> ObjectId * World.

(** The body of [for (const loId of loIds)]. *)
Definition generateForOutcome (mdl : ModuleDoc.t) (moduleId : ObjectId)
    (mcqCount structuredCount : option Z) (loId : string) (d : Database) (w : World)
  : BatchResult * Database * World :=
  match find (fun l => String.eqb (LearningOutcome.loId l) loId)
             (ModuleDoc.learningOutcomes mdl) with
  | None => (BatchOutcomeNotFound loId, d, w)
  | Some lo =>
      let (g, w1) :=
        generateQuestions w (LearningOutcome.description lo)
          (LearningOutcome.bloomLevel lo) (countOr mcqCount 2) (countOr structuredCount 1) in
      match g with
      | Throw => (BatchFailed loId, d, w1)
      | Ok generatedQuestions =>
          match saveMCQs newObjectId moduleId
                  (match Generated.mcqs generatedQuestions with
                   | Some l => l
                   | None => []
                   end) [] d w1 with
          | (Throw, d1, w2) => (BatchFailed loId, d1, w2)
          | (Ok savedMCQs, d1, w2) =>
              match saveStructured newObjectId moduleId
                      (match Generated.structured generatedQuestions with
                       | Some l => l
                       | None => []
                       end) [] d1 w2 with
              | (Throw, d2, w3) => (BatchFailed loId, d2, w3)
              | (Ok savedStructured, d2, w3) =>
                  (BatchGenerated loId (List.length savedMCQs)
                     (List.length savedStructured), d2, w3)
              end
          end
      end
  end.

Fixpoint generateBatchLoop (mdl : ModuleDoc.t) (moduleId : ObjectId)
    (mcqCount structuredCount : option Z) (loIds : list string)
    (results : list BatchResult) (d : Database) (w : World)
  : list BatchResult * Database * World :=
  match loIds with
  | [] => (results, d, w)
  | loId :: rest =>
      let '(r, d1, w1) :=
        generateForOutcome mdl moduleId mcqCount structuredCount loId d w in
      generateBatchLoop mdl moduleId mcqCount structuredCount rest (results ++ [r]) d1 w1
  end.

(** [POST /generate-batch]. *)
Definition generateBatchRoute (moduleId : option ObjectId) (loIds : option (list string))
    (mcqCount structuredCount : option Z) (d : Database) (w : World)
  : BatchResponse * Database * World :=
  match moduleId, loIds with
  | Some moduleId, Some (_ :: _) =>
      match findById moduleId (Modules d) with
      | None => (BatchModuleNotFound, d, w)
      | Some mdl =>
          let '(results, d', w') :=
            generateBatchLoop mdl moduleId mcqCount structuredCount
              (match loIds with Some l => l | None => [] end) [] d w in
          (BatchCompleted results, d', w')
      end
  | _, _ => (BatchBadRequest, d, w)
  end.

End BatchGeneration.

(* ================================================================== *)
(** * Uploaded files *)
(* ================================================================== *)

(** [allowedTypes] of the upload filter. *)
Definition allowedTypes : list string :=
  [ "application/pdf";
    "application/vnd.openxmlformats-officedocument.wordprocessingml.document";
    "application/msword";
    "text/plain" ].

(** [fileFilter]: [allowedTypes.includes(file.mimetype)]. *)
Definition fileFilter (mimetype : string) : bool :=
  existsb (String.eqb mimetype) allowedTypes.

Inductive Extracted :=
| ExtractedText (text : string)
| FailedToParse
| UnsupportedFileType (mimeType : string).

Section FileParser.

(** The three readers; [None] when the library or the file system throws. *)
Variable parsePDF parseDOCX parseTXT : string -> option string.

Definition parsed (r : option string) : Extracted :=
  match r with
  | Some text => ExtractedText text
  | None => FailedToParse
  end.

(** [extractTextFromFile(filePath, mimeType)]. *)
Definition extractTextFromFile (filePath mimeType : string) : Extracted :=
  if String.eqb mimeType "application/pdf" then parsed (parsePDF filePath)
  else if String.eqb mimeType
            "application/vnd.openxmlformats-officedocument.wordprocessingml.document"
          || String.eqb mimeType "application/msword"
  then parsed (parseDOCX filePath)
  else if String.eqb mimeType "text/plain" then parsed (parseTXT filePath)
  else UnsupportedFileType mimeType.

End FileParser.

(* ================================================================== *)
(** * The persisted module selection *)
(* ================================================================== *)

Definition STORAGE_KEY : string := "selectedModuleId".

(** [localStorage]: its items, or [None] when every access throws. *)
Definition LocalStorage : Type := option (StrMap.t string).

Definition getPersistedModuleId (localStorage : LocalStorage) : option string :=
  match localStorage with
  | Some items => StrMap.get STORAGE_KEY items
  | None => None
  end.

Definition setPersistedModuleId (moduleId : option string) (localStorage : LocalStorage)
  : LocalStorage :=
  match localStorage with
  | Some items =>
      if truthy moduleId
      then Some (StrMap.set STORAGE_KEY
                   (match moduleId with Some m => m | None => "" end) items)
      else Some (StrMap.remove STORAGE_KEY items)
  | None => None
  end.

Definition clearPersistedModuleId (localStorage : LocalStorage) : LocalStorage :=
  match localStorage with
  | Some items => Some (StrMap.remove STORAGE_KEY items)
  | None => None
  end.

(* ================================================================== *)
(** * Removal of a question and of a module *)
(* ================================================================== *)

Inductive DeleteResponse := DeleteNotFound | Deleted.

(** [Question.findById(id)]. *)
Definition findQuestionById (id : ObjectId) (qs : list Question.t) : option Question.t :=
  find (fun q => Nat.eqb (Question._id q) id) qs.

(** [Question.findByIdAndDelete(id)]: the first document of the identifier
    leaves the collection. *)
Fixpoint deleteQuestionById (id : ObjectId) (qs : list Question.t) : list Question.t :=
  match qs with
  | [] => []
  | q :: rest =>
      if Nat.eqb (Question._id q) id then rest else q :: deleteQuestionById id rest
  end.

(** [DELETE /api/questions/:id]. *)
Definition deleteQuestionRoute (id : ObjectId) (d : Database) : DeleteResponse * Database :=
  match findQuestionById id (Questions d) with
  | None => (DeleteNotFound, d)
  | Some _ =>
      (Deleted, mkDatabase (Modules d) (deleteQuestionById id (Questions d)) (Coverages d))
  end.

(** [Module.findByIdAndDelete(id)]. *)
Fixpoint deleteModuleById (id : ObjectId) (ms : list ModuleDoc.t) : list ModuleDoc.t :=
  match ms with
  | [] => []
  | m :: rest =>
      if Nat.eqb (ModuleDoc._id m) id then rest else m :: deleteModuleById id rest
  end.

(** [DELETE /api/modules/:id]. *)
Definition deleteModuleRoute (id : ObjectId) (d : Database) : DeleteResponse * Database :=
  match findById id (Modules d) with
  | None => (DeleteNotFound, d)
  | Some _ =>
      (Deleted, mkDatabase (deleteModuleById id (Modules d)) (Questions d) (Coverages d))
  end.

(* ================================================================== *)
(** * Upload of a question paper *)
(* ================================================================== *)

(** [req.file], as the upload middleware leaves it. *)
Module UploadedFile.
Record t := mk
  { path : string;
    mimetype : string }.
End UploadedFile.

(** The answers of [POST /upload]. *)
Inductive UploadResponse :=
| NoFileUploaded
| UploadModuleIdRequired
| UploadModuleNotFound
| UploadFailed
| UploadedQuestions (count : nat) (questions : list Question.t).

(** The upload directory, and the paths the handler reported that it could
    not delete. *)
Record Disk := mkDisk
  { files : list string;
    failedToDelete : list string }.

(** [fs.unlink(path)]: the file leaves the directory; a missing file
    throws. *)
Definition unlink (path : string) (fs : list string) : Outcome (list string) :=
  if existsb (String.eqb path) fs
  then Ok (filter (fun f => negb (String.eqb f path)) fs)
  else Throw.

(** The cleanup of the [catch] block: a failure of [unlink] is reported
    and goes no further. *)
Definition cleanUp (file : UploadedFile.t) (disk : Disk) : Disk :=
  match unlink (UploadedFile.path file) (files disk) with
  | Ok fs => mkDisk fs (failedToDelete disk)
  | Throw => mkDisk (files disk) (failedToDelete disk ++ [UploadedFile.path file])
  end.

Section UploadRoute.

Variable World : Type.
Variable chatCompletion : World -> string -> string -> ApiResult * World.
Variable dateNow : World -> Z * World.
Variable newObjectId : World -> ObjectId * World.
Variable parsePDF parseDOCX parseTXT : string -> option string.
(** [splitIntoQuestions] of the file parser. *)
Variable splitIntoQuestions : string -> list string.

(** The loop over [questionTexts]. *)
Fixpoint saveUploaded (moduleId : ObjectId) (questionTexts : list string)
    (savedQuestions : list Question.t) (d : Database) (w : World)
  : Outcome (list Question.t) * Database * World :=
  match questionTexts with
  | [] => (Ok savedQuestions, d, w)
  | questionText :: rest =>
      let (id, w') := newObjectId w in
      match saveQuestion (Some (Text.trim questionText))
              (fun text =>
                 Question.mk id moduleId text Structured Uploaded [] "" (JS.of_Z 0) "") d with
      | (Ok question, d') => saveUploaded moduleId rest (savedQuestions ++ [question]) d' w'
      | (Throw, d') => (Throw, d', w')
      end
  end.

(** [POST /upload], after the upload middleware. *)
Definition uploadRoute (file : option UploadedFile.t) (moduleId : option ObjectId)
    (s : Sys World) (disk : Disk) : UploadResponse * Sys World * Disk :=
  match file with
  | None => (NoFileUploaded, s, disk)
  | Some file =>
      match moduleId with
      | None =>
          match unlink (UploadedFile.path file) (files disk) with
          | Ok fs => (UploadModuleIdRequired, s, mkDisk fs (failedToDelete disk))
          | Throw => (UploadFailed, s, cleanUp file disk)
          end
      | Some moduleId =>
          match findById moduleId (Modules (db s)) with
          | None =>
              match unlink (UploadedFile.path file) (files disk) with
              | Ok fs => (UploadModuleNotFound, s, mkDisk fs (failedToDelete disk))
              | Throw => (UploadFailed, s, cleanUp file disk)
              end
          | Some _ =>
              match extractTextFromFile parsePDF parseDOCX parseTXT
                      (UploadedFile.path file) (UploadedFile.mimetype file) with
              | ExtractedText text =>
                  let questionTexts := splitIntoQuestions text in
                  match saveUploaded moduleId questionTexts [] (db s) (world s) with
                  | (Throw, d1, w1) =>
                      (UploadFailed, mkSys d1 (console s) w1, cleanUp file disk)
                  | (Ok savedQuestions, d1, w1) =>
                      match unlink (UploadedFile.path file) (files disk) with
                      | Throw =>
                          (UploadFailed, mkSys d1 (console s) w1, cleanUp file disk)
                      | Ok fs =>
                          (UploadedQuestions (List.length savedQuestions) savedQuestions,
                           runCoverageAnalysis chatCompletion dateNow moduleId None None
                             (mkSys d1 (console s) w1),
                           mkDisk fs (failedToDelete disk))
                      end
                  end
              | _ => (UploadFailed, s, cleanUp file disk)
              end
          end
      end
  end.

End UploadRoute.

(* ================================================================== *)
(** * The question generator page *)
(* ================================================================== *)

(** [handleLOSelect(loId)]: the new value of [selectedLOs]. *)
Definition handleLOSelect (loId : string) (selectedLOs : list string) : list string :=
  if existsb (String.eqb loId) selectedLOs
  then filter (fun id => negb (String.eqb id loId)) selectedLOs
  else selectedLOs ++ [loId].

(** [handleSelectUncovered()]: the new value of [selectedLOs];
    [coverageData] is [None] as long as no report was loaded. *)
Definition handleSelectUncovered (coverageData : option (list ReportEntry.t))
    (selectedLOs : list string) : list string :=
  match coverageData with
  | None => selectedLOs
  | Some results =>
      map ReportEntry.loId
        (filter (fun result =>
                   Status_eqb (ReportEntry.status result) NotCovered
                   || JS.ltb (ReportEntry.coveragePercentage result) (JS.of_Z 30))
                results)
  end.

Section QuestionGenerator.

Variable World : Type.
Variable generateQuestions :
  World -> string -> string -> Z -> Z -> Outcome Generated.t * World.
Variable newObjectId : World -> ObjectId * World.

(** The loop of [handleGenerate] over [selectedLOs]: one request to
    [POST /generate-questions] for each, a result with [success: true] for
    an answer 2xx. *)
Fixpoint generateEach (selectedModuleId : ObjectId) (mcqCount structuredCount : Z)
    (selectedLOs : list string) (results : list (string * bool))
    (d : Database) (w : World) : list (string * bool) * Database * World :=
  match selectedLOs with
  | [] => (results, d, w)
  | loId :: rest =>
      let '(response, d1, w1) :=
        generateQuestionsRoute generateQuestions newObjectId (Some selectedModuleId)
          (Some loId) mcqCount structuredCount d w in
      let success := match response with Success _ _ => true | _ => false end in
      generateEach selectedModuleId mcqCount structuredCount rest
        (results ++ [(loId, success)]) d1 w1
  end.

(** [results.filter(r => r.success).length]. *)
Definition successCount (results : list (string * bool)) : nat :=
  List.length (filter (fun r => snd r) results).

End QuestionGenerator.

(** Whether an element of the results of a batch reports a success. *)
Definition batchSuccess (r : BatchResult) : bool :=
  match r with
  | BatchGenerated _ _ _ => true
  | _ => false
  end.

(* ================================================================== *)
(** * Update of a question *)
(* ================================================================== *)

(** The body of [PUT /api/questions/:id]; a field is absent ([None]) or
    of its type, and a number of a JSON body is finite. *)
Module UpdateBody.
Record t := mk
  { questionText : option string;
    questionType : option string;
    options : option (list string);
    correctAnswer : option string;
    marks : option Q;
    sampleAnswer : option string }.
End UpdateBody.

Inductive UpdateResponse :=
| UpdateNotFound
| UpdateInvalidType
| UpdateTooFewOptions
| UpdateFailed
| Updated (question : Question.t).

(** The assignments to the fields of the document. *)
Definition setQuestionText (v : string) (q : Question.t) : Question.t :=
  Question.mk (Question._id q) (Question.moduleId q) v (Question.questionType q)
    (Question.source q) (Question.options q) (Question.correctAnswer q)
    (Question.marks q) (Question.sampleAnswer q).

Definition setQuestionType (v : QuestionType) (q : Question.t) : Question.t :=
  Question.mk (Question._id q) (Question.moduleId q) (Question.questionText q) v
    (Question.source q) (Question.options q) (Question.correctAnswer q)
    (Question.marks q) (Question.sampleAnswer q).

Definition setOptions (v : list string) (q : Question.t) : Question.t :=
  Question.mk (Question._id q) (Question.moduleId q) (Question.questionText q)
    (Question.questionType q) (Question.source q) v (Question.correctAnswer q)
    (Question.marks q) (Question.sampleAnswer q).

Definition setCorrectAnswer (v : string) (q : Question.t) : Question.t :=
  Question.mk (Question._id q) (Question.moduleId q) (Question.questionText q)
    (Question.questionType q) (Question.source q) (Question.options q) v
    (Question.marks q) (Question.sampleAnswer q).

Definition setMarks (v : JS.jsnum) (q : Question.t) : Question.t :=
  Question.mk (Question._id q) (Question.moduleId q) (Question.questionText q)
    (Question.questionType q) (Question.source q) (Question.options q)
    (Question.correctAnswer q) v (Question.sampleAnswer q).

Definition setSampleAnswer (v : string) (q : Question.t) : Question.t :=
  Question.mk (Question._id q) (Question.moduleId q) (Question.questionText q)
    (Question.questionType q) (Question.source q) (Question.options q)
    (Question.correctAnswer q) (Question.marks q) v.

(** The fields that the assignments of the answer, the marks and the
    sample answer leave alone. *)
Definition sameHead (a b : Question.t) : Prop :=
  Question._id a = Question._id b
  /\ Question.moduleId a = Question.moduleId b
  /\ Question.source a = Question.source b
  /\ Question.questionText a = Question.questionText b
  /\ Question.questionType a = Question.questionType b
  /\ Question.options a = Question.options b.

(** [if (field !== undefined) question.field = ...]. *)
Definition assign {A} (field : option A) (set : A -> Question.t -> Question.t)
    (q : Question.t) : Question.t :=
  match field with
  | Some v => set v q
  | None => q
  end.

(** [question.save()] on a stored document: the document of the same
    identifier is replaced. *)
Fixpoint replaceQuestion (question : Question.t) (qs : list Question.t)
  : list Question.t :=
  match qs with
  | [] => []
  | q :: rest =>
      if Nat.eqb (Question._id q) (Question._id question)
      then question :: rest
      else q :: replaceQuestion question rest
  end.

(** [PUT /api/questions/:id].  The two filters of the options,
    [opt && opt.trim()] and [opt && opt.trim().length > 0], keep the same
    strings. *)
Definition updateQuestionRoute (id : ObjectId) (body : UpdateBody.t) (d : Database)
  : UpdateResponse * Database :=
  match findQuestionById id (Questions d) with
  | None => (UpdateNotFound, d)
  | Some question =>
      let question1 :=
        assign (UpdateBody.questionText body)
               (fun v => setQuestionText (Text.trim v)) question in
      let typed :=
        if truthy (UpdateBody.questionType body) then
          match questionTypeOf (match UpdateBody.questionType body with
                                | Some v => v
                                | None => ""
                                end) with
          | Some questionType => Some (setQuestionType questionType question1)
          | None => None
          end
        else Some question1 in
      match typed with
      | None => (UpdateInvalidType, d)
      | Some question2 =>
          let checked :=
            match UpdateBody.options body with
            | Some options =>
                if match Question.questionType question2 with
                   | MCQ => (List.length (filter nonBlank options) <? 2)%nat
                   | Structured => false
                   end
                then None
                else Some (setOptions (filter nonBlank options) question2)
            | None => Some question2
            end in
          match checked with
          | None => (UpdateTooFewOptions, d)
          | Some question3 =>
              let question4 :=
                assign (UpdateBody.correctAnswer body)
                       (fun v => setCorrectAnswer (Text.trim v)) question3 in
              let question5 :=
                assign (UpdateBody.marks body) (fun v => setMarks (JS.Fin v)) question4 in
              let question6 :=
                assign (UpdateBody.sampleAnswer body)
                       (fun v => setSampleAnswer (Text.trim v)) question5 in
              if truthy (Some (Question.questionText question6))
              then (Updated question6,
                    mkDatabase (Modules d) (replaceQuestion question6 (Questions d))
                               (Coverages d))
              else (UpdateFailed, d)
          end
      end
  end.

(* ================================================================== *)
(** * The analysis started from the questions page *)
(* ================================================================== *)

(** [analysisTag.trim() || `Analysis-${new Date().toISOString().slice(0, 16)}`];
    [isoNow] is the text of the date. *)
Definition analysisTagFor (analysisTag isoNow : string) : string :=
  let tag := Text.trim analysisTag in
  if String.eqb tag "" then ("Analysis-" ++ substring 0 16 isoNow)%string else tag.

Section QuestionsPage.

Variable World : Type.
Variable chatCompletion : World -> string -> string -> ApiResult * World.
Variable dateNow : World -> Z * World.

(** [handleRunAnalysis]: the answer of the route, [None] when the page
    shows an error without any request. *)
Definition handleRunAnalysis (selectedModuleId : option ObjectId)
    (selectedQuestions : list ObjectId) (analysisTag isoNow : string) (s : Sys World)
  : option AnalyzeResponse * Sys World :=
  match selectedModuleId with
  | None => (None, s)
  | Some moduleId =>
      if Nat.eqb (List.length selectedQuestions) 0 then (None, s)
      else
        let (response, s') :=
          analyzeRoute chatCompletion dateNow moduleId (Some selectedQuestions)
            (Some (analysisTagFor analysisTag isoNow)) s in
        (Some response, s')
  end.

End QuestionsPage.

(* ================================================================== *)
(** * The authentication token *)
(* ================================================================== *)

Definition TOKEN_KEY : string := "loc_analyzer_token".

(** The items of a [localStorage] that answers. *)
Definition setAuthToken (token : string) (items : StrMap.t string) : StrMap.t string :=
  StrMap.set TOKEN_KEY token items.

Definition getAuthToken (items : StrMap.t string) : option string :=
  StrMap.get TOKEN_KEY items.

Definition removeAuthToken (items : StrMap.t string) : StrMap.t string :=
  StrMap.remove TOKEN_KEY items.

(** [getAuthHeader]: the headers, by name. *)
Definition getAuthHeader (items : StrMap.t string) : StrMap.t string :=
  if truthy (getAuthToken items)
  then [("Authorization",
         ("Bearer " ++ match getAuthToken items with Some t => t | None => "" end)%string)]
  else [].

(* ================================================================== *)
(** * Requests of the scenario *)
(* ================================================================== *)

Module Requests.

Local Open Scope nat_scope.

(** An MCQ for the module of the scenario, with a blank option among
    three and white space around its text and its answer. *)
Definition mcq : QuestionBody.t :=
  QuestionBody.mk (Some 1) (Some "  What is a loop?  ") (Some "MCQ")
    (Some ["for"; "  "; "while"]) (Some " for ") None None.

(** Three options of which one only is not blank. *)
Definition blankOptions : QuestionBody.t :=
  QuestionBody.mk (Some 1) (Some "What is a loop?") (Some "MCQ")
    (Some ["for"; "  "; ""]) (Some "for") None None.

(** A structured question whose text is made of white space. *)
Definition blankText : QuestionBody.t :=
  QuestionBody.mk (Some 1) (Some "   ") (Some "Structured") None None None
    (Some "an answer").

Definition essay : GeneratedStructured.t :=
  GeneratedStructured.mk (Some "Explain a loop.") None (Some "A loop repeats.").

(** A generator that fails on the level Create and gives one MCQ and one
    structured question on every other level. *)
Definition generator (w : Scenario.World) (_ bloomLevel : string) (_ _ : Z)
  : Outcome Generated.t * Scenario.World :=
  if String.eqb bloomLevel "Create" then (Throw, w)
  else (Ok (Generated.mk (Some [Scenario.twoOptions]) (Some [essay])), w).

(** A storage that holds another item. *)
Definition storage : LocalStorage := Some [("theme", "dark")].

(** An uploaded text file, beside an older file of the directory. *)
Definition paper : UploadedFile.t := UploadedFile.mk "uploads/paper.txt" "text/plain".

Definition disk : Disk := mkDisk ["uploads/old.pdf"; "uploads/paper.txt"] [].

(** An update of the text of a question, and one that leaves an MCQ a
    single option. *)
Definition newText : UpdateBody.t :=
  UpdateBody.mk (Some "  Q2, reworded  ") None None None None None.

Definition oneOption : UpdateBody.t :=
  UpdateBody.mk None (Some "MCQ") (Some ["for"; " "]) None None None.

(** A reader that reads the uploaded file only, and a splitter that finds
    two questions in every text. *)
Definition reader (filePath : string) : option string :=
  if String.eqb filePath "uploads/paper.txt"
  then Some "1. What is a loop? 2. What is a stack?"
  else None.

Definition splitter (_ : string) : list string :=
  ["  What is a loop?  "; "What is a stack?"].

End Requests.

(* ================================================================== *)
(** * Properties of the number model *)
(* ================================================================== *)

Module JSFacts.

Local Open Scope Q_scope.

Lemma compare_of_Z (a b : Z) :
  JS.compare (JS.of_Z a) (JS.of_Z b) = Some (a ?= b)%Z.
Proof.
  unfold JS.of_Z, JS.compare, Qcompare; simpl.
  now rewrite !Z.mul_1_r.
Qed.


Lemma min_of_Z (a b : Z) : JS.min (JS.of_Z a) (JS.of_Z b) = JS.of_Z (Z.min a b).
Proof.
  unfold JS.min. rewrite compare_of_Z. unfold Z.min.
  now destruct (a ?= b)%Z.
Qed.

Lemma gtb_Fin (a b : Q) : JS.gtb (JS.Fin a) (JS.Fin b) = true <-> b < a.
Proof.
  unfold JS.gtb, JS.ltb; simpl. rewrite Qlt_alt.
  destruct (b ?= a); split; congruence.
Qed.

(** [Math.max(0, Math.min(1, x))] on a finite number. *)
Lemma clamp_Fin (q : Q) :
  exists q', JS.max (JS.of_Z 0) (JS.min (JS.of_Z 1) (JS.Fin q)) = JS.Fin q'
    /\ 0 <= q' /\ q' <= 1
    /\ (q < 0 -> q' = 0) /\ (1 < q -> q' = 1) /\ (0 <= q <= 1 -> q' == q).
Proof.
  unfold JS.min, JS.of_Z, JS.compare.
  change (inject_Z 1) with 1. change (inject_Z 0) with 0.
  destruct (Qcompare_spec 1 q) as [E1|L1|G1].
  - exists 1. repeat split; intros; try lra; try reflexivity.
  - exists 1. repeat split; intros; try lra; try reflexivity.
  - unfold JS.max, JS.compare.
    destruct (Qcompare_spec 0 q) as [E0|L0|G0].
    + exists 0. repeat split; intros; try lra; try reflexivity.
    + exists q. repeat split; intros; try lra; try reflexivity.
    + exists 0. repeat split; intros; try lra; try reflexivity.
Qed.

(** ** Rounding to binary64 keeps the sign *)

Lemma pow2_pos (e : Z) : 0 < JS.pow2 e.
Proof.
  unfold JS.pow2. destruct (Z.leb_spec 0 e) as [H|H].
  - change 0 with (inject_Z 0). rewrite <- Zlt_Qlt. apply Z.pow_pos_nonneg; lia.
  - apply Qlt_shift_div_l.
    + change 0 with (inject_Z 0). rewrite <- Zlt_Qlt. apply Z.pow_pos_nonneg; lia.
    + lra.
Qed.

Lemma rne_nonneg (q : Q) : 0 <= q -> (0 <= JS.rne q)%Z.
Proof.
  intros H. unfold JS.rne.
  assert (0 <= Qfloor q)%Z as Hf.
  { rewrite <- (Qfloor_Z 0). now apply Qfloor_resp_le. }
  destruct (_ ?= _); [destruct (Z.even _)| | ]; lia.
Qed.

Lemma round64_nonneg (q : Q) : 0 <= q -> nonneg (JS.round64 q).
Proof.
  intros H. unfold JS.round64.
  destruct (Qcompare_spec q 0) as [E|L|G].
  - right. exists 0. split; [reflexivity|lra].
  - lra.
  - set (a := Qabs q).
    set (ulp := JS.pow2 (Z.max (JS.ilog2 a) (-1022) - 52)).
    pose proof (pow2_pos (Z.max (JS.ilog2 a) (-1022) - 52)) as Hu. fold ulp in Hu.
    assert (0 <= Qred (inject_Z (JS.rne (a / ulp)) * ulp)) as Hr.
    { rewrite Qred_correct. apply Qmult_le_0_compat; [ |lra].
      change 0 with (inject_Z 0). rewrite <- Zle_Qle. apply rne_nonneg.
      apply Qle_shift_div_l; [exact Hu| ]. rewrite Qmult_0_l. apply Qabs_nonneg. }
    destruct (Qle_bool _ _); [now left| ].
    right. eexists. split; [reflexivity|exact Hr].
Qed.

Lemma fl_nonneg (x : JS.jsnum) : nonneg x -> nonneg (JS.fl x).
Proof.
  intros [->|(q & -> & H)]; [now left| ]. now apply round64_nonneg.
Qed.

Lemma add64_nonneg (x y : JS.jsnum) : nonneg x -> nonneg y -> nonneg (JS.add64 x y).
Proof.
  intros Hx Hy. apply fl_nonneg.
  destruct Hx as [->|(a & -> & Ha)], Hy as [->|(b & -> & Hb)]; simpl;
    try (now left).
  right. exists (a + b). split; [reflexivity|lra].
Qed.

Lemma div64_positive (x : JS.jsnum) (n : nat) :
  nonneg x -> (0 < n)%nat -> nonneg (JS.div64 x (JS.of_nat n)).
Proof.
  intros Hx Hn. apply fl_nonneg.
  assert (0 < inject_Z (Z.of_nat n)) as Hq.
  { change 0 with (inject_Z 0). rewrite <- Zlt_Qlt. lia. }
  unfold JS.of_nat, JS.of_Z.
  destruct Hx as [->|(a & -> & Ha)]; simpl.
  - destruct (Qcompare_spec (inject_Z (Z.of_nat n)) 0) as [E|L|G]; try lra.
    now left.
  - destruct (Qcompare_spec (inject_Z (Z.of_nat n)) 0) as [E|L|G]; try lra.
    right. eexists. split; [reflexivity| ].
    apply Qle_shift_div_l; [exact Hq|lra].
Qed.

Lemma mul64_100 (x : JS.jsnum) : nonneg x -> nonneg (JS.mul64 x (JS.of_Z 100)).
Proof.
  intros Hx. apply fl_nonneg.
  destruct Hx as [->|(a & -> & Ha)].
  - now left.
  - right. eexists. split; [reflexivity| ].
    change (inject_Z 100) with 100. apply Qmult_le_0_compat; lra.
Qed.

(** [Math.min(100, Math.round(x))] on a number that is not negative. *)
Lemma min_100_round (x : JS.jsnum) :
  nonneg x ->
  exists z : Z, JS.min (JS.of_Z 100) (JS.round x) = JS.of_Z z /\ (0 <= z <= 100)%Z.
Proof.
  intros [->|(a & -> & Ha)].
  - exists 100%Z. split; [reflexivity|lia].
  - unfold JS.round. rewrite min_of_Z.
    assert (0 <= Qfloor (a + (1 # 2)))%Z.
    { rewrite <- (Qfloor_Z 0). apply Qfloor_resp_le. change (inject_Z 0) with 0. lra. }
    eexists. split; [reflexivity|lia].
Qed.

(** ** The literal [0.3] *)

Lemma pow2_Qpower (e : Z) : JS.pow2 e == 2 ^ e.
Proof.
  unfold JS.pow2. destruct (Z.leb_spec 0 e) as [H|H].
  - now rewrite Zpower_Qpower.
  - replace e with (- - e)%Z at 2 by lia.
    rewrite Qpower_opp, Zpower_Qpower by lia.
    unfold Qdiv. now rewrite Qmult_1_l.
Qed.

Lemma pow2_add (a b : Z) : JS.pow2 (a + b) == JS.pow2 a * JS.pow2 b.
Proof.
  rewrite !pow2_Qpower. apply Qpower_plus. discriminate.
Qed.

Lemma pow2_nonneg_exp (e : Z) : (0 <= e)%Z -> JS.pow2 e = inject_Z (2 ^ e).
Proof.
  intros H. unfold JS.pow2. destruct (Z.leb_spec 0 e); [reflexivity|lia].
Qed.

Lemma pow2_le (a b : Z) : (a <= b)%Z -> JS.pow2 a <= JS.pow2 b.
Proof.
  intros H. replace b with (a + (b - a))%Z by lia. rewrite pow2_add.
  rewrite (pow2_nonneg_exp (e := b - a)) by lia.
  assert (1 <= inject_Z (2 ^ (b - a))).
  { change 1 with (inject_Z 1). rewrite <- Zle_Qle.
    assert (0 < 2 ^ (b - a))%Z by (apply Z.pow_pos_nonneg; lia). lia. }
  pose proof (pow2_pos a). nra.
Qed.

(** The binade of a positive rational ends above it. *)
Lemma ilog2_upper (a : Q) : 0 < a -> a < JS.pow2 (JS.ilog2 a + 1).
Proof.
  intros Ha. unfold JS.ilog2. cbv zeta.
  set (e := (Z.log2 (Qnum a) - Z.log2 (Z.pos (Qden a)))%Z).
  destruct (Qle_bool (JS.pow2 e) a) eqn:B.
  - assert (0 < Qnum a)%Z as Hn.
    { destruct a as [n d]. unfold Qlt in Ha. simpl in *. lia. }
    destruct (Z.log2_spec (Qnum a) Hn) as [_ Hu].
    destruct (Z.log2_spec (Z.pos (Qden a)) eq_refl) as [Hl _].
    set (ln := Z.log2 (Qnum a)) in *. set (ld := Z.log2 (Z.pos (Qden a))) in *.
    assert (0 <= ln)%Z by apply Z.log2_nonneg.
    assert (0 <= ld)%Z by apply Z.log2_nonneg.
    assert (JS.pow2 (e + 1) * JS.pow2 ld == JS.pow2 (Z.succ ln)) as E.
    { rewrite <- pow2_add. unfold e. now replace (ln - ld + 1 + ld)%Z with (Z.succ ln) by lia. }
    rewrite (@pow2_nonneg_exp ld), (@pow2_nonneg_exp (Z.succ ln)) in E by lia.
    assert (inject_Z (Qnum a) < inject_Z (2 ^ Z.succ ln)) as H1 by now rewrite <- Zlt_Qlt.
    assert (inject_Z (2 ^ ld) <= inject_Z (Z.pos (Qden a))) as H2 by now rewrite <- Zle_Qle.
    assert (a * inject_Z (Z.pos (Qden a)) == inject_Z (Qnum a)) as H3.
    { destruct a as [n d]. unfold Qeq. simpl. rewrite Pos.mul_1_r. ring. }
    pose proof (pow2_pos (e + 1)) as Hp.
    assert (0 < inject_Z (2 ^ ld)) as Hd.
    { change 0 with (inject_Z 0). rewrite <- Zlt_Qlt. apply Z.pow_pos_nonneg; lia. }
    apply Qnot_le_lt. intros Hle.
    assert (JS.pow2 (e + 1) * inject_Z (2 ^ ld) <= a * inject_Z (Z.pos (Qden a))) as H4.
    { apply Qle_trans with (a * inject_Z (2 ^ ld)).
      - apply Qmult_le_compat_r; [exact Hle|now apply Qlt_le_weak].
      - rewrite !(Qmult_comm a). apply Qmult_le_compat_r; [exact H2|now apply Qlt_le_weak]. }
    apply (Qle_not_lt _ _ H4). rewrite H3, E. exact H1.
  - replace (e - 1 + 1)%Z with e by lia.
    apply Qnot_le_lt. intros Hle. apply Qle_bool_iff in Hle. congruence.
Qed.

Lemma rne_le (x : Q) (n : Z) : x <= inject_Z n -> (JS.rne x <= n)%Z.
Proof.
  intros H. unfold JS.rne. cbv zeta.
  assert (Qfloor x <= n)%Z as Hf.
  { rewrite <- (Qfloor_Z n). now apply Qfloor_resp_le. }
  pose proof (Qfloor_le x) as Hx.
  assert (Qfloor x = n -> x - inject_Z (Qfloor x) < 1 # 2) as Hn.
  { intros E. rewrite E in *. lra. }
  destruct (Qcompare_spec (x - inject_Z (Qfloor x)) (1 # 2)) as [E|L|G].
  - destruct (Z.even (Qfloor x)); [exact Hf| ].
    destruct (Z.eq_dec (Qfloor x) n) as [En|Nn]; [ |lia].
    specialize (Hn En). lra.
  - exact Hf.
  - destruct (Z.eq_dec (Qfloor x) n) as [En|Nn]; [ |lia].
    specialize (Hn En). lra.
Qed.

(** A positive binary64 value is a multiple of the spacing of a binade,
    with a factor of at most [2 ^ 53]. *)
Lemma round64_grid (q r : Q) :
  0 < q -> JS.round64 q = JS.Fin r ->
  exists m e, (0 <= m <= 2 ^ 53)%Z /\ r == inject_Z m * JS.pow2 (e - 52).
Proof.
  intros Hq. unfold JS.round64.
  destruct (Qcompare_spec q 0) as [E|L|G]; try lra.
  assert (0 < Qabs q) as Ha by (rewrite Qabs_pos; lra).
  set (a := Qabs q) in *.
  set (e := Z.max (JS.ilog2 a) (-1022)).
  set (ulp := JS.pow2 (e - 52)).
  pose proof (pow2_pos (e - 52)) as Hu. fold ulp in Hu.
  set (r0 := Qred (inject_Z (JS.rne (a / ulp)) * ulp)).
  assert (r0 == inject_Z (JS.rne (a / ulp)) * ulp) as Hr0 by apply Qred_correct.
  clearbody r0.
  destruct (Qle_bool _ r0); [discriminate| ].
  intros [= <-]. exists (JS.rne (a / ulp)), e. split; [ |exact Hr0].
  split.
  - apply rne_nonneg. apply Qle_shift_div_l; [exact Hu|lra].
  - apply rne_le. apply Qle_shift_div_r; [exact Hu| ].
    assert (inject_Z (2 ^ 53) * ulp == JS.pow2 (e + 1)) as ->.
    { unfold ulp. rewrite <- (@pow2_nonneg_exp 53) by lia. rewrite <- pow2_add.
      now replace (53 + (e - 52))%Z with (e + 1)%Z by lia. }
    apply Qlt_le_weak. eapply Qlt_le_trans; [apply (ilog2_upper Ha)| ].
    apply pow2_le. unfold e. lia.
Qed.

(** No such multiple lies above the binary64 value of the literal [0.3]
    without lying above 3/10. *)
Lemma grid_gap (m e : Z) :
  (0 <= m <= 2 ^ 53)%Z ->
  (5404319552844595 # 18014398509481984) < inject_Z m * JS.pow2 (e - 52) ->
  (3 # 10) < inject_Z m * JS.pow2 (e - 52).
Proof.
  intros Hm H.
  destruct (Z.le_gt_cases (-2) e) as [Hge|Hlt].
  - assert (JS.pow2 (e - 52) == inject_Z (2 ^ (e + 2)) * (1 # 18014398509481984)) as E.
    { replace (e - 52)%Z with ((e + 2) + -54)%Z by lia. rewrite pow2_add.
      rewrite (@pow2_nonneg_exp (e + 2)) by lia. reflexivity. }
    rewrite E in *. rewrite Qmult_assoc, <- inject_Z_mult in *.
    set (n := (m * 2 ^ (e + 2))%Z) in *.
    revert H. unfold Qlt. simpl. lia.
  - exfalso. apply (Qlt_not_le _ _ H).
    apply Qle_trans with (JS.pow2 (e + 1)).
    + replace (e + 1)%Z with (53 + (e - 52))%Z by lia. rewrite pow2_add.
      apply Qmult_le_compat_r; [ |apply Qlt_le_weak, pow2_pos].
      rewrite (@pow2_nonneg_exp 53) by lia. rewrite <- Zle_Qle. lia.
    + apply Qle_trans with (JS.pow2 (-2)); [apply pow2_le; lia| ].
      vm_compute. discriminate.
Qed.

(** The comparison of a binary64 value with the literal [0.3], which is
    the binary64 value nearest to 3/10, is its comparison with 3/10. *)
Lemma no_score_between (q : Q) :
  JS.gtb (JS.round64 q) (JS.round64 (3 # 10))
  = JS.gtb (JS.round64 q) threshold.
Proof.
  change (JS.round64 (3 # 10))
    with (JS.Fin (5404319552844595 # 18014398509481984)).
  unfold threshold.
  destruct (Qlt_le_dec 0 q) as [Hq|Hq].
  - destruct (JS.round64 q) as [ | | |r] eqn:R; try reflexivity.
    destruct (round64_grid Hq R) as (m & e & Hm & Hr).
    apply Bool.eq_iff_eq_true. rewrite !gtb_Fin, Hr. split.
    + now apply grid_gap.
    + intros H. eapply Qlt_trans; [ |exact H]. reflexivity.
  - unfold JS.round64.
    destruct (Qcompare_spec q 0) as [E|L|G]; try lra; [reflexivity| ].
    set (r := Qred _).
    assert (0 <= r) as Hr.
    { unfold r. rewrite Qred_correct.
      apply Qmult_le_0_compat; [ |apply Qlt_le_weak, pow2_pos].
      change 0 with (inject_Z 0). rewrite <- Zle_Qle. apply rne_nonneg.
      apply Qle_shift_div_l; [apply pow2_pos| ]. rewrite Qmult_0_l. apply Qabs_nonneg. }
    destruct (Qle_bool _ _); [reflexivity| ].
    apply Bool.eq_iff_eq_true. rewrite !gtb_Fin. split; intros H; exfalso.
    + assert (0 < (5404319552844595 # 18014398509481984)) by reflexivity. lra.
    + lra.
Qed.

End JSFacts.

(* ================================================================== *)
(** * The similarity service *)
(* ================================================================== *)

Section SimilarityFacts.

Variable World : Type.
Variable chatCompletion : World -> string -> string -> ApiResult * World.

Local Open Scope Q_scope.

Lemma clamped_in_range (score : JS.jsnum) : JS.in_range 0 1 (clamped score).
Proof.
  destruct score as [ | | |q]; unfold clamped; simpl.
  - exists 0. repeat split; lra.
  - exists 1. repeat split; lra.
  - exists 0. repeat split; lra.
  - destruct (JSFacts.clamp_Fin q) as (q' & E & H0 & H1 & _).
    exists q'. now rewrite E.
Qed.

Lemma calculateSimilarity_completion w eloText questionText content w' :
  chatCompletion w eloText questionText = (Completion (Some content), w') ->
  calculateSimilarity chatCompletion w eloText questionText
  = (Ok (clamped (Text.parseFloat (Text.trim content))), w').
Proof.
  intros E. unfold calculateSimilarity, clamped. rewrite E.
  now destruct (JS.isNaN _).
Qed.

Lemma calculateSimilarity_range w eloText questionText s w' :
  calculateSimilarity chatCompletion w eloText questionText = (Ok s, w') ->
  JS.in_range 0 1 s.
Proof.
  unfold calculateSimilarity.
  destruct (chatCompletion w eloText questionText) as [[ | [content| ]] w1];
    try discriminate.
  intros E.
  assert (s = clamped (Text.parseFloat (Text.trim content))) as ->.
  { unfold clamped. destruct (JS.isNaN _); congruence. }
  apply clamped_in_range.
Qed.

(** What [parseFloat] delivers, when it is finite, is a binary64 value. *)
Lemma parseFloat_binary64 input :
  match Text.parseFloat input with
  | JS.Fin q => exists y, JS.Fin q = JS.round64 y
  | _ => True
  end.
Proof.
  unfold Text.parseFloat. cbv zeta.
  destruct (match Text.skip_spaces (list_ascii_of_string input) with
            | [] => _
            | c :: t => _
            end) as [neg s].
  destruct (Text.starts_with _ s); [now destruct neg| ].
  destruct (Text.digits 0 0 s) as [[ip ni] s1].
  destruct (match s1 with [] => _ | c :: t => _ end) as [[fp nf] s2].
  destruct (ni + nf)%nat; [exact I| ].
  destruct (JS.round64 _) eqn:R; try exact I. eexists. symmetry. exact R.
Qed.

(** So is every score, and its comparison with the literal [0.3] is its
    comparison with [threshold]. *)
Lemma calculateSimilarity_binary64 w eloText questionText s w' :
  calculateSimilarity chatCompletion w eloText questionText = (Ok s, w') ->
  exists y, s = JS.round64 y.
Proof.
  unfold calculateSimilarity.
  destruct (chatCompletion w eloText questionText) as [[ | [content| ]] w1];
    try discriminate.
  pose proof (parseFloat_binary64 (Text.trim content)) as H.
  destruct (Text.parseFloat (Text.trim content)) as [ | | |q]; cbn [JS.isNaN].
  - intros [= <- _]. now exists 0.
  - intros [= <- _]. now exists 1.
  - intros [= <- _]. now exists 0.
  - intros [= <- _]. unfold JS.min, JS.max, JS.compare, JS.of_Z.
    destruct (inject_Z 1 ?= q).
    + now exists 1.
    + now exists 1.
    + destruct (inject_Z 0 ?= q); [now exists 0|exact H|now exists 0].
Qed.

Lemma score_above_literal w eloText questionText s w' :
  calculateSimilarity chatCompletion w eloText questionText = (Ok s, w') ->
  JS.gtb s (JS.round64 (3 # 10)) = JS.gtb s threshold.
Proof.
  intros H. destruct (calculateSimilarity_binary64 _ _ _ H) as [y ->].
  apply JSFacts.no_score_between.
Qed.

(** C8.  A completion whose text does not parse to a number makes
    [calculateSimilarity] return 0, not the malformed value; a parsed
    value below 0 or above 1 (the infinities included) is brought back to
    the nearest bound and a value of [0,1] is returned as it is; hence every
    call that returns at all returns a score in [0,1]. *)
Theorem calculateSimilarity_defaults_and_clamps :
  forall w eloText questionText,
    (forall s w',
        calculateSimilarity chatCompletion w eloText questionText = (Ok s, w') ->
        JS.in_range 0 1 s)
    /\
    (forall content w',
        chatCompletion w eloText questionText = (Completion (Some content), w') ->
        let score := Text.parseFloat (Text.trim content) in
        exists s,
          calculateSimilarity chatCompletion w eloText questionText = (Ok s, w')
          /\ (score = JS.NaN -> s = JS.of_Z 0)
          /\ (score = JS.NegInf -> s = JS.of_Z 0)
          /\ (score = JS.PosInf -> s = JS.of_Z 1)
          /\ (forall q, score = JS.Fin q ->
                (q < 0 -> s = JS.of_Z 0)
                /\ (1 < q -> s = JS.of_Z 1)
                /\ (0 <= q <= 1 -> exists q', s = JS.Fin q' /\ q' == q))).
Proof.
  intros w eloText questionText. split.
  - intros s w'. apply calculateSimilarity_range.
  - intros content w' E score.
    exists (clamped score). split.
    + now apply calculateSimilarity_completion.
    + split; [intros E'; now rewrite E' | ].
      split; [intros E'; now rewrite E' | ].
      split; [intros E'; now rewrite E' | ].
      intros q E'. rewrite E'. unfold clamped. simpl JS.isNaN. cbv iota.
      destruct (JSFacts.clamp_Fin q) as (q' & Eq' & _ & _ & Hlo & Hhi & Hin).
      rewrite Eq'. repeat split.
      * intros Hq. now rewrite (Hlo Hq).
      * intros Hq. now rewrite (Hhi Hq).
      * intros Hq. exists q'. split; [reflexivity | now apply Hin].
Qed.

End SimilarityFacts.

(* ================================================================== *)
(** * The coverage engine *)
(* ================================================================== *)

Section EngineFacts.

Variable World : Type.
Variable chatCompletion : World -> string -> string -> ApiResult * World.
Variable dateNow : World -> Z * World.

Lemma similarityAnswers_questions lo questions w :
  map fst (fst (similarityAnswers chatCompletion lo questions w)) = questions.
Proof.
  revert w. induction questions as [|q rest IH]; intros w; simpl; auto.
  destruct (calculateSimilarity _ _ _) as [r w1].
  specialize (IH w1). destruct (similarityAnswers chatCompletion lo rest w1) as [tr w2].
  simpl in *. now rewrite IH.
Qed.

Lemma analysisTrace_outcomes questions los w :
  map (fun e => fst (fst e)) (fst (analysisTrace chatCompletion dateNow questions los w)) = los.
Proof.
  revert w. induction los as [|lo rest IH]; intros w; simpl; auto.
  destruct (similarityAnswers chatCompletion lo questions w) as [tr w1].
  destruct (dateNow w1) as [now w2].
  specialize (IH w2). destruct (analysisTrace chatCompletion dateNow questions rest w2) as [trs w3].
  simpl in *. now rewrite IH.
Qed.

(** ** The comparison loop as a filter over the answers *)

Lemma compareQuestions_trace lo questions :
  forall acc w,
    compareQuestions chatCompletion lo questions acc w =
    (let (tr, w') := similarityAnswers chatCompletion lo questions w in
     (mkAcc (questionsCovered acc ++ coveredBy tr)
            (fold_left JS.add64 (scores (coveredBy tr)) (totalSimilarity acc))
            (questionCount acc + List.length (coveredBy tr))
            (logged acc ++ errorsOf tr), w')).
Proof.
  induction questions as [|q rest IH]; intros acc w; simpl.
  - destruct acc; simpl. now rewrite !app_nil_r, Nat.add_0_r.
  - unfold compareQuestion.
    destruct (calculateSimilarity _ _ _) as [r w1].
    destruct (similarityAnswers chatCompletion lo rest w1) as [tr w2] eqn:Etr.
    unfold coveredBy, errorsOf; simpl. unfold entryOf at 1 3 5, errorOf at 1; simpl.
    destruct r as [s| ]; [destruct (JS.gtb s threshold)| ];
      rewrite IH, Etr; simpl; f_equal; f_equal;
      rewrite <- ?app_assoc; simpl; auto.
Qed.

(** ** The document built for one outcome *)

Lemma coveragePercentage_formula (covering : list Covered.t) (lg : list LogLine) :
  coveragePercentageOf
    (mkAcc covering (fold_left JS.add64 (scores covering) (JS.of_Z 0))
           (0 + List.length covering) lg)
  = percentage64 (scores covering).
Proof.
  unfold coveragePercentageOf, percentage64, mean64, sum64, scores; simpl.
  rewrite length_map.
  destruct covering as [|c rest]; reflexivity.
Qed.

Lemma analyzeLO_trace moduleId questionIds analysisTag questions lo (s : Sys World) :
  analyzeLO chatCompletion dateNow moduleId questionIds analysisTag questions lo s =
  (let (tr, w1) := similarityAnswers chatCompletion lo questions (world s) in
   let (now, w2) := dateNow w1 in
   mkSys (mkDatabase (Modules (db s)) (Questions (db s))
            (Coverages (db s)
             ++ [recordOf moduleId questionIds analysisTag questions (lo, tr, now)]))
         (console s ++ errorsOf tr) w2).
Proof.
  unfold analyzeLO. rewrite compareQuestions_trace.
  destruct (similarityAnswers chatCompletion lo questions (world s)) as [tr w1].
  destruct (dateNow w1) as [now w2]. cbn [questionsCovered logged app].
  unfold recordOf; cbn [fst snd].
  now rewrite coveragePercentage_formula.
Qed.

Lemma fold_analyzeLO moduleId questionIds analysisTag questions los :
  forall s : Sys World,
    fold_left
      (fun st lo =>
         analyzeLO chatCompletion dateNow moduleId questionIds analysisTag questions lo st)
      los s =
    (let (trs, w') := analysisTrace chatCompletion dateNow questions los (world s) in
     mkSys (mkDatabase (Modules (db s)) (Questions (db s))
              (Coverages (db s)
               ++ map (recordOf moduleId questionIds analysisTag questions) trs))
           (console s ++ errorsOfRun trs) w').
Proof.
  induction los as [|lo rest IH]; intros s; simpl.
  - destruct s as [[ms qs cs] lg w]; simpl. now rewrite !app_nil_r.
  - rewrite IH, analyzeLO_trace.
    destruct (similarityAnswers chatCompletion lo questions (world s)) as [tr w1].
    destruct (dateNow w1) as [now w2]. cbn [world db console Modules Questions Coverages].
    destruct (analysisTrace chatCompletion dateNow questions rest w2) as [trs w3].
    unfold errorsOfRun; simpl. now rewrite <- !app_assoc.
Qed.

(** ** The shape of a run *)

Lemma run_skipped moduleId questionIds analysisTag (s : Sys World) :
  proceeds moduleId questionIds (db s) = false ->
  db (runCoverageAnalysis chatCompletion dateNow moduleId questionIds analysisTag s) = db s
  /\ world (runCoverageAnalysis chatCompletion dateNow moduleId questionIds analysisTag s)
     = world s.
Proof.
  unfold proceeds, runCoverageAnalysis.
  destruct (findById moduleId (Modules (db s))) as [mdl| ]; [ |now auto].
  destruct (ModuleDoc.learningOutcomes mdl) as [|lo los]; [now auto| ].
  destruct (resolveQuestions moduleId questionIds (Questions (db s))) as [|q qs];
    [now auto|discriminate].
Qed.

Lemma run_proceeds moduleId questionIds analysisTag (s : Sys World) :
  proceeds moduleId questionIds (db s) = true ->
  runCoverageAnalysis chatCompletion dateNow moduleId questionIds analysisTag s =
  (let questions := resolveQuestions moduleId questionIds (Questions (db s)) in
   let (trs, w') := analysisTrace chatCompletion dateNow questions (outcomesOf moduleId (db s)) (world s) in
   mkSys (mkDatabase (Modules (db s)) (Questions (db s))
            (deleteMany (scopeQuery moduleId analysisTag) (Coverages (db s))
             ++ map (recordOf moduleId questionIds analysisTag questions) trs))
         (console s ++ errorsOfRun trs ++ [AnalysisCompleted moduleId]) w').
Proof.
  unfold proceeds, runCoverageAnalysis, outcomesOf.
  destruct (findById moduleId (Modules (db s))) as [mdl| ]; [ |discriminate].
  destruct (ModuleDoc.learningOutcomes mdl) as [|lo los] eqn:Elos; [discriminate| ].
  destruct (resolveQuestions moduleId questionIds (Questions (db s))) as [|q qs] eqn:Eqs;
    [rewrite andb_false_r; discriminate| ].
  intros _. rewrite fold_analyzeLO. cbn [world db console Modules Questions Coverages].
  destruct (analysisTrace chatCompletion dateNow (q :: qs) (lo :: los) (world s)) as [trs w'].
  unfold say; cbn [world db console]. now rewrite <- app_assoc.
Qed.

Lemma run_saved moduleId questionIds analysisTag (s : Sys World) :
  proceeds moduleId questionIds (db s) = true ->
  savedCoverages moduleId analysisTag (db s)
    (db (runCoverageAnalysis chatCompletion dateNow moduleId questionIds analysisTag s))
  = map (recordOf moduleId questionIds analysisTag
           (resolveQuestions moduleId questionIds (Questions (db s))))
        (fst (analysisTrace chatCompletion dateNow (resolveQuestions moduleId questionIds (Questions (db s)))
                (outcomesOf moduleId (db s)) (world s))).
Proof.
  intros H. rewrite run_proceeds by exact H. cbv zeta.
  destruct (analysisTrace chatCompletion dateNow _ _ _) as [trs w']. unfold savedCoverages; simpl.
  now rewrite skipn_app, skipn_all, Nat.sub_diag.
Qed.

(** ** Covering sets *)

Lemma gtb_threshold (s : JS.jsnum) :
  JS.gtb s threshold = true <-> exceeds (3 # 10) s.
Proof.
  destruct s as [ | | |x]; simpl; try (split; [discriminate|tauto]); try tauto.
  apply JSFacts.gtb_Fin.
Qed.

Lemma coveredBy_In tr qid s :
  In (Covered.mk qid s) (coveredBy tr) <->
  exists q, In (q, Ok s) tr /\ Question._id q = qid /\ exceeds (3 # 10) s.
Proof.
  unfold coveredBy. rewrite in_flat_map. split.
  - intros ([q r] & Hin & He). unfold entryOf in He; simpl in He.
    destruct r as [s'| ]; [ |contradiction].
    destruct (JS.gtb s' threshold) eqn:G; [ |contradiction].
    destruct He as [He|[]]. injection He as <- <-.
    exists q. repeat split; auto. now apply gtb_threshold.
  - intros (q & Hin & <- & Hs). exists (q, Ok s). split; auto.
    unfold entryOf; simpl. apply gtb_threshold in Hs. rewrite Hs. now left.
Qed.

Lemma similarityAnswers_range lo questions :
  forall w q s,
    In (q, Ok s) (fst (similarityAnswers chatCompletion lo questions w)) -> JS.in_range 0 1 s.
Proof.
  induction questions as [|q0 rest IH]; intros w q s; simpl; [tauto| ].
  destruct (calculateSimilarity _ _ _) as [r w1] eqn:E.
  specialize (IH w1 q s). destruct (similarityAnswers chatCompletion lo rest w1) as [tr w2].
  simpl in *. intros [H|H]; auto.
  injection H as _ ->. eapply calculateSimilarity_range; eauto.
Qed.

Lemma coveredBy_scores lo questions w :
  Forall coveringScore (scores (coveredBy (fst (similarityAnswers chatCompletion lo questions w)))).
Proof.
  apply Forall_forall. intros s Hs. unfold scores in Hs.
  apply in_map_iff in Hs. destruct Hs as ([qid s'] & <- & Hin). simpl.
  apply coveredBy_In in Hin. destruct Hin as (q & Hin & _ & Hex).
  apply similarityAnswers_range in Hin. destruct Hin as (x & -> & H0 & H1).
  exists x. auto.
Qed.

Lemma sum64_nonneg (xs : list JS.jsnum) :
  Forall coveringScore xs ->
  forall a, nonneg a -> nonneg (fold_left JS.add64 xs a).
Proof.
  induction 1 as [|s xs (x & -> & Hlo & Hhi) _ IH]; intros a Ha; cbn [fold_left].
  - exact Ha.
  - apply IH. apply JSFacts.add64_nonneg; [exact Ha| ].
    right. exists x. split; [reflexivity|lra].
Qed.

(** The percentage of a covering set whose scores are covering scores. *)
Lemma percentage64_bounds (xs : list JS.jsnum) :
  Forall coveringScore xs ->
  exists z : Z,
    percentage64 xs = JS.of_Z z
    /\ (0 <= z <= 100)%Z
    /\ (xs = [] -> z = 0%Z).
Proof.
  intros H. destruct xs as [|s xs'] eqn:Exs.
  - exists 0%Z. repeat split; auto; lia.
  - rewrite <- Exs in *.
    assert (percentage64 xs
            = JS.min (JS.of_Z 100) (JS.round (JS.mul64 (mean64 xs) (JS.of_Z 100))))
      as -> by (rewrite Exs; reflexivity).
    destruct (JSFacts.min_100_round (x := JS.mul64 (mean64 xs) (JS.of_Z 100)))
      as (z & E & Hz).
    { apply JSFacts.mul64_100. unfold mean64, sum64.
      apply JSFacts.div64_positive.
      - apply sum64_nonneg; [exact H| ]. right. exists 0%Q. split; [reflexivity|lra].
      - rewrite Exs. simpl. lia. }
    exists z. split; [exact E| ]. split; [exact Hz| ].
    rewrite Exs. discriminate.
Qed.


(** ** The documents saved by a run *)

Lemma Forall2_map_same {A B} (P : A -> B -> Prop) (f : A -> B) (l : list A) :
  (forall x, In x l -> P x (f x)) -> Forall2 P l (map f l).
Proof.
  induction l as [|x l IH]; intros H; simpl; constructor.
  - apply H. now left.
  - apply IH. intros y Hy. apply H. now right.
Qed.

Lemma analysisTrace_answers questions los :
  forall w e,
    In e (fst (analysisTrace chatCompletion dateNow questions los w)) ->
    exists w0, snd (fst e) = fst (similarityAnswers chatCompletion (fst (fst e)) questions w0).
Proof.
  induction los as [|lo rest IH]; intros w e; simpl; [tauto| ].
  destruct (similarityAnswers chatCompletion lo questions w) as [tr w1] eqn:Etr.
  destruct (dateNow w1) as [now w2].
  specialize (IH w2 e). destruct (analysisTrace chatCompletion dateNow questions rest w2) as [trs w3].
  simpl in *. intros [<-|H]; auto.
  exists w. simpl. now rewrite Etr.
Qed.

(** The identifiers of the saved documents are those of the outcomes of
    the module, in order. *)
Lemma run_one_per_outcome moduleId questionIds analysisTag (s : Sys World) :
  proceeds moduleId questionIds (db s) = true ->
  map Coverage.loId
      (savedCoverages moduleId analysisTag (db s)
         (db (runCoverageAnalysis chatCompletion dateNow moduleId questionIds
                analysisTag s)))
  = map LearningOutcome.loId (outcomesOf moduleId (db s)).
Proof.
  intros H. rewrite run_saved by exact H. rewrite map_map.
  rewrite <- (analysisTrace_outcomes
                (resolveQuestions moduleId questionIds (Questions (db s)))
                (outcomesOf moduleId (db s)) (world s)) at 2.
  now rewrite map_map.
Qed.

(** Every saved document satisfies a property that holds of the document
    built from any sequence of answers of the service. *)
Lemma run_saved_Forall moduleId questionIds analysisTag (s : Sys World)
    (P : Coverage.t -> Prop) :
  proceeds moduleId questionIds (db s) = true ->
  (forall lo w now,
      P (recordOf moduleId questionIds analysisTag
           (resolveQuestions moduleId questionIds (Questions (db s)))
           (lo, fst (similarityAnswers chatCompletion lo
                       (resolveQuestions moduleId questionIds (Questions (db s))) w),
            now))) ->
  Forall P (savedCoverages moduleId analysisTag (db s)
              (db (runCoverageAnalysis chatCompletion dateNow moduleId questionIds
                     analysisTag s))).
Proof.
  intros H HP. rewrite run_saved by exact H.
  apply Forall_forall. intros c Hc. apply in_map_iff in Hc.
  destruct Hc as ([[lo tr] now] & <- & Hin).
  apply analysisTrace_answers in Hin. destruct Hin as (w0 & E).
  simpl in E. rewrite E. apply HP.
Qed.

Lemma run_percentages moduleId questionIds analysisTag (s : Sys World) :
  proceeds moduleId questionIds (db s) = true ->
  Forall (fun c =>
            Coverage.coveragePercentage c
            = percentage64 (scores (Coverage.questionsCovered c)))
         (savedCoverages moduleId analysisTag (db s)
            (db (runCoverageAnalysis chatCompletion dateNow moduleId questionIds
                   analysisTag s))).
Proof.
  intros H. apply run_saved_Forall; auto.
Qed.


Lemma run_covering moduleId questionIds analysisTag (s : Sys World) :
  proceeds moduleId questionIds (db s) = true ->
  Forall2
    (fun e c =>
       Coverage.loId c = LearningOutcome.loId (fst (fst e))
       /\ map fst (snd (fst e))
          = resolveQuestions moduleId questionIds (Questions (db s))
       /\ forall qid sc,
           In (Covered.mk qid sc) (Coverage.questionsCovered c) <->
           exists q, In (q, Ok sc) (snd (fst e))
                     /\ Question._id q = qid /\ exceeds (3 # 10) sc)
    (fst (analysisTrace chatCompletion dateNow (resolveQuestions moduleId questionIds (Questions (db s)))
            (outcomesOf moduleId (db s)) (world s)))
    (savedCoverages moduleId analysisTag (db s)
       (db (runCoverageAnalysis chatCompletion dateNow moduleId questionIds
              analysisTag s))).
Proof.
  intros H. rewrite run_saved by exact H.
  apply Forall2_map_same. intros [[lo tr] now] Hin.
  apply analysisTrace_answers in Hin. destruct Hin as (w0 & E). simpl in E.
  unfold recordOf; cbn [fst snd Coverage.loId Coverage.questionsCovered].
  split; [reflexivity| ]. split.
  - rewrite E. apply similarityAnswers_questions.
  - intros qid sc. apply coveredBy_In.
Qed.

(** No document of a run is refused by the validators of the schema, which
    is why [save] is modelled as an insertion that always succeeds. *)
Lemma run_saved_valid moduleId questionIds analysisTag (s : Sys World) :
  proceeds moduleId questionIds (db s) = true ->
  Forall schemaValid
         (savedCoverages moduleId analysisTag (db s)
            (db (runCoverageAnalysis chatCompletion dateNow moduleId questionIds
                   analysisTag s))).
Proof.
  intros H. apply run_saved_Forall; auto.
  intros lo w now. unfold schemaValid, recordOf; cbn [fst snd]. simpl. split.
  - destruct (percentage64_bounds
                (coveredBy_scores lo
                   (resolveQuestions moduleId questionIds (Questions (db s))) w))
      as (z & E & Hz & _).
    rewrite E. exists (inject_Z z). split; [reflexivity| ].
    change 0%Q with (inject_Z 0). change 100%Q with (inject_Z 100).
    rewrite <- !Zle_Qle. lia.
  - apply Forall_forall. intros [qid sc] Hin. simpl.
    apply coveredBy_In in Hin. destruct Hin as (q & Hin & _).
    now apply similarityAnswers_range in Hin.
Qed.

(** ** One turn of the comparison loop *)

Lemma compareQuestion_covering lo question acc w sc w' :
  calculateSimilarity chatCompletion w (LearningOutcome.description lo)
    (Question.questionText question) = (Ok sc, w') ->
  exceeds (3 # 10) sc ->
  compareQuestion chatCompletion lo question acc w
  = (mkAcc (questionsCovered acc ++ [Covered.mk (Question._id question) sc])
           (JS.add64 (totalSimilarity acc) sc)
           (S (questionCount acc))
           (logged acc), w').
Proof.
  intros E Hs. unfold compareQuestion. rewrite E.
  apply gtb_threshold in Hs. now rewrite Hs.
Qed.

Lemma compareQuestion_not_covering lo question acc w sc w' :
  calculateSimilarity chatCompletion w (LearningOutcome.description lo)
    (Question.questionText question) = (Ok sc, w') ->
  ~ exceeds (3 # 10) sc ->
  compareQuestion chatCompletion lo question acc w = (acc, w').
Proof.
  intros E Hs. unfold compareQuestion. rewrite E.
  destruct (JS.gtb sc threshold) eqn:G; auto.
  apply gtb_threshold in G. contradiction.
Qed.

Lemma compareQuestion_failure lo question acc w w' :
  calculateSimilarity chatCompletion w (LearningOutcome.description lo)
    (Question.questionText question) = (Throw, w') ->
  compareQuestion chatCompletion lo question acc w
  = (mkAcc (questionsCovered acc) (totalSimilarity acc) (questionCount acc)
           (logged acc ++ [ErrorCalculatingSimilarity (Question._id question)]), w').
Proof.
  intros E. unfold compareQuestion. now rewrite E.
Qed.

(** ** Console of a run *)

Lemma run_console moduleId questionIds analysisTag (s : Sys World) :
  proceeds moduleId questionIds (db s) = true ->
  console (runCoverageAnalysis chatCompletion dateNow moduleId questionIds analysisTag s)
  = (console s
     ++ errorsOfRun
          (fst (analysisTrace chatCompletion dateNow (resolveQuestions moduleId questionIds (Questions (db s)))
                  (outcomesOf moduleId (db s)) (world s)))
     ++ [AnalysisCompleted moduleId])%list.
Proof.
  intros H. rewrite run_proceeds by exact H. cbv zeta.
  now destruct (analysisTrace chatCompletion dateNow _ _ _).
Qed.

Lemma errorsOfRun_In trs e q :
  In e trs -> In (q, @Throw JS.jsnum) (snd (fst e)) ->
  In (ErrorCalculatingSimilarity (Question._id q)) (errorsOfRun trs).
Proof.
  intros He Hq. unfold errorsOfRun. apply in_flat_map. exists e. split; auto.
  unfold errorsOf. apply in_flat_map. exists (q, Throw). split; auto.
  now left.
Qed.

(** ** Supersede and frame *)

Lemma recordOf_in_scope moduleId questionIds analysisTag questions e :
  scopeQuery moduleId analysisTag
    (recordOf moduleId questionIds analysisTag questions e) = true.
Proof.
  unfold scopeQuery, recordOf; simpl. rewrite Nat.eqb_refl. simpl.
  unfold orNull. destruct (truthy analysisTag) eqn:T; auto.
  destruct analysisTag as [t| ]; [ |discriminate]. apply String.eqb_refl.
Qed.

Lemma run_coverages moduleId questionIds analysisTag (s : Sys World) :
  proceeds moduleId questionIds (db s) = true ->
  Coverages (db (runCoverageAnalysis chatCompletion dateNow moduleId questionIds
                   analysisTag s))
  = (deleteMany (scopeQuery moduleId analysisTag) (Coverages (db s))
     ++ savedCoverages moduleId analysisTag (db s)
          (db (runCoverageAnalysis chatCompletion dateNow moduleId questionIds
                 analysisTag s)))%list.
Proof.
  intros H. rewrite run_saved by exact H.
  rewrite run_proceeds by exact H. cbv zeta.
  now destruct (analysisTrace chatCompletion dateNow _ _ _).
Qed.

Lemma run_saved_in_scope moduleId questionIds analysisTag (s : Sys World) :
  proceeds moduleId questionIds (db s) = true ->
  Forall (fun c => scopeQuery moduleId analysisTag c = true)
         (savedCoverages moduleId analysisTag (db s)
            (db (runCoverageAnalysis chatCompletion dateNow moduleId questionIds
                   analysisTag s))).
Proof.
  intros H. apply run_saved_Forall; auto.
  intros. apply recordOf_in_scope.
Qed.

Lemma filter_none {A} (f : A -> bool) (l : list A) :
  Forall (fun x => f x = true) l -> filter (fun x => negb (f x)) l = [].
Proof.
  induction 1 as [|x l Hx _ IH]; simpl; auto. now rewrite Hx.
Qed.

Lemma filter_idem {A} (f : A -> bool) (l : list A) :
  filter f (filter f l) = filter f l.
Proof.
  induction l as [|x l IH]; simpl; auto.
  destruct (f x) eqn:E; simpl; rewrite ?E, IH; auto.
Qed.

(** The documents outside the scope of a run are the same, in the same
    order, before and after it, whether the run proceeds or not. *)
Lemma run_frame moduleId questionIds analysisTag (s : Sys World) :
  deleteMany (scopeQuery moduleId analysisTag)
    (Coverages (db (runCoverageAnalysis chatCompletion dateNow moduleId questionIds
                      analysisTag s)))
  = deleteMany (scopeQuery moduleId analysisTag) (Coverages (db s)).
Proof.
  destruct (proceeds moduleId questionIds (db s)) eqn:H.
  - rewrite run_coverages by exact H. unfold deleteMany at 1.
    rewrite filter_app. unfold deleteMany at 1. rewrite filter_idem.
    rewrite (filter_none _ (run_saved_in_scope moduleId questionIds analysisTag s H)).
    now rewrite app_nil_r.
  - destruct (run_skipped moduleId questionIds analysisTag s H) as [-> _]. reflexivity.
Qed.

Lemma run_keeps_modules_questions moduleId questionIds analysisTag (s : Sys World) :
  Modules (db (runCoverageAnalysis chatCompletion dateNow moduleId questionIds
                 analysisTag s)) = Modules (db s)
  /\ Questions (db (runCoverageAnalysis chatCompletion dateNow moduleId questionIds
                      analysisTag s)) = Questions (db s).
Proof.
  destruct (proceeds moduleId questionIds (db s)) eqn:H.
  - rewrite run_proceeds by exact H. cbv zeta.
    now destruct (analysisTrace chatCompletion dateNow _ _ _).
  - destruct (run_skipped moduleId questionIds analysisTag s H) as [-> _]. auto.
Qed.

(** A document is out of the scope [(moduleId, analysisTag || null)]. *)
Lemma scopeQuery_false moduleId analysisTag c :
  scopeQuery moduleId analysisTag c = false <->
  Coverage.moduleId c <> moduleId \/ Coverage.analysisTag c <> orNull analysisTag.
Proof.
  unfold scopeQuery, orNull.
  destruct (Nat.eqb_spec (Coverage.moduleId c) moduleId) as [E|N]; simpl.
  2:{ split; auto. }
  destruct (truthy analysisTag) eqn:T.
  - destruct analysisTag as [b| ]; [ |discriminate].
    destruct (Coverage.analysisTag c) as [a| ].
    + destruct (String.eqb_spec a b) as [->|N]; split; try congruence.
      * intros [?|?]; congruence.
      * intros _. right. congruence.
    + split; auto. intros _. right. discriminate.
  - destruct (Coverage.analysisTag c) as [a| ]; split; try congruence.
    + intros _. right. discriminate.
    + intros [?|?]; congruence.
Qed.

(** ** The resolved questions *)

Lemma resolveQuestions_selected moduleId id ids qs q :
  In q (resolveQuestions moduleId (Some (id :: ids)) qs) <->
  In q qs /\ Question.moduleId q = moduleId /\ In (Question._id q) (id :: ids).
Proof.
  unfold resolveQuestions, findQuestionsIn.
  change (0 <? List.length (id :: ids))%nat with true. cbv iota.
  rewrite filter_In, andb_true_iff, Nat.eqb_eq, existsb_exists.
  split.
  - intros (Hq & Hm & x & Hx & E). apply Nat.eqb_eq in E. subst x. auto.
  - intros (Hq & Hm & Hi). repeat split; auto.
    exists (Question._id q). split; auto. apply Nat.eqb_refl.
Qed.

Lemma resolveQuestions_all moduleId qs q :
  In q (findQuestions moduleId qs) <-> In q qs /\ Question.moduleId q = moduleId.
Proof.
  unfold findQuestions. now rewrite filter_In, Nat.eqb_eq.
Qed.

Lemma proceeds_false_no_questions moduleId questionIds d :
  resolveQuestions moduleId questionIds (Questions d) = [] ->
  proceeds moduleId questionIds d = false.
Proof.
  intros E. unfold proceeds. rewrite E.
  destruct (findById moduleId (Modules d)); auto. apply andb_false_r.
Qed.

(** ** An empty array of identifiers *)

Lemma run_empty_array moduleId analysisTag (s : Sys World) :
  proceeds moduleId None (db s) = true ->
  let viaNull :=
    runCoverageAnalysis chatCompletion dateNow moduleId None analysisTag s in
  let viaEmpty :=
    runCoverageAnalysis chatCompletion dateNow moduleId (Some []) analysisTag s in
  savedCoverages moduleId analysisTag (db s) (db viaEmpty)
  = map (withAnalyzedQuestions (Some []))
        (savedCoverages moduleId analysisTag (db s) (db viaNull))
  /\ console viaEmpty = console viaNull
  /\ world viaEmpty = world viaNull.
Proof.
  intros H viaNull viaEmpty.
  assert (proceeds moduleId (Some []) (db s) = true) as H' by exact H.
  unfold viaNull, viaEmpty.
  rewrite !run_saved by assumption.
  rewrite (run_proceeds _ _ analysisTag _ H), (run_proceeds _ _ analysisTag _ H').
  cbv zeta.
  change (resolveQuestions moduleId (Some []) (Questions (db s)))
    with (resolveQuestions moduleId None (Questions (db s))).
  destruct (analysisTrace chatCompletion dateNow _ _ _) as [trs w']. cbn [fst console world].
  repeat split. rewrite map_map. reflexivity.
Qed.

End EngineFacts.

(* ================================================================== *)
(** * The readers *)
(* ================================================================== *)

Module ReaderFacts.

Lemma insertByDate_In c l x :
  In x (insertByDate c l) <-> x = c \/ In x l.
Proof.
  induction l as [|d l IH]; simpl.
  - intuition.
  - destruct (Coverage.analyzedAt d <=? Coverage.analyzedAt c)%Z; simpl.
    + intuition.
    + rewrite IH. intuition.
Qed.

Lemma insertByDate_sorted c l :
  StronglySorted newerFirst l -> StronglySorted newerFirst (insertByDate c l).
Proof.
  induction 1 as [|d l Hl IH Hd]; simpl.
  - repeat constructor.
  - destruct (Z.leb_spec (Coverage.analyzedAt d) (Coverage.analyzedAt c)) as [L|G].
    + constructor; [now constructor| ].
      constructor; [exact L| ].
      eapply Forall_impl; [ |exact Hd]. unfold newerFirst. intros; lia.
    + constructor; auto.
      apply Forall_forall. intros x Hx. apply insertByDate_In in Hx.
      destruct Hx as [->|Hx].
      * unfold newerFirst. lia.
      * rewrite Forall_forall in Hd. now apply Hd.
Qed.

Lemma sort_In l x : In x (sortByAnalyzedAtDesc l) <-> In x l.
Proof.
  induction l as [|c l IH]; simpl; [tauto| ].
  rewrite insertByDate_In, IH. intuition.
Qed.

Lemma sort_sorted l : StronglySorted newerFirst (sortByAnalyzedAtDesc l).
Proof.
  induction l as [|c l IH]; simpl; [constructor| ].
  now apply insertByDate_sorted.
Qed.

(** In a list sorted most recent first, the first element that satisfies a
    test is at least as recent as every other that does. *)
Lemma find_newest (p : Coverage.t -> bool) l r :
  StronglySorted newerFirst l ->
  find p l = Some r ->
  forall r', In r' l -> p r' = true ->
             (Coverage.analyzedAt r' <= Coverage.analyzedAt r)%Z.
Proof.
  induction 1 as [|d l Hl IH Hd]; simpl; [discriminate| ].
  destruct (p d) eqn:Pd.
  - intros [= <-] r' [<-|Hr'] _; [lia| ].
    rewrite Forall_forall in Hd. now apply Hd.
  - intros Hf r' [<-|Hr'] Pr'; [congruence| ]. now apply IH.
Qed.

(** ** The map that removes duplicates *)

Lemma set_fresh {V} (k : string) (v : V) (m : StrMap.t V) :
  StrMap.has k m = false -> StrMap.set k v m = (m ++ [(k, v)])%list.
Proof.
  induction m as [|[k' v'] m IH]; simpl; auto.
  intros H. apply orb_false_elim in H. destruct H as [H1 H2].
  rewrite H1. now rewrite IH.
Qed.

Lemma has_true {V} (k : string) (m : StrMap.t V) :
  StrMap.has k m = true <-> In k (map fst m).
Proof.
  unfold StrMap.has. rewrite existsb_exists, in_map_iff. split.
  - intros (e & He & E). apply String.eqb_eq in E. eauto.
  - intros (e & E & He). exists e. split; auto. now apply String.eqb_eq.
Qed.

Lemma collectUnique_spec reports :
  forall m,
    keyed m -> NoDup (map fst m) ->
    keyed (collectUnique reports m)
    /\ NoDup (map fst (collectUnique reports m))
    /\ (forall e, In e (collectUnique reports m) ->
                  In e m \/ (StrMap.has (fst e) m = false
                             /\ firstWith (fst e) reports = Some (snd e)))
    /\ (forall e, In e m -> In e (collectUnique reports m))
    /\ (forall r, In r reports ->
                  StrMap.has (Coverage.loId r) (collectUnique reports m) = true).
Proof.
  induction reports as [|r rest IH]; intros m Hk Hn; simpl.
  - repeat split; auto; try (intros r []).
  - destruct (StrMap.has (Coverage.loId r) m) eqn:Hr; simpl.
    + destruct (IH m Hk Hn) as (K & N & Hin & Hkeep & Hall).
      repeat split; auto.
      * intros e He. destruct (Hin e He) as [?|[Hh Hf]]; auto. right.
        split; auto. unfold firstWith; simpl.
        destruct (String.eqb_spec (Coverage.loId r) (fst e)) as [E|_]; auto.
        congruence.
      * intros r' [<-|Hr']; auto.
        apply has_true. apply has_true in Hr.
        apply in_map_iff in Hr. destruct Hr as (e & E & He).
        apply in_map_iff. exists e. auto.
    + rewrite set_fresh by exact Hr.
      assert (keyed (m ++ [(Coverage.loId r, r)])) as Hk2.
      { intros e He. apply in_app_or in He. destruct He as [He|[<-|[]]]; auto. }
      assert (NoDup (map fst (m ++ [(Coverage.loId r, r)]))) as Hn2.
      { rewrite map_app. simpl. apply NoDup_app; auto.
        - repeat constructor. intros [].
        - intros x Hx [<-|[]]. apply has_true in Hx. congruence. }
      destruct (IH _ Hk2 Hn2) as (K & N & Hin & Hkeep & Hall).
      repeat split; auto.
      * intros e He. destruct (Hin e He) as [Hm|[Hh Hf]].
        -- apply in_app_or in Hm. destruct Hm as [Hm|[<-|[]]]; auto.
           right. split; auto. unfold firstWith; simpl.
           now rewrite String.eqb_refl.
        -- right. unfold StrMap.has in Hh. rewrite existsb_app in Hh.
           apply orb_false_elim in Hh. destruct Hh as [Hh1 Hh2].
           split; auto. unfold firstWith; simpl. simpl in Hh2.
           rewrite orb_false_r in Hh2. now rewrite Hh2.
      * intros e He. apply Hkeep. apply in_or_app. now left.
      * intros r' [<-|Hr']; auto.
        apply has_true, in_map_iff. exists (Coverage.loId r, r). split; auto.
        apply Hkeep. apply in_or_app. right. now left.
Qed.

Lemma deduplicate_NoDup reports :
  NoDup (map Coverage.loId (deduplicate reports)).
Proof.
  unfold deduplicate, StrMap.values.
  destruct (collectUnique_spec reports (m := [])) as (K & N & _).
  { intros e []. } { constructor. }
  rewrite map_map.
  erewrite map_ext_in; [exact N| ]. intros e He. symmetry. now apply K.
Qed.

Lemma deduplicate_first reports r :
  In r (deduplicate reports) -> firstWith (Coverage.loId r) reports = Some r.
Proof.
  unfold deduplicate, StrMap.values. intros Hr.
  apply in_map_iff in Hr. destruct Hr as (e & <- & He).
  destruct (collectUnique_spec reports (m := [])) as (K & _ & Hin & _).
  { intros e' []. } { constructor. }
  destruct (Hin e He) as [[]|[_ Hf]]. now rewrite <- (K e He).
Qed.

Lemma deduplicate_complete reports r :
  In r reports ->
  exists r', In r' (deduplicate reports) /\ Coverage.loId r' = Coverage.loId r.
Proof.
  intros Hr.
  destruct (collectUnique_spec reports (m := [])) as (K & _ & _ & _ & Hall).
  { intros e' []. } { constructor. }
  specialize (Hall r Hr). apply has_true, in_map_iff in Hall.
  destruct Hall as (e & E & He). exists (snd e). split.
  - unfold deduplicate, StrMap.values. now apply in_map.
  - now rewrite <- (K e He).
Qed.

Lemma firstWith_In k reports r :
  firstWith k reports = Some r -> In r reports /\ Coverage.loId r = k.
Proof.
  unfold firstWith. intros H. apply find_some in H.
  destruct H as [H1 H2]. apply String.eqb_eq in H2. auto.
Qed.

(** The report of a module has one entry for each outcome identifier that
    has a document in the scope, and the entry is built from a most recent
    document of that identifier. *)
Lemma getReport_latest moduleId analysisTag d results :
  getReport moduleId analysisTag d = Some results ->
  NoDup (map ReportEntry.loId results)
  /\ (forall e, In e results ->
        exists c, In c (Coverages d)
                  /\ scopeQuery moduleId analysisTag c = true
                  /\ ReportEntry.loId e = Coverage.loId c
                  /\ ReportEntry.analyzedAt e = Coverage.analyzedAt c
                  /\ ReportEntry.coveragePercentage e = Coverage.coveragePercentage c
                  /\ ReportEntry.status e = Coverage.status c
                  /\ forall c', In c' (Coverages d) ->
                                scopeQuery moduleId analysisTag c' = true ->
                                Coverage.loId c' = Coverage.loId c ->
                                (Coverage.analyzedAt c' <= Coverage.analyzedAt c)%Z)
  /\ (forall c, In c (Coverages d) -> scopeQuery moduleId analysisTag c = true ->
                In (Coverage.loId c) (map ReportEntry.loId results)).
Proof.
  unfold getReport. destruct (findById moduleId (Modules d)) as [mdl| ]; [ |discriminate].
  intros [= <-].
  set (found := findCoverage (scopeQuery moduleId analysisTag) (Coverages d)).
  set (sorted := sortByAnalyzedAtDesc found).
  assert (forall c, In c sorted <->
                    In c (Coverages d) /\ scopeQuery moduleId analysisTag c = true) as Hs.
  { intros c. unfold sorted. rewrite sort_In. unfold found, findCoverage.
    apply filter_In. }
  split; [ |split].
  - rewrite map_map. simpl. apply deduplicate_NoDup.
  - intros e He. apply in_map_iff in He. destruct He as (c & <- & Hc).
    pose proof (deduplicate_first _ _ Hc) as Hf.
    destruct (firstWith_In _ _ Hf) as [Hin _].
    apply Hs in Hin. destruct Hin as [Hin Hq].
    exists c. repeat split; auto.
    intros c' Hc' Hq' E.
    eapply find_newest; [apply sort_sorted|exact Hf| | ].
    + apply Hs. auto.
    + now apply String.eqb_eq.
  - intros c Hc Hq.
    destruct (@deduplicate_complete sorted c) as (r' & Hr' & E).
    { apply Hs. auto. }
    rewrite <- E. rewrite map_map. simpl.
    apply in_map_iff. exists r'. auto.
Qed.

End ReaderFacts.

(* ================================================================== *)
(** * The repair of generated MCQs *)
(* ================================================================== *)

Module RepairFacts.

Lemma padOptions_turns :
  forall turns options,
    (4 - List.length options <= turns)%nat ->
    padOptions turns options
    = options ++ map placeholder (seq (List.length options) (4 - List.length options)).
Proof.
  induction turns as [|turns IH]; intros options H; cbn [padOptions].
  - replace (4 - List.length options)%nat with 0%nat by lia.
    simpl. now rewrite app_nil_r.
  - destruct (Nat.ltb_spec (List.length options) 4) as [L|G].
    + rewrite IH by (rewrite length_app; cbn [List.length]; lia).
      rewrite length_app. cbn [List.length].
      replace (4 - List.length options)%nat
        with (S (4 - (List.length options + 1)))%nat by lia.
      rewrite <- app_assoc. cbn [seq map app].
      replace (List.length options + 1)%nat with (S (List.length options)) by lia.
      reflexivity.
    + replace (4 - List.length options)%nat with 0%nat by lia.
      simpl. now rewrite app_nil_r.
Qed.

Lemma padOptions_firstn given :
  padOptions 4 (firstn 4 given) = fourOptions given.
Proof.
  unfold fourOptions.
  rewrite padOptions_turns by lia.
  rewrite length_firstn.
  destruct (Nat.le_gt_cases 4 (List.length given)) as [G|L].
  - rewrite Nat.min_l by lia.
    replace (4 - List.length given)%nat with 0%nat by lia. reflexivity.
  - now rewrite Nat.min_r by lia.
Qed.

Lemma fourOptions_length given : List.length (fourOptions given) = 4%nat.
Proof.
  unfold fourOptions.
  rewrite length_app, length_map, length_seq, length_firstn. lia.
Qed.

Lemma fourOptions_many given :
  (4 <= List.length given)%nat -> fourOptions given = firstn 4 given.
Proof.
  intros L. unfold fourOptions.
  replace (4 - List.length given)%nat with 0%nat by lia. simpl. apply app_nil_r.
Qed.

Lemma fourOptions_few given :
  (List.length given < 4)%nat ->
  fourOptions given
  = given ++ map placeholder (seq (List.length given) (4 - List.length given)).
Proof.
  intros L. unfold fourOptions. now rewrite firstn_all2 by lia.
Qed.

(** The options that came as an array, or did not come, are repaired. *)
Lemma repairOptions_array mcq given :
  arrayOf (GeneratedMCQ.options mcq) = Some given ->
  repairOptions mcq = Ok (AnArray (fourOptions given)).
Proof.
  unfold repairOptions, arrayOf, sliceOptions.
  destruct (GeneratedMCQ.options mcq) as [ |[| ]|n|s|items| ];
    try discriminate;
    try (intros [= <-]; reflexivity).
  - destruct (JS.truthy n); [discriminate| ]. intros [= <-]. reflexivity.
  - destruct (truthy (Some s)); [discriminate| ]. intros [= <-]. reflexivity.
  - intros [= <-]. cbn [fillOptions]. now rewrite padOptions_firstn.
Qed.

(** The code units of a byte of the form [128 + k] with [k < 64]. *)
Lemma units_continuation k :
  (k < 64)%N -> Text.units (ascii_of_N (128 + k)) = 0%nat.
Proof.
  intros H. unfold Text.units, nat_of_ascii.
  rewrite N_ascii_embedding by lia.
  destruct (Nat.ltb_spec (N.to_nat (128 + k)) 128) as [L|_]; [lia| ].
  destruct (Nat.ltb_spec (N.to_nat (128 + k)) 192) as [_|G]; [reflexivity|lia].
Qed.

Lemma units_highSurrogate c t :
  list_sum (map Text.units (Text.highSurrogate c t)) = 1%nat.
Proof.
  unfold Text.highSurrogate. cbv zeta. cbn [map list_sum].
  rewrite !units_continuation by (apply N.mod_lt; discriminate).
  reflexivity.
Qed.

Lemma units_firstUnits s :
  forall n, (list_sum (map Text.units (Text.firstUnits n s)) <= n)%nat.
Proof.
  induction s as [|c t IH]; intros n; cbn [Text.firstUnits]; [simpl; lia| ].
  assert (Text.units c <= 2)%nat as Hu.
  { unfold Text.units. cbv zeta.
    repeat match goal with |- context [if ?b then _ else _] => destruct b end; lia. }
  assert (forall l, list_sum (map Text.units (c :: l))
                    = (Text.units c + list_sum (map Text.units l))%nat) as Hcons
    by reflexivity.
  destruct (Text.units c) as [|[|u]] eqn:E.
  - rewrite Hcons. specialize (IH n). lia.
  - destruct n as [|n']; [simpl; lia| ].
    rewrite Hcons. specialize (IH n'). lia.
  - destruct n as [|[|n'']]; [simpl; lia| | ].
    + rewrite units_highSurrogate. lia.
    + rewrite Hcons. specialize (IH n''). lia.
Qed.

Lemma jsLength_slice n s : (Text.jsLength (Text.slice n s) <= n)%nat.
Proof.
  unfold Text.jsLength, Text.slice.
  rewrite list_ascii_of_string_of_list_ascii. apply units_firstUnits.
Qed.

(** What is saved for the options of an MCQ: four options, or one string
    of four units. *)
Lemma repairOptions_shape mcq options :
  repairOptions mcq = Ok options ->
  List.length (castOptions options) = 4%nat
  \/ exists s, castOptions options = [s] /\ Text.jsLength s = 4%nat.
Proof.
  unfold repairOptions.
  destruct (arrayOf (GeneratedMCQ.options mcq)) as [given| ] eqn:A.
  - pose proof (repairOptions_array mcq A) as R. unfold repairOptions in R.
    rewrite R. intros [= <-]. left. apply fourOptions_length.
  - revert A. unfold arrayOf, sliceOptions.
    destruct (GeneratedMCQ.options mcq) as [ |[| ]|n|s|items| ]; try discriminate.
    + destruct (JS.truthy n); discriminate.
    + destruct (truthy (Some s)); [ |discriminate]. intros _. cbn [fillOptions].
      destruct (Nat.ltb_spec (Text.jsLength (Text.slice 4 s)) 4) as [L|G];
        [discriminate| ].
      intros [= <-]. right. exists (Text.slice 4 s). split; [reflexivity| ].
      pose proof (jsLength_slice 4 s). lia.
Qed.

(** The options that did not come as an array stop the request, but for a
    string of four units or more, which is saved, cut, as the only
    option. *)
Lemma repairOptions_other mcq :
  arrayOf (GeneratedMCQ.options mcq) = None ->
  match GeneratedMCQ.options mcq with
  | GeneratedMCQ.Str s =>
      if (Text.jsLength (Text.slice 4 s) <? 4)%nat
      then repairOptions mcq = Throw
      else repairOptions mcq = Ok (AString (Text.slice 4 s))
  | _ => repairOptions mcq = Throw
  end.
Proof.
  unfold repairOptions, arrayOf, sliceOptions.
  destruct (GeneratedMCQ.options mcq) as [ |[| ]|n|s|items| ];
    try discriminate; try reflexivity.
  - destruct (JS.truthy n); [reflexivity|discriminate].
  - destruct (truthy (Some s)); [ |discriminate]. intros _. cbn [fillOptions].
    destruct (Text.jsLength (Text.slice 4 s) <? 4)%nat; reflexivity.
Qed.

Lemma repairCorrectAnswer_spec mcq options :
  (forall a, GeneratedMCQ.correctAnswer mcq = Some a -> a <> "" ->
             repairCorrectAnswer mcq options = a)
  /\ (GeneratedMCQ.correctAnswer mcq = None
      \/ GeneratedMCQ.correctAnswer mcq = Some "" ->
      repairCorrectAnswer mcq options
      = match firstOption options with Some a => a | None => "" end).
Proof.
  unfold repairCorrectAnswer, truthy. split.
  - intros a -> N. destruct (String.eqb_spec a ""); simpl; congruence.
  - assert (forall o : option string,
               (if match o with
                   | Some t => negb (String.eqb t "")
                   | None => false
                   end
                then match o with Some a => a | None => "" end
                else "") = match o with Some a => a | None => "" end) as Hfirst.
    { intros [x| ]; simpl; auto. destruct (String.eqb_spec x ""); simpl; auto. }
    intros [->| ->]; simpl; apply Hfirst.
Qed.

Lemma firstOption_array items :
  match firstOption (AnArray items) with Some a => a | None => "" end = nth 0 items "".
Proof.
  destruct items; reflexivity.
Qed.

End RepairFacts.

Section GenerationFacts.

Variable World : Type.
Variable generateQuestions :
  World -> string -> string -> Z -> Z -> Outcome Generated.t * World.
Variable newObjectId : World -> ObjectId * World.

(** The loop over the generated MCQs saves every one of them, repaired,
    as soon as each has a question text and options that the repair
    accepts. *)
Lemma saveMCQs_all moduleId mcqs :
  Forall (fun mcq => truthy (GeneratedMCQ.question mcq) = true
                     /\ repairOptions mcq <> Throw) mcqs ->
  forall savedMCQs d w,
  exists saved d' w',
    saveMCQs newObjectId moduleId mcqs savedMCQs d w = (Ok (savedMCQs ++ saved), d', w')
    /\ Forall2 (repairs moduleId) mcqs saved
    /\ Questions d' = Questions d ++ saved
    /\ Modules d' = Modules d /\ Coverages d' = Coverages d.
Proof.
  induction 1 as [|mcq mcqs [Ht Hr] _ IH]; intros savedMCQs d w; cbn [saveMCQs].
  - exists [], d, w. rewrite !app_nil_r. repeat split; auto.
  - destruct (repairOptions mcq) as [options| ] eqn:R; [ |contradiction].
    destruct (newObjectId w) as [id w1]. unfold saveQuestion. rewrite Ht.
    set (q := Question.mk id moduleId _ MCQ AI _ _ _ _).
    destruct (IH (savedMCQs ++ [q])
                 (mkDatabase (Modules d) (Questions d ++ [q]) (Coverages d)) w1)
      as (saved & d' & w' & E & HF & HQ & HM & HC).
    exists (q :: saved), d', w'. rewrite E, <- app_assoc. simpl in *.
    rewrite HQ, <- app_assoc. repeat split; auto.
    constructor; auto. unfold repairs, q; simpl.
    split; [reflexivity| ]. split; [reflexivity| ]. split; [reflexivity| ]. split.
    + destruct (GeneratedMCQ.question mcq); [reflexivity|discriminate].
    + exists options. rewrite R. repeat split.
Qed.

(** The loop stops at options that the repair refuses, if not before. *)
Lemma saveMCQs_throw moduleId mcqs :
  Exists (fun mcq => repairOptions mcq = Throw) mcqs ->
  forall savedMCQs d w,
    fst (fst (saveMCQs newObjectId moduleId mcqs savedMCQs d w)) = Throw.
Proof.
  induction mcqs as [|mcq mcqs IH]; intros H savedMCQs d w; [inversion H| ].
  cbn [saveMCQs].
  destruct (repairOptions mcq) as [options| ] eqn:R; [ |reflexivity].
  destruct (newObjectId w) as [id w1]. unfold saveQuestion.
  destruct (truthy (GeneratedMCQ.question mcq)); [ |reflexivity].
  apply IH. inversion H as [x l Hx|x l Hl]; subst; [congruence|exact Hl].
Qed.

Lemma saveStructured_all moduleId items :
  Forall (fun i => truthy (GeneratedStructured.question i) = true) items ->
  forall savedStructured d w,
  exists saved d' w',
    saveStructured newObjectId moduleId items savedStructured d w
    = (Ok (savedStructured ++ saved), d', w')
    /\ List.length saved = List.length items
    /\ Questions d' = Questions d ++ saved
    /\ Modules d' = Modules d /\ Coverages d' = Coverages d.
Proof.
  induction 1 as [|i items Ht _ IH]; intros savedStructured d w; simpl.
  - exists [], d, w. rewrite !app_nil_r. repeat split; auto.
  - destruct (newObjectId w) as [id w1]. unfold saveQuestion. rewrite Ht.
    set (q := Question.mk id moduleId _ Structured AI _ _ _ _).
    destruct (IH (savedStructured ++ [q])
                 (mkDatabase (Modules d) (Questions d ++ [q]) (Coverages d)) w1)
      as (saved & d' & w' & E & HL & HQ & HM & HC).
    exists (q :: saved), d', w'. rewrite E, <- app_assoc. simpl in *.
    rewrite HQ, <- app_assoc. repeat split; auto.
Qed.

(** The request succeeds on every generated bundle whose items have a
    question text and whose MCQs have options that the repair accepts, and
    what it saves is what it answers. *)
Lemma generateQuestionsRoute_success moduleId loId mcqCount structuredCount d w
      mdl lo g w1 :
  truthy (Some loId) = true ->
  mcqCount <> 0%Z -> structuredCount <> 0%Z ->
  findById moduleId (Modules d) = Some mdl ->
  find (fun l => String.eqb (LearningOutcome.loId l) loId)
       (ModuleDoc.learningOutcomes mdl) = Some lo ->
  generateQuestions w (LearningOutcome.description lo) (LearningOutcome.bloomLevel lo)
    mcqCount structuredCount = (Ok g, w1) ->
  Forall (fun mcq => truthy (GeneratedMCQ.question mcq) = true
                     /\ repairOptions mcq <> Throw)
         (match Generated.mcqs g with Some l => l | None => [] end) ->
  Forall (fun i => truthy (GeneratedStructured.question i) = true)
         (match Generated.structured g with Some l => l | None => [] end) ->
  exists savedMCQs savedStructured d' w',
    generateQuestionsRoute generateQuestions newObjectId (Some moduleId) (Some loId)
      mcqCount structuredCount d w
    = (Success savedMCQs savedStructured, d', w')
    /\ Forall2 (repairs moduleId)
               (match Generated.mcqs g with Some l => l | None => [] end) savedMCQs
    /\ List.length savedStructured
       = List.length (match Generated.structured g with Some l => l | None => [] end)
    /\ Questions d' = Questions d ++ savedMCQs ++ savedStructured
    /\ Modules d' = Modules d /\ Coverages d' = Coverages d.
Proof.
  intros Hlo Hm Hs Hmod Hfind Hgen HM HS.
  unfold generateQuestionsRoute. rewrite Hlo.
  apply Z.eqb_neq in Hm, Hs. rewrite Hm, Hs. simpl.
  rewrite Hmod, Hfind, Hgen.
  destruct (saveMCQs_all moduleId HM [] d w1)
    as (saved & d1 & w2 & E1 & HF & HQ1 & HM1 & HC1).
  rewrite E1. simpl.
  destruct (saveStructured_all moduleId HS [] d1 w2)
    as (saved2 & d2 & w3 & E2 & HL & HQ2 & HM2 & HC2).
  rewrite E2. simpl.
  exists saved, saved2, d2, w3. split; [reflexivity| ]. split; [exact HF| ].
  split; [exact HL| ]. split; [now rewrite HQ2, HQ1, app_assoc| ].
  split; congruence.
Qed.

(** The request fails when the repair refuses the options of one of the
    generated MCQs. *)
Lemma generateQuestionsRoute_failure moduleId loId mcqCount structuredCount d w
      mdl lo g w1 :
  truthy (Some loId) = true ->
  mcqCount <> 0%Z -> structuredCount <> 0%Z ->
  findById moduleId (Modules d) = Some mdl ->
  find (fun l => String.eqb (LearningOutcome.loId l) loId)
       (ModuleDoc.learningOutcomes mdl) = Some lo ->
  generateQuestions w (LearningOutcome.description lo) (LearningOutcome.bloomLevel lo)
    mcqCount structuredCount = (Ok g, w1) ->
  Exists (fun mcq => repairOptions mcq = Throw)
         (match Generated.mcqs g with Some l => l | None => [] end) ->
  fst (fst (generateQuestionsRoute generateQuestions newObjectId (Some moduleId)
              (Some loId) mcqCount structuredCount d w)) = ServerError.
Proof.
  intros Hlo Hm Hs Hmod Hfind Hgen HE.
  unfold generateQuestionsRoute. rewrite Hlo.
  apply Z.eqb_neq in Hm, Hs. rewrite Hm, Hs. simpl.
  rewrite Hmod, Hfind, Hgen.
  pose proof (saveMCQs_throw moduleId HE [] d w1) as T.
  destruct (saveMCQs newObjectId moduleId _ [] d w1) as [[[savedMCQs| ] d1] w2];
    [discriminate T|reflexivity].
Qed.

End GenerationFacts.

(* ================================================================== *)
(** * The properties of the specification *)
(* ================================================================== *)

Local Open Scope nat_scope.

(** C1, as amended.  In a run that goes past its guards, one document is
    saved for each learning outcome of the module, and the percentage of
    each is what [Math.min(100, Math.round(mean * 100))] gives when the
    scores of its covering questions are added from 0 in their order, the
    sum is divided by their number and the quotient is multiplied by 100,
    each of the three results being rounded to binary64; it is 0 when the
    covering set is empty.  In the scenario of the specification (answers
    0.8, 0.1 and 0.5 for LO1 and 0 for LO2), LO1 gets 65 with two covering
    questions and LO2 gets 0 with none; with the answers 0.35 and 0.78 the
    outcome gets 56. *)
Theorem coverage_percentage_is_rounded_mean :
  (forall (World : Type) chatCompletion dateNow moduleId questionIds analysisTag
          (s : Sys World),
      proceeds moduleId questionIds (db s) = true ->
      let saved :=
        savedCoverages moduleId analysisTag (db s)
          (db (runCoverageAnalysis chatCompletion dateNow moduleId questionIds
                 analysisTag s)) in
      map Coverage.loId saved = map LearningOutcome.loId (outcomesOf moduleId (db s))
      /\ Forall (fun c =>
                   Coverage.coveragePercentage c
                   = percentage64 (scores (Coverage.questionsCovered c))
                   /\ (Coverage.questionsCovered c = [] ->
                       Coverage.coveragePercentage c = JS.of_Z 0))
                saved)
  /\ map (fun c => (Coverage.loId c, Coverage.coveragePercentage c,
                    List.length (Coverage.questionsCovered c)))
         (Coverages (db (runCoverageAnalysis Scenario.chat Scenario.clock 1 None None
                           Scenario.start)))
     = [("LO1", JS.of_Z 65, 2); ("LO2", JS.of_Z 0, 0)]
  /\ map (fun c => (Coverage.loId c, Coverage.coveragePercentage c,
                    List.length (Coverage.questionsCovered c)))
         (Coverages (db (runCoverageAnalysis Scenario.chat Scenario.clock 1 None None
                           Scenario.halfway)))
     = [("LO1", JS.of_Z 56, 2); ("LO2", JS.of_Z 0, 0)]
  /\ coveragePercentageOf
       (mkAcc [Covered.mk 11 (Text.parseFloat "0.8");
               Covered.mk 13 (Text.parseFloat "0.5")]
              (JS.add64 (JS.add64 (JS.of_Z 0) (Text.parseFloat "0.8"))
                        (Text.parseFloat "0.5")) 2 [])
     = JS.of_Z 65
  /\ coveragePercentageOf (mkAcc [] (JS.of_Z 0) 0 []) = JS.of_Z 0.
Proof.
  split; [ |repeat split; vm_compute; reflexivity].
  intros World chatCompletion dateNow moduleId questionIds analysisTag s H saved.
  split.
  - now apply run_one_per_outcome.
  - pose proof (run_percentages chatCompletion dateNow moduleId questionIds
                  analysisTag s H) as HP.
    eapply Forall_impl; [ |exact HP]. intros c E. split; [exact E| ].
    intros E0. rewrite E, E0. reflexivity.
Qed.

Lemma coverage_percentage_is_rounded_mean_witness :
  proceeds 1 None (db Scenario.halfway) = true
  /\ map Coverage.loId
         (savedCoverages 1 None (db Scenario.halfway)
            (db (runCoverageAnalysis Scenario.chat Scenario.clock 1 None None
                   Scenario.halfway)))
     = ["LO1"; "LO2"]
  /\ Forall (fun c =>
               Coverage.coveragePercentage c
               = percentage64 (scores (Coverage.questionsCovered c)))
            (savedCoverages 1 None (db Scenario.halfway)
               (db (runCoverageAnalysis Scenario.chat Scenario.clock 1 None None
                      Scenario.halfway))).
Proof.
  split; [reflexivity| ].
  destruct (proj1 coverage_percentage_is_rounded_mean
              Scenario.World Scenario.chat Scenario.clock 1 None None
              Scenario.halfway eq_refl) as [Hids HF].
  split; [exact Hids| ].
  eapply Forall_impl; [ |exact HF]. intros c [E _]. exact E.
Defined.

(** The claim C1 as it is worded, with the mean and the product of the
    numbers themselves, fails.  The service answers 0.35 and 0.78 for the
    two questions that cover LO1.  The mean of the two scores, times 100, is
    above 56.5 and its rounding is 57; the run stores 56, because the sum
    of the two scores is rounded to the binary64 value below 1.13, whose
    half, times 100, is rounded to a value below 56.5.  The decimal numbers
    0.35 and 0.78 of the answers give 57 as well. *)
Lemma rounded_mean_counterexample :
  let s' := runCoverageAnalysis Scenario.chat Scenario.clock 1 None None
              Scenario.halfway in
  exists c rest,
    Coverages (db s') = c :: rest
    /\ Coverage.loId c = "LO1"
    /\ scores (Coverage.questionsCovered c)
       = [Text.parseFloat "0.35"; Text.parseFloat "0.78"]
    /\ Coverage.coveragePercentage c = JS.of_Z 56
    /\ specPercentage (scores (Coverage.questionsCovered c)) = JS.of_Z 57
    /\ Coverage.coveragePercentage c
       <> specPercentage (scores (Coverage.questionsCovered c))
    /\ JS.gtb (JS.mul (mean (scores (Coverage.questionsCovered c))) (JS.of_Z 100))
               (JS.Fin (113 # 2)) = true
    /\ JS.ltb (JS.mul64 (mean64 (scores (Coverage.questionsCovered c))) (JS.of_Z 100))
               (JS.Fin (113 # 2)) = true
    /\ specPercentage [JS.Fin (35 # 100); JS.Fin (78 # 100)] = JS.of_Z 57.
Proof.
  cbv zeta. eexists. eexists. split; [vm_compute; reflexivity| ].
  split; [reflexivity| ]. split; [vm_compute; reflexivity| ].
  split; [vm_compute; reflexivity| ]. split; [vm_compute; reflexivity| ].
  split; [vm_compute; discriminate| ].
  split; [vm_compute; reflexivity| ]. split; vm_compute; reflexivity.
Qed.

(** C2.  In one turn of the comparison loop, a question whose score is
    strictly greater than 0.3 is appended to the covering set, its score is
    added to the total and the count goes up by one; with any other score,
    0.3 itself included, the three accumulators are left as they were.
    Hence, in every saved document, the covering set holds exactly the
    questions that the service scored above 0.3 for that outcome. *)
Theorem covering_iff_score_above_threshold :
  forall (World : Type) (chatCompletion : World -> string -> string -> ApiResult * World)
         (dateNow : World -> Z * World),
    (forall lo question acc w sc w',
        calculateSimilarity chatCompletion w (LearningOutcome.description lo)
          (Question.questionText question) = (Ok sc, w') ->
        (exceeds (3 # 10) sc ->
         compareQuestion chatCompletion lo question acc w
         = (mkAcc (questionsCovered acc ++ [Covered.mk (Question._id question) sc])
                  (JS.add64 (totalSimilarity acc) sc)
                  (S (questionCount acc))
                  (logged acc), w'))
        /\ (~ exceeds (3 # 10) sc ->
            compareQuestion chatCompletion lo question acc w = (acc, w'))
        /\ (forall x, sc = JS.Fin x -> (x == 3 # 10)%Q ->
                      compareQuestion chatCompletion lo question acc w = (acc, w')))
    /\
    (forall moduleId questionIds analysisTag (s : Sys World),
        proceeds moduleId questionIds (db s) = true ->
        Forall2
          (fun e c =>
             Coverage.loId c = LearningOutcome.loId (fst (fst e))
             /\ map fst (snd (fst e))
                = resolveQuestions moduleId questionIds (Questions (db s))
             /\ forall qid sc,
                 In (Covered.mk qid sc) (Coverage.questionsCovered c) <->
                 exists q, In (q, Ok sc) (snd (fst e))
                           /\ Question._id q = qid /\ exceeds (3 # 10) sc)
          (fst (analysisTrace chatCompletion dateNow
                  (resolveQuestions moduleId questionIds (Questions (db s)))
                  (outcomesOf moduleId (db s)) (world s)))
          (savedCoverages moduleId analysisTag (db s)
             (db (runCoverageAnalysis chatCompletion dateNow moduleId questionIds
                    analysisTag s)))).
Proof.
  intros World chatCompletion dateNow. split.
  - intros lo question acc w sc w' E. repeat split.
    + now apply compareQuestion_covering.
    + now apply compareQuestion_not_covering.
    + intros x -> Hx. eapply compareQuestion_not_covering; eauto.
      simpl. rewrite Hx. apply Qlt_irrefl.
  - intros. now apply run_covering.
Qed.

Lemma covering_iff_score_above_threshold_witness :
  compareQuestion Scenario.chat Scenario.LO1 Scenario.Q1
    (mkAcc [] (JS.of_Z 0) 0 []) (world Scenario.start)
  = (mkAcc [Covered.mk 11 (Text.parseFloat "0.8")]
           (JS.add64 (JS.of_Z 0) (Text.parseFloat "0.8")) 1 [], world Scenario.start)
  /\ compareQuestion Scenario.chat Scenario.LO1 Scenario.Q2
       (mkAcc [] (JS.of_Z 0) 0 []) (world Scenario.start)
     = (mkAcc [] (JS.of_Z 0) 0 [], world Scenario.start).
Proof.
  split.
  - apply (proj1 (covering_iff_score_above_threshold Scenario.chat Scenario.clock)
             Scenario.LO1 Scenario.Q1 (mkAcc [] (JS.of_Z 0) 0 [])
             (world Scenario.start) (Text.parseFloat "0.8") (world Scenario.start)
             eq_refl).
    vm_compute. reflexivity.
  - apply (proj1 (covering_iff_score_above_threshold Scenario.chat Scenario.clock)
             Scenario.LO1 Scenario.Q2 (mkAcc [] (JS.of_Z 0) 0 [])
             (world Scenario.start) (Text.parseFloat "0.1") (world Scenario.start)
             eq_refl).
    vm_compute. discriminate.
Defined.



(** C7.  When the similarity service fails on a pair, the failure is caught
    and logged, the covering set, the total and the count are left as they
    were, and the loop goes on with the next question.  Whatever the
    failures, a run that goes past its guards saves one document for each
    outcome of the module and reports its completion; every failed pair is
    on the console, and every entry of a covering set comes from a pair on
    which the service answered. *)
Theorem oracle_failure_skips_the_pair_only :
  forall (World : Type) (chatCompletion : World -> string -> string -> ApiResult * World)
         (dateNow : World -> Z * World),
    (forall lo question rest acc w w',
        calculateSimilarity chatCompletion w (LearningOutcome.description lo)
          (Question.questionText question) = (Throw, w') ->
        compareQuestions chatCompletion lo (question :: rest) acc w
        = compareQuestions chatCompletion lo rest
            (mkAcc (questionsCovered acc) (totalSimilarity acc) (questionCount acc)
                   (logged acc ++ [ErrorCalculatingSimilarity (Question._id question)]))
            w')
    /\
    (forall moduleId questionIds analysisTag (s : Sys World),
        proceeds moduleId questionIds (db s) = true ->
        let s' := runCoverageAnalysis chatCompletion dateNow moduleId questionIds
                    analysisTag s in
        let trace :=
          fst (analysisTrace chatCompletion dateNow
                 (resolveQuestions moduleId questionIds (Questions (db s)))
                 (outcomesOf moduleId (db s)) (world s)) in
        let saved := savedCoverages moduleId analysisTag (db s) (db s') in
        map Coverage.loId saved = map LearningOutcome.loId (outcomesOf moduleId (db s))
        /\ (exists errors,
               console s' = console s ++ errors ++ [AnalysisCompleted moduleId])
        /\ (forall e q, In e trace -> In (q, Throw) (snd (fst e)) ->
                        In (ErrorCalculatingSimilarity (Question._id q)) (console s'))
        /\ Forall2
             (fun e c =>
                forall qid sc,
                  In (Covered.mk qid sc) (Coverage.questionsCovered c) ->
                  exists q, In (q, Ok sc) (snd (fst e)) /\ Question._id q = qid)
             trace saved).
Proof.
  intros World chatCompletion dateNow. split.
  - intros lo question rest acc w w' E. simpl.
    now rewrite (compareQuestion_failure chatCompletion lo question acc w E).
  - intros moduleId questionIds analysisTag s H s' trace saved.
    pose proof (run_console chatCompletion dateNow moduleId questionIds
                  analysisTag s H) as HC.
    fold s' trace in HC. repeat split.
    + now apply run_one_per_outcome.
    + eauto.
    + intros e q He Hq. rewrite HC. apply in_or_app. right.
      apply in_or_app. left. eapply errorsOfRun_In; eauto.
    + pose proof (run_covering chatCompletion dateNow moduleId questionIds
                    analysisTag s H) as HF.
      fold s' trace saved in HF. revert HF. generalize trace saved.
      induction 1 as [|e c tr sv (_ & _ & Hiff) _ IH]; constructor; auto.
      intros qid sc Hin. apply Hiff in Hin. destruct Hin as (q & ? & ? & _). eauto.
Qed.

Lemma oracle_failure_skips_the_pair_only_witness :
  compareQuestions Scenario.chat Scenario.LO1 [Scenario.Q2; Scenario.Q3]
    (mkAcc [Covered.mk 11 (Text.parseFloat "0.8")] (Text.parseFloat "0.8") 1 [])
    (world Scenario.flaky)
  = compareQuestions Scenario.chat Scenario.LO1 [Scenario.Q3]
      (mkAcc [Covered.mk 11 (Text.parseFloat "0.8")] (Text.parseFloat "0.8") 1
             [ErrorCalculatingSimilarity 12])
      (world Scenario.flaky)
  /\ proceeds 1 None (db Scenario.flaky) = true
  /\ map Coverage.loId
         (savedCoverages 1 None (db Scenario.flaky)
            (db (runCoverageAnalysis Scenario.chat Scenario.clock 1 None None
                   Scenario.flaky)))
     = ["LO1"; "LO2"].
Proof.
  split; [ |split; [reflexivity| ]].
  - exact (proj1 (oracle_failure_skips_the_pair_only Scenario.chat Scenario.clock)
             Scenario.LO1 Scenario.Q2 [Scenario.Q3]
             (mkAcc [Covered.mk 11 (Text.parseFloat "0.8")] (Text.parseFloat "0.8") 1 [])
             (world Scenario.flaky) (world Scenario.flaky) eq_refl).
  - exact (proj1 (proj2 (oracle_failure_skips_the_pair_only Scenario.chat Scenario.clock)
                    1 None None Scenario.flaky eq_refl)).
Defined.

(** C4, as amended.  A run that goes past its guards (the module exists
    with at least one outcome and the resolved question set is not empty)
    removes exactly the documents of its module whose tag is the tag of the
    run, an empty or missing tag standing for the default scope, and appends
    one fresh document for each outcome, all in that scope; a run that stops
    at a guard leaves the collection as it was.  In both cases the documents
    of every other scope and of every other module are the same, in the
    same order, before and after. *)
Theorem supersede_in_scope_and_frame :
  forall (World : Type) (chatCompletion : World -> string -> string -> ApiResult * World)
         (dateNow : World -> Z * World) moduleId questionIds analysisTag (s : Sys World),
    let s' := runCoverageAnalysis chatCompletion dateNow moduleId questionIds
                analysisTag s in
    let outOfScope c :=
      Coverage.moduleId c <> moduleId
      \/ Coverage.analysisTag c <> orNull analysisTag in
    (proceeds moduleId questionIds (db s) = true ->
     exists fresh,
       Coverages (db s')
       = filter (fun c => negb (scopeQuery moduleId analysisTag c)) (Coverages (db s))
         ++ fresh
       /\ map Coverage.loId fresh
          = map LearningOutcome.loId (outcomesOf moduleId (db s))
       /\ Forall (fun c => Coverage.moduleId c = moduleId
                           /\ Coverage.analysisTag c = orNull analysisTag) fresh)
    /\ (proceeds moduleId questionIds (db s) = false ->
        Coverages (db s') = Coverages (db s))
    /\ (forall c, scopeQuery moduleId analysisTag c = false <-> outOfScope c)
    /\ filter (fun c => negb (scopeQuery moduleId analysisTag c)) (Coverages (db s'))
       = filter (fun c => negb (scopeQuery moduleId analysisTag c)) (Coverages (db s))
    /\ (forall c, outOfScope c -> (In c (Coverages (db s')) <-> In c (Coverages (db s)))).
Proof.
  intros World chatCompletion dateNow moduleId questionIds analysisTag s s' outOfScope.
  pose proof (run_frame chatCompletion dateNow moduleId questionIds analysisTag s)
    as HF. fold s' in HF. unfold deleteMany in HF.
  split; [ |split; [ |split; [ |split]]].
  - intros H.
    exists (savedCoverages moduleId analysisTag (db s) (db s')). split; [ |split].
    + now apply run_coverages.
    + now apply run_one_per_outcome.
    + apply run_saved_Forall; auto.
  - intros H. unfold s'.
    now destruct (run_skipped chatCompletion dateNow moduleId questionIds
                    analysisTag s H) as [-> _].
  - intros c. apply scopeQuery_false.
  - exact HF.
  - intros c Hc. apply scopeQuery_false in Hc.
    assert (forall l, In c (filter (fun c => negb (scopeQuery moduleId analysisTag c)) l)
                      <-> In c l) as Hin.
    { intros l. rewrite filter_In, Hc. simpl. tauto. }
    now rewrite <- (Hin (Coverages (db s'))), HF, Hin.
Qed.

Lemma supersede_in_scope_and_frame_witness :
  proceeds 1 None (db Scenario.start) = true
  /\ proceeds 1 None (db Scenario.withoutQuestions) = false
  /\ Coverages (db (runCoverageAnalysis Scenario.chat Scenario.clock 1 None None
                      Scenario.withoutQuestions))
     = Coverages (db Scenario.withoutQuestions)
  /\ exists fresh,
      Coverages (db (runCoverageAnalysis Scenario.chat Scenario.clock 1 None None
                       Scenario.start))
      = filter (fun c => negb (scopeQuery 1 None c)) (Coverages (db Scenario.start))
        ++ fresh
      /\ map Coverage.loId fresh
         = map LearningOutcome.loId (outcomesOf 1 (db Scenario.start))
      /\ Forall (fun c => Coverage.moduleId c = 1
                          /\ Coverage.analysisTag c = orNull None) fresh.
Proof.
  split; [reflexivity| ]. split; [reflexivity| ]. split.
  - exact (proj1 (proj2 (supersede_in_scope_and_frame Scenario.chat Scenario.clock
                           1 None None Scenario.withoutQuestions)) eq_refl).
  - exact (proj1 (supersede_in_scope_and_frame Scenario.chat Scenario.clock
                    1 None None Scenario.start) eq_refl).
Defined.

(** The claim C4 as it is worded fails in two ways.  On a run that stops
    at a guard (the module has outcomes but no question), the stored
    document of the scope of the run is still there after the run.  And a
    run whose tag is the empty string does not work on a scope of its own:
    it deletes the stored document of the default scope and saves its
    documents without a tag. *)
Lemma supersede_counterexample :
  (let s := Scenario.withoutQuestions in
   let s' := runCoverageAnalysis Scenario.chat Scenario.clock 1 None None s in
   In (Scenario.stale 500 Covered 80) (Coverages (db s))
   /\ scopeQuery 1 None (Scenario.stale 500 Covered 80) = true
   /\ In (Scenario.stale 500 Covered 80) (Coverages (db s'))
   /\ Coverages (db s') = Coverages (db s))
  /\
  (let s := Scenario.withStale in
   let s' := runCoverageAnalysis Scenario.chat Scenario.clock 1 None (Some "") s in
   Coverage.analysisTag (Scenario.stale 500 Covered 80) = None
   /\ In (Scenario.stale 500 Covered 80) (Coverages (db s))
   /\ ~ In (Scenario.stale 500 Covered 80) (Coverages (db s'))
   /\ map Coverage.analysisTag (Coverages (db s')) = [None; None]).
Proof.
  split.
  - repeat split; try reflexivity; now left.
  - split; [reflexivity| ]. split; [now left| ]. split; [ |reflexivity].
    vm_compute. intros [H|[H|[]]]; discriminate H.
Qed.

(** C6, as amended.  Given a non-empty array of identifiers, the resolved
    set holds exactly the questions of the collection that belong to the
    module and whose identifier is in the array, so that a question of
    another module is left out even when its identifier is given; and
    whenever the resolved set is empty, the run changes nothing in the
    database: it saves no document and deletes none. *)
Theorem explicit_subset_is_restricted_to_the_module :
  forall (World : Type) (chatCompletion : World -> string -> string -> ApiResult * World)
         (dateNow : World -> Z * World) moduleId,
    (forall id ids qs q,
        In q (resolveQuestions moduleId (Some (id :: ids)) qs) <->
        In q qs /\ Question.moduleId q = moduleId /\ In (Question._id q) (id :: ids))
    /\
    (forall questionIds analysisTag (s : Sys World),
        resolveQuestions moduleId questionIds (Questions (db s)) = [] ->
        db (runCoverageAnalysis chatCompletion dateNow moduleId questionIds
              analysisTag s) = db s).
Proof.
  intros World chatCompletion dateNow moduleId. split.
  - intros. apply resolveQuestions_selected.
  - intros questionIds analysisTag s E.
    apply (proceeds_false_no_questions moduleId questionIds (db s)) in E.
    now destruct (run_skipped chatCompletion dateNow moduleId questionIds
                    analysisTag s E).
Qed.

Lemma explicit_subset_is_restricted_to_the_module_witness :
  resolveQuestions 1 (Some [99]) (Questions (db Scenario.start)) = []
  /\ db (runCoverageAnalysis Scenario.chat Scenario.clock 1 (Some [99]) None
           Scenario.start) = db Scenario.start.
Proof.
  split; [reflexivity| ].
  exact (proj2 (explicit_subset_is_restricted_to_the_module
                  Scenario.chat Scenario.clock 1)
           (Some [99]) None Scenario.start eq_refl).
Defined.

(** The claim C6 as it is worded fails on the empty array: it is an
    explicit list, no question matches any of its identifiers, and yet the
    three questions of the module are resolved and the run saves documents. *)
Lemma explicit_subset_counterexample :
  resolveQuestions 1 (Some []) (Questions (db Scenario.start))
  = [Scenario.Q1; Scenario.Q2; Scenario.Q3]
  /\ existsb (Nat.eqb (Question._id Scenario.Q1)) [] = false
  /\ List.length
       (Coverages (db (runCoverageAnalysis Scenario.chat Scenario.clock 1 (Some [])
                         None Scenario.start))) = 2.
Proof.
  repeat split; reflexivity.
Qed.

(** C10, as amended.  With an empty array of identifiers the resolved set
    is every question of the module, the guards decide as they do without
    identifiers, and the run saves the same documents, writes the same
    console and leaves the same world as the run without identifiers, but
    for one field: [analyzedQuestions] is the empty array that was passed,
    where the run without identifiers stores [null]. *)
Theorem empty_array_analyzes_the_whole_module :
  forall (World : Type) (chatCompletion : World -> string -> string -> ApiResult * World)
         (dateNow : World -> Z * World) moduleId analysisTag (s : Sys World),
    let viaNull :=
      runCoverageAnalysis chatCompletion dateNow moduleId None analysisTag s in
    let viaEmpty :=
      runCoverageAnalysis chatCompletion dateNow moduleId (Some []) analysisTag s in
    resolveQuestions moduleId (Some []) (Questions (db s))
    = findQuestions moduleId (Questions (db s))
    /\ proceeds moduleId (Some []) (db s) = proceeds moduleId None (db s)
    /\ (proceeds moduleId None (db s) = true ->
        savedCoverages moduleId analysisTag (db s) (db viaEmpty)
        = map (withAnalyzedQuestions (Some []))
              (savedCoverages moduleId analysisTag (db s) (db viaNull))
        /\ Forall (fun c => Coverage.analyzedQuestions c = Some [])
                  (savedCoverages moduleId analysisTag (db s) (db viaEmpty))
        /\ Forall (fun c => Coverage.analyzedQuestions c = None)
                  (savedCoverages moduleId analysisTag (db s) (db viaNull))
        /\ console viaEmpty = console viaNull
        /\ world viaEmpty = world viaNull).
Proof.
  intros World chatCompletion dateNow moduleId analysisTag s viaNull viaEmpty.
  split; [reflexivity| ]. split; [reflexivity| ].
  intros H.
  destruct (run_empty_array chatCompletion dateNow moduleId analysisTag s H)
    as (E1 & E2 & E3).
  fold viaNull viaEmpty in E1, E2, E3.
  repeat split; auto.
  - rewrite E1. apply Forall_forall. intros c Hc.
    apply in_map_iff in Hc. now destruct Hc as (c0 & <- & _).
  - unfold viaNull. apply run_saved_Forall; auto.
Qed.

Lemma empty_array_analyzes_the_whole_module_witness :
  proceeds 1 None (db Scenario.start) = true
  /\ Forall (fun c => Coverage.analyzedQuestions c = Some [])
            (savedCoverages 1 None (db Scenario.start)
               (db (runCoverageAnalysis Scenario.chat Scenario.clock 1 (Some []) None
                      Scenario.start))).
Proof.
  split; [reflexivity| ].
  exact (proj1 (proj2 (proj2 (proj2 (empty_array_analyzes_the_whole_module
                                       Scenario.chat Scenario.clock 1 None
                                       Scenario.start)) eq_refl))).
Defined.

(** The claim C10 as it is worded fails on its last part: after a run with
    an empty array the saved documents carry the empty array, not [null]. *)
Lemma empty_array_counterexample :
  map Coverage.analyzedQuestions
      (Coverages (db (runCoverageAnalysis Scenario.chat Scenario.clock 1 (Some []) None
                        Scenario.start)))
  = [Some []; Some []]
  /\ Some (@nil ObjectId) <> None.
Proof.
  split; [reflexivity|discriminate].
Qed.

(** C5, at its failing input.  The store holds two documents for LO1 in the
    default scope, dated 500 and 600, and the module has LO1 as its only
    outcome.  The report keeps the document dated 600 alone; the statistics
    count both: two Covered outcomes out of one, and the mean of 80 and
    90. *)
Theorem stats_count_duplicates :
  getStats 1 None Scenario.duplicated
  = Some (Stats.mk 1 2 0 0 (JS.of_Z 85))
  /\ option_map (map (fun e => (ReportEntry.loId e, ReportEntry.analyzedAt e,
                                ReportEntry.coveragePercentage e)))
                (getReport 1 None Scenario.duplicated)
     = Some [("LO1", 600%Z, JS.of_Z 90)].
Proof.
  split; reflexivity.
Qed.

(** The sibling reader does remove the duplicates.  The entries of a report have pairwise distinct
    outcome identifiers; each is built from a document of the scope that is
    at least as recent as every document of the scope with the same
    identifier; and every identifier that has a document in the scope has
    an entry. *)
Theorem report_keeps_latest_per_outcome :
  forall moduleId analysisTag d results,
    getReport moduleId analysisTag d = Some results ->
    NoDup (map ReportEntry.loId results)
    /\ (forall e, In e results ->
          exists c, In c (Coverages d)
                    /\ scopeQuery moduleId analysisTag c = true
                    /\ ReportEntry.loId e = Coverage.loId c
                    /\ ReportEntry.analyzedAt e = Coverage.analyzedAt c
                    /\ ReportEntry.coveragePercentage e = Coverage.coveragePercentage c
                    /\ ReportEntry.status e = Coverage.status c
                    /\ forall c', In c' (Coverages d) ->
                                  scopeQuery moduleId analysisTag c' = true ->
                                  Coverage.loId c' = Coverage.loId c ->
                                  (Coverage.analyzedAt c' <= Coverage.analyzedAt c)%Z)
    /\ (forall c, In c (Coverages d) -> scopeQuery moduleId analysisTag c = true ->
                  In (Coverage.loId c) (map ReportEntry.loId results)).
Proof.
  exact ReaderFacts.getReport_latest.
Qed.

Lemma report_keeps_latest_per_outcome_witness :
  exists results,
    getReport 1 None Scenario.duplicated = Some results
    /\ NoDup (map ReportEntry.loId results).
Proof.
  eexists. split; [reflexivity| ].
  exact (proj1 (report_keeps_latest_per_outcome 1 None Scenario.duplicated eq_refl)).
Defined.

Lemma calculateSimilarity_defaults_and_clamps_witness :
  Scenario.chat (world Scenario.start) "understand loops" "Q1"
  = (Completion (Some "0.8"), world Scenario.start)
  /\ (exists s,
         calculateSimilarity Scenario.chat (world Scenario.start)
           "understand loops" "Q1" = (Ok s, world Scenario.start)
         /\ (Text.parseFloat (Text.trim "0.8") = JS.NaN -> s = JS.of_Z 0))
  /\ JS.in_range 0 1 (Text.parseFloat "0.8").
Proof.
  split; [reflexivity| ].
  pose proof (calculateSimilarity_defaults_and_clamps Scenario.chat
                (world Scenario.start) "understand loops" "Q1") as [Hrange Hclamp].
  split.
  - destruct (Hclamp "0.8" (world Scenario.start) eq_refl) as (s & E & Hnan & _).
    exists s. split; [exact E|exact Hnan].
  - exact (Hrange (Text.parseFloat "0.8") (world Scenario.start) eq_refl).
Defined.

(** The values returned for some completions. *)
Example calculateSimilarity_examples :
  let call content :=
    fst (calculateSimilarity
           (fun (w : unit) (_ _ : string) => (Completion (Some content), w))
           tt "outcome" "question") in
  call "0.85" = Ok (JS.round64 (17 # 20))
  /\ call "not a number" = Ok (JS.of_Z 0)
  /\ call "1.5" = Ok (JS.of_Z 1)
  /\ call "-3" = Ok (JS.of_Z 0)
  /\ call "Infinity" = Ok (JS.of_Z 1)
  /\ call "  0.3 " = Ok (JS.round64 (3 # 10))
  /\ call "0.30000000000000001" = Ok (JS.round64 (3 # 10))
  /\ call "1e-400" = Ok (JS.of_Z 0)
  /\ fst (calculateSimilarity (fun (w : unit) (_ _ : string) => (Completion None, w))
            tt "outcome" "question") = Throw
  /\ fst (calculateSimilarity (fun (w : unit) (_ _ : string) => (ApiError, w))
            tt "outcome" "question") = Throw.
Proof.
  repeat split; vm_compute; reflexivity.
Qed.

(** C9, at its failing inputs.  The generator answers a single MCQ, with
    its text and no designated answer.  When its options are the array of
    "for" and "while", the question is saved with these two followed by
    "Option C" and "Option D", and with "for" as its answer.  When its
    options are the string "abcd", the request succeeds and the question is
    saved with "abcd" as its only option and "a" as its answer.  When its
    options are the string "ab", the request fails and nothing is saved. *)
Theorem string_options_are_not_repaired :
  let request mcq :=
    fst (generateQuestionsRoute (Scenario.generating mcq) Scenario.freshId (Some 1)
           (Some "LO1") 2%Z 1%Z Scenario.database (world Scenario.start)) in
  let saved options correctAnswer :=
    Question.mk 1000 1 "What is a loop?" MCQ AI options correctAnswer (JS.of_Z 0) "" in
  let after q :=
    mkDatabase (Modules Scenario.database) (Questions Scenario.database ++ [q])
      (Coverages Scenario.database) in
  request Scenario.twoOptions
  = (Success [saved ["for"; "while"; "Option C"; "Option D"] "for"] [],
     after (saved ["for"; "while"; "Option C"; "Option D"] "for"))
  /\ request Scenario.fourLetters
     = (Success [saved ["abcd"] "a"] [], after (saved ["abcd"] "a"))
  /\ request Scenario.twoLetters = (ServerError, Scenario.database).
Proof.
  cbv zeta. split; [ |split]; vm_compute; reflexivity.
Qed.

(** X30.  The repair of the options that came as an array, or did not
    come.  Two options are followed by "Option C" and "Option D".  On a
    generated bundle whose items all have a text and whose MCQs all have
    such options, the request succeeds and appends to the collection the
    questions of its answer, the MCQs first, and nothing else changes; each
    MCQ of the answer is the repair of the generated MCQ of its position:
    of the module, from the generator, with the text that came, with four
    options, the first four of those that came followed by the placeholders
    of the missing positions, and with the answer that came when there is
    one and the first saved option otherwise.  When the options of one of
    the MCQs are [true], a number other than zero, an object or a string of
    one to three code units, the request fails. *)
Theorem generated_arrays_are_repaired_and_saved :
  (forall question a b correctAnswer,
      repairOptions (GeneratedMCQ.mk question (GeneratedMCQ.Arr [a; b]) correctAnswer)
      = Ok (AnArray [a; b; "Option C"; "Option D"]))
  /\ (forall (World : Type) generateQuestions newObjectId
             moduleId loId mcqCount structuredCount d (w : World) mdl lo g w1,
         loId <> "" -> mcqCount <> 0%Z -> structuredCount <> 0%Z ->
         findById moduleId (Modules d) = Some mdl ->
         find (fun l => String.eqb (LearningOutcome.loId l) loId)
              (ModuleDoc.learningOutcomes mdl) = Some lo ->
         generateQuestions w (LearningOutcome.description lo)
           (LearningOutcome.bloomLevel lo) mcqCount structuredCount = (Ok g, w1) ->
         let mcqs := match Generated.mcqs g with Some l => l | None => [] end in
         let items := match Generated.structured g with Some l => l | None => [] end in
         let answer :=
           generateQuestionsRoute generateQuestions newObjectId (Some moduleId)
             (Some loId) mcqCount structuredCount d w in
         (Forall (fun mcq => truthy (GeneratedMCQ.question mcq) = true
                             /\ arrayOf (GeneratedMCQ.options mcq) <> None) mcqs ->
          Forall (fun i => truthy (GeneratedStructured.question i) = true) items ->
          exists savedMCQs savedStructured,
            fst (fst answer) = Success savedMCQs savedStructured
            /\ Questions (snd (fst answer)) = Questions d ++ savedMCQs ++ savedStructured
            /\ Modules (snd (fst answer)) = Modules d
            /\ Coverages (snd (fst answer)) = Coverages d
            /\ List.length savedStructured = List.length items
            /\ Forall2 (fun mcq q =>
                          Question.moduleId q = moduleId
                          /\ Question.questionType q = MCQ
                          /\ Question.source q = AI
                          /\ GeneratedMCQ.question mcq = Some (Question.questionText q)
                          /\ (exists given,
                                arrayOf (GeneratedMCQ.options mcq) = Some given
                                /\ Question.options q
                                   = firstn 4 given
                                     ++ map placeholder
                                          (seq (List.length given)
                                               (4 - List.length given)))
                          /\ List.length (Question.options q) = 4
                          /\ (forall a, GeneratedMCQ.correctAnswer mcq = Some a ->
                                        a <> "" -> Question.correctAnswer q = a)
                          /\ (GeneratedMCQ.correctAnswer mcq = None
                              \/ GeneratedMCQ.correctAnswer mcq = Some "" ->
                              Question.correctAnswer q = nth 0 (Question.options q) ""))
                       mcqs savedMCQs)
         /\ (Exists (fun mcq =>
                       match GeneratedMCQ.options mcq with
                       | GeneratedMCQ.Bool b => b = true
                       | GeneratedMCQ.Num n => JS.truthy n = true
                       | GeneratedMCQ.Str s =>
                           1 <= Text.jsLength s /\ Text.jsLength (Text.slice 4 s) < 4
                       | GeneratedMCQ.Obj => True
                       | _ => False
                       end) mcqs ->
             fst (fst answer) = ServerError)).
Proof.
  split; [reflexivity| ].
  intros World generateQuestions newObjectId moduleId loId mcqCount structuredCount
         d w mdl lo g w1 Hlo Hm Hs Hmod Hfind Hgen mcqs items answer.
  assert (truthy (Some loId) = true) as Hlo'.
  { unfold truthy. destruct (String.eqb_spec loId ""); [contradiction|reflexivity]. }
  split.
  - intros HM HS.
    assert (Forall (fun mcq => truthy (GeneratedMCQ.question mcq) = true
                               /\ repairOptions mcq <> Throw) mcqs) as HM'.
    { eapply Forall_impl; [ |exact HM]. intros mcq [Ht Ha]. split; [exact Ht| ].
      destruct (arrayOf (GeneratedMCQ.options mcq)) as [given| ] eqn:A;
        [ |contradiction].
      rewrite (RepairFacts.repairOptions_array mcq A). discriminate. }
    destruct (generateQuestionsRoute_success generateQuestions newObjectId
                moduleId loId d w Hlo' Hm Hs Hmod Hfind Hgen HM' HS)
      as (savedMCQs & savedStructured & d' & w' & E & HF & HL & HQ & HMo & HC).
    exists savedMCQs, savedStructured. unfold answer. rewrite E. cbn [fst snd].
    split; [reflexivity| ]. split; [exact HQ| ]. split; [exact HMo| ].
    split; [exact HC| ]. split; [exact HL| ].
    fold mcqs in HF. clear E. revert HM. clear -HF.
    induction HF as [|mcq q mcqs' saved' Hr _ IH]; intros HM; constructor.
    + inversion HM as [|x l [_ Ha] _]; subst.
      destruct Hr as (Hmod & Hty & Hso & Hte & options & R & Ho & Hc).
      destruct (arrayOf (GeneratedMCQ.options mcq)) as [given| ] eqn:A;
        [ |contradiction].
      rewrite (RepairFacts.repairOptions_array mcq A) in R. injection R as <-.
      cbn [castOptions] in Ho.
      split; [exact Hmod| ]. split; [exact Hty| ]. split; [exact Hso| ].
      split; [exact Hte| ]. split; [exists given; split; [reflexivity|exact Ho]| ].
      split; [rewrite Ho; apply RepairFacts.fourOptions_length| ].
      destruct (RepairFacts.repairCorrectAnswer_spec mcq (AnArray (fourOptions given)))
        as [H1 H2].
      split.
      * intros a Ea Na. rewrite Hc. now apply H1.
      * intros Hn. rewrite Hc, (H2 Hn), Ho. apply RepairFacts.firstOption_array.
    + apply IH. now inversion HM.
  - intros HE.
    apply (generateQuestionsRoute_failure generateQuestions newObjectId
             moduleId loId d w Hlo' Hm Hs Hmod Hfind Hgen).
    fold mcqs. eapply Exists_impl; [ |exact HE].
    intros mcq. unfold repairOptions, sliceOptions.
    destruct (GeneratedMCQ.options mcq) as [ |b|n|s|given| ];
      try contradiction; try reflexivity.
    + now intros ->.
    + now intros ->.
    + intros [H1 H4].
      assert (truthy (Some s) = true) as ->.
      { unfold truthy. destruct (String.eqb_spec s ""); [ |reflexivity].
        subst s. vm_compute in H1. lia. }
      cbn [fillOptions]. apply Nat.ltb_lt in H4. now rewrite H4.
Qed.

Lemma Database_eta d : mkDatabase (Modules d) (Questions d) (Coverages d) = d.
Proof.
  now destruct d.
Qed.

Lemma generated_arrays_are_repaired_and_saved_witness :
  exists q,
    fst (generateQuestionsRoute Scenario.generator Scenario.freshId (Some 1)
           (Some "LO1") 2%Z 1%Z Scenario.database (world Scenario.start))
    = (Success [q] [],
       mkDatabase (Modules Scenario.database) (Questions Scenario.database ++ [q])
         (Coverages Scenario.database))
    /\ Question.options q = ["for"; "while"; "Option C"; "Option D"]
    /\ Question.correctAnswer q = "for".
Proof.
  destruct (proj1 (proj2 generated_arrays_are_repaired_and_saved
                     Scenario.World Scenario.generator Scenario.freshId 1 "LO1" 2%Z 1%Z
                     Scenario.database (world Scenario.start) Scenario.CS101
                     Scenario.LO1 (Generated.mk (Some [Scenario.twoOptions]) None)
                     (world Scenario.start)
                     ltac:(discriminate) ltac:(discriminate) ltac:(discriminate)
                     eq_refl eq_refl eq_refl)
              ltac:(repeat constructor; discriminate) ltac:(constructor))
    as (savedMCQs & savedStructured & E & HQ & HM & HC & HL & HF).
  destruct savedStructured; [ |discriminate HL].
  inversion HF as [|mcq q l l' Hq Hrest]; subst. inversion Hrest; subst.
  destruct Hq as (_ & _ & _ & _ & (given & A & Ho) & _ & _ & Hc).
  injection A as <-.
  exists q. split; [ |split; [exact Ho| ]].
  - apply injective_projections; cbn [fst snd]; [exact E| ].
    cbn [app] in HQ. rewrite <- HQ, <- HM, <- HC. symmetry. apply Database_eta.
  - rewrite (Hc (or_introl eq_refl)), Ho. reflexivity.
Defined.

(** What is saved in the scenario of the specification: an MCQ that came
    with two options and no designated answer. *)
Example two_options_are_padded :
  let '(response, d', _) :=
    generateQuestionsRoute Scenario.generator Scenario.freshId (Some 1) (Some "LO1")
      2%Z 1%Z Scenario.database (world Scenario.start) in
  match response with
  | Success [q] [] =>
      Question.options q = ["for"; "while"; "Option C"; "Option D"]
      /\ Question.correctAnswer q = "for"
      /\ In q (Questions d')
  | _ => False
  end.
Proof.
  simpl. repeat split; auto. right. right. right. right. now left.
Qed.

(* ================================================================== *)
(** * Further properties of the coverage engine *)
(* ================================================================== *)

Lemma filter_all {A} (f : A -> bool) (l : list A) :
  Forall (fun x => f x = true) l -> filter f l = l.
Proof.
  induction 1 as [|x l Hx _ IH]; simpl; auto. now rewrite Hx, IH.
Qed.

Lemma filter_filter_negb {A} (f : A -> bool) (l : list A) :
  filter f (filter (fun x => negb (f x)) l) = [].
Proof.
  induction l as [|x l IH]; simpl; auto.
  destruct (f x) eqn:E; simpl; rewrite ?E; auto.
Qed.

Lemma coveredBy_length tr : List.length (coveredBy tr) <= List.length tr.
Proof.
  induction tr as [|[q r] tr IH]; simpl; auto.
  unfold coveredBy in *. simpl. rewrite length_app.
  unfold entryOf at 1; simpl.
  destruct r as [s| ]; [destruct (JS.gtb s threshold)| ]; simpl; lia.
Qed.

Lemma coveredBy_ids_In tr qid :
  In qid (map Covered.questionId (coveredBy tr)) ->
  In qid (map (fun a => Question._id (fst a)) tr).
Proof.
  intros H. apply in_map_iff in H. destruct H as ([qid' sc] & <- & Hin).
  apply coveredBy_In in Hin. destruct Hin as (q & Hin & E & _).
  apply in_map_iff. exists (q, Ok sc). auto.
Qed.

Lemma coveredBy_ids_NoDup tr :
  NoDup (map (fun a => Question._id (fst a)) tr) ->
  NoDup (map Covered.questionId (coveredBy tr)).
Proof.
  induction tr as [|[q r] tr IH]; simpl; intros H; [constructor| ].
  inversion H as [|x l Hnotin Hnd]; subst.
  unfold coveredBy. simpl. rewrite map_app. fold (coveredBy tr).
  unfold entryOf at 1; simpl.
  destruct r as [s| ]; [destruct (JS.gtb s threshold)| ]; simpl; auto.
  constructor; auto. intros Hin. apply Hnotin. now apply coveredBy_ids_In.
Qed.

Section MoreEngineFacts.

Variable World : Type.
Variable chatCompletion : World -> string -> string -> ApiResult * World.
Variable dateNow : World -> Z * World.

Lemma run_scope_exact moduleId questionIds analysisTag (s : Sys World) :
  proceeds moduleId questionIds (db s) = true ->
  findCoverage (scopeQuery moduleId analysisTag)
    (Coverages (db (runCoverageAnalysis chatCompletion dateNow moduleId questionIds
                      analysisTag s)))
  = savedCoverages moduleId analysisTag (db s)
      (db (runCoverageAnalysis chatCompletion dateNow moduleId questionIds
             analysisTag s)).
Proof.
  intros H. unfold findCoverage. rewrite run_coverages at 1 by exact H.
  rewrite filter_app. unfold deleteMany. rewrite filter_filter_negb. simpl.
  apply filter_all. now apply run_saved_in_scope.
Qed.

Lemma run_proceeds_again moduleId questionIds analysisTag m' q' (s : Sys World) :
  proceeds m' q'
    (db (runCoverageAnalysis chatCompletion dateNow moduleId questionIds analysisTag s))
  = proceeds m' q' (db s).
Proof.
  destruct (run_keeps_modules_questions chatCompletion dateNow moduleId questionIds
              analysisTag s) as [HM HQ].
  unfold proceeds. now rewrite HM, HQ.
Qed.

Lemma run_outcomesOf moduleId questionIds analysisTag m' (s : Sys World) :
  outcomesOf m'
    (db (runCoverageAnalysis chatCompletion dateNow moduleId questionIds analysisTag s))
  = outcomesOf m' (db s).
Proof.
  destruct (run_keeps_modules_questions chatCompletion dateNow moduleId questionIds
              analysisTag s) as [HM _].
  unfold outcomesOf. now rewrite HM.
Qed.

(** X1.  After a run that goes past its guards, the scope of the run holds
    one document for each outcome of the module, in the order of the
    outcomes, and nothing else, whatever it held before; running the same
    analysis again leaves it with one document for each outcome again. *)
Theorem scope_holds_one_document_per_outcome :
  forall moduleId questionIds analysisTag (s : Sys World),
    proceeds moduleId questionIds (db s) = true ->
    let run := runCoverageAnalysis chatCompletion dateNow moduleId questionIds
                 analysisTag in
    map Coverage.loId
        (findCoverage (scopeQuery moduleId analysisTag) (Coverages (db (run s))))
    = map LearningOutcome.loId (outcomesOf moduleId (db s))
    /\ map Coverage.loId
           (findCoverage (scopeQuery moduleId analysisTag) (Coverages (db (run (run s)))))
       = map LearningOutcome.loId (outcomesOf moduleId (db s)).
Proof.
  intros moduleId questionIds analysisTag s H run. unfold run. split.
  - rewrite run_scope_exact by exact H. now apply run_one_per_outcome.
  - assert (proceeds moduleId questionIds
              (db (runCoverageAnalysis chatCompletion dateNow moduleId questionIds
                     analysisTag s)) = true) as H'
        by (now rewrite run_proceeds_again).
    rewrite run_scope_exact by exact H'.
    rewrite run_one_per_outcome by exact H'. apply f_equal, run_outcomesOf.
Qed.

(** X2.  Every document saved by a run carries the module, the resolved
    tag, the identifiers that were passed and, as [questionCount], the
    number of resolved questions, covering or not; its covering set names
    only resolved questions, so it is no larger than that number, and it
    names none twice when the resolved questions have distinct
    identifiers. *)
Theorem saved_documents_describe_the_run :
  forall moduleId questionIds analysisTag (s : Sys World),
    proceeds moduleId questionIds (db s) = true ->
    let questions := resolveQuestions moduleId questionIds (Questions (db s)) in
    Forall (fun c =>
              Coverage.moduleId c = moduleId
              /\ Coverage.analysisTag c = orNull analysisTag
              /\ Coverage.analyzedQuestions c = questionIds
              /\ Coverage.questionCount c = Some (List.length questions)
              /\ List.length (Coverage.questionsCovered c) <= List.length questions
              /\ (forall qid, In qid (map Covered.questionId (Coverage.questionsCovered c)) ->
                              In qid (map Question._id questions))
              /\ (NoDup (map Question._id questions) ->
                  NoDup (map Covered.questionId (Coverage.questionsCovered c))))
           (savedCoverages moduleId analysisTag (db s)
              (db (runCoverageAnalysis chatCompletion dateNow moduleId questionIds
                     analysisTag s))).
Proof.
  intros moduleId questionIds analysisTag s H questions.
  apply run_saved_Forall; auto. fold questions. intros lo w now.
  unfold recordOf; cbn [fst snd]. simpl.
  pose proof (similarityAnswers_questions chatCompletion lo questions w) as Hq.
  set (tr := fst (similarityAnswers chatCompletion lo questions w)) in *.
  assert (map (fun a => Question._id (fst a)) tr = map Question._id questions) as Hid
      by (now rewrite <- Hq, map_map).
  repeat split.
  - rewrite <- Hq, length_map. apply coveredBy_length.
  - intros qid Hin. rewrite <- Hid. now apply coveredBy_ids_In.
  - intros Hnd. apply coveredBy_ids_NoDup. now rewrite Hid.
Qed.

(** X3.  A run never writes to the modules or to the questions, and never
    stores a document whose tag is the empty string: a collection without
    such a tag stays without one. *)
Theorem run_writes_coverage_only :
  forall moduleId questionIds analysisTag (s : Sys World),
    let s' := runCoverageAnalysis chatCompletion dateNow moduleId questionIds
                analysisTag s in
    Modules (db s') = Modules (db s)
    /\ Questions (db s') = Questions (db s)
    /\ (Forall (fun c => Coverage.analysisTag c <> Some "") (Coverages (db s)) ->
        Forall (fun c => Coverage.analysisTag c <> Some "") (Coverages (db s'))).
Proof.
  intros moduleId questionIds analysisTag s s'.
  destruct (run_keeps_modules_questions chatCompletion dateNow moduleId questionIds
              analysisTag s) as [HM HQ].
  split; [exact HM| ]. split; [exact HQ| ].
  intros Hold. unfold s'.
  destruct (proceeds moduleId questionIds (db s)) eqn:H.
  - rewrite run_coverages by exact H. apply Forall_app. split.
    + unfold deleteMany. apply Forall_forall. intros c Hc.
      apply filter_In in Hc. rewrite Forall_forall in Hold. now apply Hold.
    + apply run_saved_Forall; auto. intros lo w now.
      unfold recordOf, orNull, truthy; simpl.
      destruct analysisTag as [t| ]; [ |discriminate].
      destruct (String.eqb_spec t ""); simpl; congruence.
  - now destruct (run_skipped chatCompletion dateNow moduleId questionIds
                    analysisTag s H) as [-> _].
Qed.

End MoreEngineFacts.

(* ================================================================== *)
(** * The other routes of the coverage router: properties *)
(* ================================================================== *)

Lemma someTags_In tags t : In t (someTags tags) <-> In (Some t) tags.
Proof.
  unfold someTags. rewrite in_flat_map. split.
  - intros ([t'| ] & Hin & Ht); simpl in Ht; [ |contradiction].
    destruct Ht as [->|[]]. exact Hin.
  - intros H. exists (Some t). split; auto. now left.
Qed.

Lemma someTags_NoDup tags : NoDup tags -> NoDup (someTags tags).
Proof.
  induction 1 as [|[t| ] tags Hnot _ IH]; simpl; auto.
  - constructor.
  - constructor; auto. intros Hin. apply Hnot. now apply someTags_In.
Qed.

Lemma analysisTags_In moduleId d t :
  In t (analysisTags moduleId d) <->
  exists c, In c (Coverages d)
            /\ Coverage.moduleId c = moduleId
            /\ Coverage.analysisTag c = Some t.
Proof.
  unfold analysisTags.
  rewrite someTags_In. unfold distinctTags. rewrite nodup_In, in_map_iff. split.
  - intros (c & E & Hc). apply filter_In in Hc. destruct Hc as [Hc Hf].
    apply andb_true_iff in Hf. destruct Hf as [Hm _]. apply Nat.eqb_eq in Hm.
    exists c. auto.
  - intros (c & Hc & Hm & E). exists c. split; auto.
    apply filter_In. split; auto. rewrite E. simpl.
    rewrite andb_true_r. now apply Nat.eqb_eq.
Qed.

(** X6.  The tags listed for a module are the tags, each once, of the
    documents of the module that have one; the default scope is never
    among them, and a module without tagged document has no tag. *)
Theorem analysisTags_are_the_tags_in_use :
  forall moduleId d,
    NoDup (analysisTags moduleId d)
    /\ (forall t, In t (analysisTags moduleId d) <->
                  exists c, In c (Coverages d)
                            /\ Coverage.moduleId c = moduleId
                            /\ Coverage.analysisTag c = Some t)
    /\ ((forall c, In c (Coverages d) -> Coverage.moduleId c = moduleId ->
                   Coverage.analysisTag c = None) ->
        analysisTags moduleId d = []).
Proof.
  intros moduleId d.
  pose proof (analysisTags_In moduleId d) as Hin.
  split; [ |split; [exact Hin| ]].
  - unfold analysisTags. apply someTags_NoDup, NoDup_nodup.
  - intros Hnone. destruct (analysisTags moduleId d) as [|t l] eqn:E; auto.
    destruct (proj1 (Hin t) (or_introl eq_refl)) as (c & Hc & Hm & Et).
    rewrite (Hnone c Hc Hm) in Et. discriminate.
Qed.

Section RouteFacts.

Variable World : Type.
Variable chatCompletion : World -> string -> string -> ApiResult * World.
Variable dateNow : World -> Z * World.

Lemma run_frame_In moduleId questionIds analysisTag (s : Sys World) c :
  Coverage.moduleId c <> moduleId \/ Coverage.analysisTag c <> orNull analysisTag ->
  (In c (Coverages (db (runCoverageAnalysis chatCompletion dateNow moduleId questionIds
                          analysisTag s)))
   <-> In c (Coverages (db s))).
Proof.
  intros Hc. apply scopeQuery_false in Hc.
  pose proof (run_frame chatCompletion dateNow moduleId questionIds analysisTag s) as HF.
  unfold deleteMany in HF.
  assert (forall l, In c (filter (fun c => negb (scopeQuery moduleId analysisTag c)) l)
                    <-> In c l) as Hin.
  { intros l. rewrite filter_In, Hc. simpl. tauto. }
  now rewrite <- (Hin (Coverages (db (runCoverageAnalysis _ _ _ _ _ _)))), HF, Hin.
Qed.

(** X7.  A run that goes past its guards with a non-empty tag makes that
    tag listed for its module.  No run changes whether any other tag is
    listed, for its module or for another; in particular a run in the
    default scope changes no list of tags. *)
Theorem tags_after_a_run :
  forall moduleId questionIds analysisTag (s : Sys World),
    let s' := runCoverageAnalysis chatCompletion dateNow moduleId questionIds
                analysisTag s in
    (forall t, proceeds moduleId questionIds (db s) = true ->
               orNull analysisTag = Some t ->
               In t (analysisTags moduleId (db s')))
    /\ (forall m t, m <> moduleId \/ orNull analysisTag <> Some t ->
                    (In t (analysisTags m (db s')) <-> In t (analysisTags m (db s)))).
Proof.
  intros moduleId questionIds analysisTag s s'. split.
  - intros t H Et.
    apply analysisTags_In.
    pose proof (run_one_per_outcome chatCompletion dateNow moduleId questionIds
                  analysisTag s H) as Hids.
    pose proof (run_saved_Forall chatCompletion dateNow moduleId questionIds analysisTag s
                  (fun c => Coverage.moduleId c = moduleId
                            /\ Coverage.analysisTag c = orNull analysisTag) H) as HF.
    fold s' in Hids, HF.
    destruct (savedCoverages moduleId analysisTag (db s) (db s')) as [|c rest] eqn:Es.
    + exfalso. unfold proceeds, outcomesOf in *.
      destruct (findById moduleId (Modules (db s))) as [mdl| ]; [ |discriminate].
      destruct (ModuleDoc.learningOutcomes mdl); simpl in *; discriminate.
    + assert (Coverage.moduleId c = moduleId
              /\ Coverage.analysisTag c = orNull analysisTag) as [Hm Ht].
      { assert (Forall (fun c => Coverage.moduleId c = moduleId
                                 /\ Coverage.analysisTag c = orNull analysisTag)
                       (c :: rest)) as HF' by (apply HF; intros; split; reflexivity).
        now inversion HF'. }
      exists c. split; [ |split; [exact Hm|now rewrite Ht]].
      unfold s'. rewrite run_coverages by exact H. fold s'. rewrite Es.
      apply in_or_app. right. now left.
  - intros m t Hmt.
    rewrite !analysisTags_In.
    split; intros (c & Hc & Hm & Et); exists c; (split; [ |auto]).
    + apply run_frame_In in Hc; auto.
      destruct Hmt as [N|N]; [left; congruence|right; congruence].
    + apply run_frame_In; auto.
      destruct Hmt as [N|N]; [left; congruence|right; congruence].
Qed.

(** X4.  When the module has an outcome and a question is resolved,
    [POST /analyze] answers with the number of outcomes, the number of
    resolved questions, the resolved tag and one result for each outcome of
    the module, in their order, whatever the scope held before; each result
    carries the resolved tag and the number of resolved questions. *)
Theorem analyze_answers_one_result_per_outcome :
  forall moduleId questionIds analysisTag (s : Sys World),
    proceeds moduleId questionIds (db s) = true ->
    let questions := resolveQuestions moduleId questionIds (Questions (db s)) in
    exists results,
      analyzeRoute chatCompletion dateNow moduleId questionIds analysisTag s
      = (AnalyzeCompleted (List.length (outcomesOf moduleId (db s)))
           (List.length questions) (orNull analysisTag) results,
         runCoverageAnalysis chatCompletion dateNow moduleId questionIds analysisTag s)
      /\ map AnalyzeEntry.loId results
         = map LearningOutcome.loId (outcomesOf moduleId (db s))
      /\ Forall (fun e => AnalyzeEntry.analysisTag e = orNull analysisTag
                          /\ AnalyzeEntry.questionCount e = List.length questions)
                results.
Proof.
  intros moduleId questionIds analysisTag s H questions.
  pose proof (run_scope_exact chatCompletion dateNow moduleId questionIds analysisTag s H)
    as Hscope.
  pose proof (run_one_per_outcome chatCompletion dateNow moduleId questionIds
                analysisTag s H) as Hids.
  assert (Forall (fun c => Coverage.analysisTag c = orNull analysisTag
                           /\ Coverage.questionCount c = Some (List.length questions))
                 (savedCoverages moduleId analysisTag (db s)
                    (db (runCoverageAnalysis chatCompletion dateNow moduleId questionIds
                           analysisTag s)))) as Hmeta.
  { apply (run_saved_Forall chatCompletion dateNow moduleId questionIds analysisTag s
             (fun c => Coverage.analysisTag c = orNull analysisTag
                       /\ Coverage.questionCount c = Some (List.length questions)) H).
    intros; split; reflexivity. }
  unfold analyzeRoute. fold questions.
  unfold proceeds, outcomesOf in *. fold questions in H.
  destruct (findById moduleId (Modules (db s))) as [mdl| ]; [ |discriminate].
  destruct questions as [|q qs] eqn:Eq; [rewrite andb_false_r in H; discriminate| ].
  rewrite <- Eq in *. rewrite Hscope.
  eexists. split; [reflexivity| ]. split.
  - rewrite map_map. simpl. exact Hids.
  - apply Forall_forall. intros e He. apply in_map_iff in He.
    destruct He as (c & <- & Hc). rewrite Forall_forall in Hmeta.
    destruct (Hmeta c Hc) as (Ht & Hn).
    unfold analyzeEntry; simpl. rewrite Ht, Hn. split.
    + unfold orNull at 1. destruct (truthy (orNull analysisTag)) eqn:T; auto.
      unfold orNull in *. destruct (truthy analysisTag) eqn:T'; auto. congruence.
    + rewrite Eq. reflexivity.
Qed.

(** X5.  [POST /analyze] changes nothing in the database when the module
    is unknown, when no question is resolved, or when the module has no
    outcome; in the last case it still answers that the analysis is
    completed, with no outcome, and shows the documents that the scope held
    already. *)
Theorem analyze_without_outcomes_or_questions :
  forall moduleId questionIds analysisTag (s : Sys World),
    proceeds moduleId questionIds (db s) = false ->
    let answer := analyzeRoute chatCompletion dateNow moduleId questionIds analysisTag s in
    db (snd answer) = db s
    /\ (findById moduleId (Modules (db s)) = None -> fst answer = AnalyzeModuleNotFound)
    /\ (forall mdl, findById moduleId (Modules (db s)) = Some mdl ->
                    resolveQuestions moduleId questionIds (Questions (db s)) = [] ->
                    fst answer = AnalyzeNoQuestions)
    /\ (forall mdl, findById moduleId (Modules (db s)) = Some mdl ->
                    resolveQuestions moduleId questionIds (Questions (db s)) <> [] ->
                    ModuleDoc.learningOutcomes mdl = []
                    /\ fst answer
                       = AnalyzeCompleted 0
                           (List.length (resolveQuestions moduleId questionIds
                                           (Questions (db s))))
                           (orNull analysisTag)
                           (map (analyzeEntry mdl
                                   (List.length (resolveQuestions moduleId questionIds
                                                   (Questions (db s)))))
                                (findCoverage (scopeQuery moduleId analysisTag)
                                              (Coverages (db s))))).
Proof.
  intros moduleId questionIds analysisTag s H answer. unfold answer, analyzeRoute.
  destruct (run_skipped chatCompletion dateNow moduleId questionIds analysisTag s H)
    as [Hdb _].
  unfold proceeds in H.
  destruct (findById moduleId (Modules (db s))) as [mdl| ].
  2:{ repeat split; auto; intros; discriminate. }
  destruct (resolveQuestions moduleId questionIds (Questions (db s))) as [|q qs] eqn:Eq.
  - split; [reflexivity| ]. split; [discriminate| ]. split; [reflexivity| ].
    intros mdl' _ N. now contradiction N.
  - cbn [fst snd]. split; [exact Hdb| ]. split; [discriminate| ].
    split; [discriminate| ]. intros mdl' [= <-] _.
    rewrite andb_true_r in H. apply negb_false_iff, Nat.eqb_eq in H.
    apply length_zero_iff_nil in H. rewrite H, Hdb. auto.
Qed.

End RouteFacts.

(* ================================================================== *)
(** * Statistics and report: further properties *)
(* ================================================================== *)

Module StatsFacts.

Lemma countStatus_total reports :
  countStatus Covered reports + countStatus PartiallyCovered reports
  + countStatus NotCovered reports = List.length reports.
Proof.
  unfold countStatus. induction reports as [|r reports IH]; simpl; auto.
  destruct (Coverage.status r); simpl; lia.
Qed.

Lemma sum_percentages (xs : list JS.jsnum) :
  Forall isPercentage xs ->
  forall a : Z,
  exists t : Z,
    fold_left JS.add xs (JS.of_Z a) = JS.of_Z t
    /\ (a <= t <= a + 100 * Z.of_nat (List.length xs))%Z.
Proof.
  induction 1 as [|x xs (z & -> & Hz) _ IH]; intros a.
  - exists a. simpl. split; auto. lia.
  - destruct (IH (a + z)%Z) as (t & E & Ht). exists t. split.
    + simpl. unfold JS.of_Z in *. rewrite <- E. do 2 f_equal.
      unfold Qplus, inject_Z; simpl. now rewrite !Z.mul_1_r.
    + cbn [List.length]. lia.
Qed.

(** The rounded mean of integer percentages is an integer percentage. *)
Lemma mean_percentage (xs : list JS.jsnum) :
  Forall isPercentage xs -> xs <> [] ->
  isPercentage (JS.round (JS.div (fold_left JS.add xs (JS.of_Z 0))
                                 (JS.of_nat (List.length xs)))).
Proof.
  intros H N.
  destruct (sum_percentages H 0) as (t & E & Ht). rewrite E.
  assert ((0 < Z.of_nat (List.length xs))%Z) as Hn
      by (destruct xs; [congruence|simpl; lia]).
  set (n := Z.of_nat (List.length xs)) in *.
  assert (0 < inject_Z n)%Q as Hn'.
  { change 0%Q with (inject_Z 0). now rewrite <- Zlt_Qlt. }
  unfold isPercentage, JS.of_nat, JS.div, JS.of_Z. fold n.
  destruct (Qcompare_spec (inject_Z n) 0) as [C|C|C]; try lra.
  unfold JS.round, JS.of_Z. eexists. split; [reflexivity| ].
  assert (0 <= inject_Z t / inject_Z n)%Q as Hlo.
  { apply Qle_shift_div_l; auto. rewrite Qmult_0_l.
    change 0%Q with (inject_Z 0). rewrite <- Zle_Qle. lia. }
  assert (inject_Z t / inject_Z n <= 100)%Q as Hhi.
  { apply Qle_shift_div_r; auto.
    change 100%Q with (inject_Z 100). rewrite <- inject_Z_mult, <- Zle_Qle. lia. }
  split.
  - rewrite <- (Qfloor_Z 0). apply Qfloor_resp_le.
    change (inject_Z 0) with 0%Q. lra.
  - change 100%Z with (Qfloor (201 # 2)). apply Qfloor_resp_le. lra.
Qed.

Lemma fold_add_map {A} (f : A -> JS.jsnum) (l : list A) (a : JS.jsnum) :
  fold_left (fun sum r => JS.add sum (f r)) l a = fold_left JS.add (map f l) a.
Proof.
  revert a. induction l as [|x l IH]; intros a; simpl; auto.
Qed.

Lemma insertByDate_perm c l : Permutation (insertByDate c l) (c :: l).
Proof.
  induction l as [|d l IH]; simpl; auto.
  destruct (Coverage.analyzedAt d <=? Coverage.analyzedAt c)%Z; auto.
  rewrite IH. apply perm_swap.
Qed.

Lemma sort_perm l : Permutation (sortByAnalyzedAtDesc l) l.
Proof.
  induction l as [|c l IH]; simpl; auto.
  rewrite insertByDate_perm. now constructor.
Qed.

Lemma collectUnique_distinct reports :
  forall m,
    NoDup (map Coverage.loId reports) ->
    (forall r, In r reports -> StrMap.has (Coverage.loId r) m = false) ->
    collectUnique reports m = m ++ map (fun r => (Coverage.loId r, r)) reports.
Proof.
  induction reports as [|r rest IH]; intros m Hnd Hfresh; simpl.
  - now rewrite app_nil_r.
  - inversion Hnd as [|x l Hnot Hnd']; subst.
    rewrite (Hfresh r (or_introl eq_refl)). simpl.
    rewrite ReaderFacts.set_fresh by (apply Hfresh; now left).
    rewrite IH; auto.
    + now rewrite <- app_assoc.
    + intros r' Hr'. unfold StrMap.has. rewrite existsb_app. simpl.
      rewrite orb_false_r. apply orb_false_iff. split.
      * apply Hfresh. now right.
      * apply String.eqb_neq. intros E. apply Hnot. rewrite E. now apply in_map.
Qed.

Lemma deduplicate_distinct reports :
  NoDup (map Coverage.loId reports) -> deduplicate reports = reports.
Proof.
  intros H. unfold deduplicate, StrMap.values.
  rewrite collectUnique_distinct; auto. simpl.
  rewrite map_map. simpl. apply map_id.
Qed.

Lemma filter_length_perm {A} (f : A -> bool) (l l' : list A) :
  Permutation l l' -> List.length (filter f l) = List.length (filter f l').
Proof.
  induction 1; simpl; auto.
  - destruct (f x); simpl; auto.
  - destruct (f x), (f y); simpl; auto.
  - congruence.
Qed.

Lemma getStats_counts moduleId analysisTag d st :
  getStats moduleId analysisTag d = Some st ->
  Stats.covered st + Stats.partiallyCovered st + Stats.notCovered st
  = List.length (findCoverage (scopeQuery moduleId analysisTag) (Coverages d))
  /\ Stats.totalLOs st = List.length (outcomesOf moduleId d).
Proof.
  unfold getStats, outcomesOf.
  destruct (findById moduleId (Modules d)) as [mdl| ]; [ |discriminate].
  intros [= <-]. cbn [Stats.covered Stats.partiallyCovered Stats.notCovered
                      Stats.totalLOs].
  split; [apply countStatus_total|reflexivity].
Qed.

End StatsFacts.

(** X8.  The three tallies of the statistics add up to the number of
    documents of the module in the selected scope, and [totalLOs] is the
    number of outcomes of the module; the average is 0 when the scope is
    empty and, when the stored percentages are integers between 0 and 100,
    an integer between 0 and 100. *)
Theorem stats_tally_the_scope :
  forall moduleId analysisTag d st,
    getStats moduleId analysisTag d = Some st ->
    let reports := findCoverage (scopeQuery moduleId analysisTag) (Coverages d) in
    Stats.covered st + Stats.partiallyCovered st + Stats.notCovered st
    = List.length reports
    /\ Stats.totalLOs st = List.length (outcomesOf moduleId d)
    /\ (reports = [] -> Stats.averageCoverage st = JS.of_Z 0)
    /\ (Forall (fun r => isPercentage (Coverage.coveragePercentage r)) reports ->
        isPercentage (Stats.averageCoverage st)).
Proof.
  intros moduleId analysisTag d st H reports.
  destruct (StatsFacts.getStats_counts _ _ _ H) as [Hsum Htot].
  split; [exact Hsum| ]. split; [exact Htot| ]. clear Hsum Htot.
  revert H. unfold getStats.
  destruct (findById moduleId (Modules d)) as [mdl| ]; [ |discriminate].
  intros [= <-]. fold reports. cbn [Stats.averageCoverage]. split.
  - intros ->. reflexivity.
  - intros HF. destruct reports as [|r rest] eqn:E.
    + exists 0%Z. split; [reflexivity|lia].
    + rewrite <- E in *. replace (0 <? List.length reports) with true
        by (rewrite E; reflexivity).
      rewrite StatsFacts.fold_add_map.
      rewrite <- (length_map Coverage.coveragePercentage reports).
      apply StatsFacts.mean_percentage.
      * apply Forall_forall. intros x Hx. apply in_map_iff in Hx.
        destruct Hx as (c & <- & Hc). rewrite Forall_forall in HF. now apply HF.
      * rewrite E. discriminate.
Qed.

Lemma stats_tally_the_scope_witness :
  exists st,
    getStats 1 None Scenario.duplicated = Some st
    /\ isPercentage (Stats.averageCoverage st).
Proof.
  eexists. split; [reflexivity| ].
  refine (proj2 (proj2 (proj2 (stats_tally_the_scope 1 None Scenario.duplicated
                                 eq_refl))) _).
  repeat constructor; eexists; (split; [reflexivity|lia]).
Defined.

(** X9.  When no two documents of the scope have the same outcome
    identifier, the report has one entry for each document of the scope and
    the tallies of the statistics are the numbers of entries of the report
    with each status. *)
Theorem stats_agree_with_report_without_duplicates :
  forall moduleId analysisTag d results st,
    NoDup (map Coverage.loId
               (findCoverage (scopeQuery moduleId analysisTag) (Coverages d))) ->
    getReport moduleId analysisTag d = Some results ->
    getStats moduleId analysisTag d = Some st ->
    let entries status :=
      List.length (filter (fun e => Status_eqb (ReportEntry.status e) status) results) in
    List.length results
    = List.length (findCoverage (scopeQuery moduleId analysisTag) (Coverages d))
    /\ Stats.covered st = entries Covered
    /\ Stats.partiallyCovered st = entries PartiallyCovered
    /\ Stats.notCovered st = entries NotCovered.
Proof.
  intros moduleId analysisTag d results st Hnd HR HS entries. revert HR HS.
  unfold getReport, getStats.
  destruct (findById moduleId (Modules d)) as [mdl| ]; [ |discriminate].
  set (reports := findCoverage (scopeQuery moduleId analysisTag) (Coverages d)) in *.
  intros [= HR] [= HS]. subst results st.
  pose proof (StatsFacts.sort_perm reports) as Hperm.
  unfold entries. clear entries.
  rewrite StatsFacts.deduplicate_distinct.
  2:{ eapply Permutation_NoDup; [ |exact Hnd]. symmetry. now apply Permutation_map. }
  assert (forall status,
             List.length
               (filter (fun e => Status_eqb (ReportEntry.status e) status)
                       (map (enrich mdl) (sortByAnalyzedAtDesc reports)))
             = countStatus status reports) as Hcount.
  { intros status. unfold countStatus.
    rewrite <- (StatsFacts.filter_length_perm _ Hperm).
    generalize (sortByAnalyzedAtDesc reports). intros l.
    induction l as [|c l IH]; simpl; auto.
    destruct (Status_eqb (Coverage.status c) status); simpl; auto. }
  rewrite !Hcount. cbn [Stats.covered Stats.partiallyCovered Stats.notCovered].
  repeat split. rewrite length_map. now apply Permutation_length.
Qed.

Lemma stats_agree_with_report_without_duplicates_witness :
  exists results st,
    getReport 1 None
      (db (runCoverageAnalysis Scenario.chat Scenario.clock 1 None None Scenario.start))
    = Some results
    /\ getStats 1 None
         (db (runCoverageAnalysis Scenario.chat Scenario.clock 1 None None Scenario.start))
       = Some st
    /\ List.length results = 2
    /\ Stats.notCovered st
       = List.length (filter (fun e => Status_eqb (ReportEntry.status e) NotCovered)
                             results).
Proof.
  set (d := db (runCoverageAnalysis Scenario.chat Scenario.clock 1 None None
                  Scenario.start)).
  assert (exists results, getReport 1 None d = Some results) as [results HR]
    by (vm_compute; eexists; reflexivity).
  assert (exists st, getStats 1 None d = Some st) as [st HS]
    by (vm_compute; eexists; reflexivity).
  assert (NoDup (map Coverage.loId
                     (findCoverage (scopeQuery 1 None) (Coverages d)))) as Hnd.
  { vm_compute. repeat constructor; simpl; intuition discriminate. }
  assert (List.length (findCoverage (scopeQuery 1 None) (Coverages d)) = 2) as Hlen
    by (vm_compute; reflexivity).
  exists results, st. split; [exact HR| ]. split; [exact HS| ].
  split.
  - rewrite <- Hlen.
    apply (proj1 (@stats_agree_with_report_without_duplicates 1 None d results st
                    Hnd HR HS)).
  - apply (proj2 (proj2 (proj2 (@stats_agree_with_report_without_duplicates
                                  1 None d results st Hnd HR HS)))).
Defined.

Section ReadersAfterRun.

Variable World : Type.
Variable chatCompletion : World -> string -> string -> ApiResult * World.
Variable dateNow : World -> Z * World.

(** X10.  After a run that goes past its guards on a module whose outcomes
    have distinct identifiers, the report of the scope of the run has
    exactly one entry for each outcome of the module and the three tallies
    of the statistics add up to the number of outcomes. *)
Theorem readers_cover_every_outcome_after_a_run :
  forall moduleId questionIds analysisTag (s : Sys World),
    proceeds moduleId questionIds (db s) = true ->
    NoDup (map LearningOutcome.loId (outcomesOf moduleId (db s))) ->
    let d' := db (runCoverageAnalysis chatCompletion dateNow moduleId questionIds
                    analysisTag s) in
    exists results st,
      getReport moduleId analysisTag d' = Some results
      /\ getStats moduleId analysisTag d' = Some st
      /\ Permutation (map ReportEntry.loId results)
                     (map LearningOutcome.loId (outcomesOf moduleId (db s)))
      /\ Stats.totalLOs st = List.length (outcomesOf moduleId (db s))
      /\ Stats.covered st + Stats.partiallyCovered st + Stats.notCovered st
         = Stats.totalLOs st.
Proof.
  intros moduleId questionIds analysisTag s H Hnd d'.
  pose proof (run_one_per_outcome chatCompletion dateNow moduleId questionIds
                analysisTag s H) as Hids.
  rewrite <- run_scope_exact in Hids by exact H. fold d' in Hids.
  pose proof (run_outcomesOf chatCompletion dateNow moduleId questionIds analysisTag
                moduleId s) as HLO. fold d' in HLO.
  assert (exists mdl, findById moduleId (Modules d') = Some mdl) as [mdl Hmdl].
  { destruct (run_keeps_modules_questions chatCompletion dateNow moduleId questionIds
                analysisTag s) as [HM _]. fold d' in HM. rewrite HM.
    unfold proceeds in H. destruct (findById moduleId (Modules (db s))); eauto.
    discriminate. }
  destruct (getReport moduleId analysisTag d') as [results| ] eqn:ER.
  2:{ unfold getReport in ER. rewrite Hmdl in ER. discriminate. }
  destruct (getStats moduleId analysisTag d') as [st| ] eqn:ES.
  2:{ unfold getStats in ER, ES. rewrite Hmdl in ES. discriminate. }
  exists results, st. split; [reflexivity| ]. split; [reflexivity| ].
  destruct (StatsFacts.getStats_counts _ _ _ ES) as (Hsum & Htot).
  rewrite HLO in Htot.
  assert (NoDup (map Coverage.loId
                     (findCoverage (scopeQuery moduleId analysisTag) (Coverages d'))))
    as Hnd' by (now rewrite Hids).
  split; [ |split; [exact Htot| ]].
  - unfold getReport in ER. rewrite Hmdl in ER. injection ER as <-.
    rewrite StatsFacts.deduplicate_distinct.
    2:{ eapply Permutation_NoDup; [ |exact Hnd']. symmetry.
        apply Permutation_map, StatsFacts.sort_perm. }
    rewrite map_map. simpl. rewrite <- Hids.
    apply Permutation_map, StatsFacts.sort_perm.
  - rewrite Hsum, Htot, <- (length_map Coverage.loId), Hids. apply length_map.
Qed.

End ReadersAfterRun.

Lemma readers_cover_every_outcome_after_a_run_witness :
  exists results st,
    getReport 1 (Some "midterm")
      (db (runCoverageAnalysis Scenario.chat Scenario.clock 1 (Some [11; 13])
             (Some "midterm") Scenario.withStale)) = Some results
    /\ getStats 1 (Some "midterm")
         (db (runCoverageAnalysis Scenario.chat Scenario.clock 1 (Some [11; 13])
                (Some "midterm") Scenario.withStale)) = Some st
    /\ Permutation (map ReportEntry.loId results) ["LO1"; "LO2"]
    /\ Stats.totalLOs st = 2
    /\ Stats.covered st + Stats.partiallyCovered st + Stats.notCovered st
       = Stats.totalLOs st.
Proof.
  refine (readers_cover_every_outcome_after_a_run Scenario.chat Scenario.clock
            1 (Some [11; 13]) (Some "midterm") Scenario.withStale eq_refl _).
  vm_compute. repeat constructor; simpl; intuition discriminate.
Defined.

(* ================================================================== *)
(** * The Bloom-level rollup: properties *)
(* ================================================================== *)

Module BloomFacts.

Lemma get_tabulate {V} (f : string -> V) (keys : list string) (k : string) :
  StrMap.get k (map (fun l => (l, f l)) keys)
  = if existsb (String.eqb k) keys then Some (f k) else None.
Proof.
  induction keys as [|l keys IH]; simpl; auto.
  rewrite (String.eqb_sym k l).
  destruct (String.eqb_spec l k) as [->|N]; simpl; auto.
Qed.

Lemma set_tabulate {V} (f : string -> V) (keys : list string) (k : string) (v : V) :
  NoDup keys -> In k keys ->
  StrMap.set k v (map (fun l => (l, f l)) keys)
  = map (fun l => (l, if String.eqb l k then v else f l)) keys.
Proof.
  induction keys as [|l keys IH]; simpl; [tauto| ].
  intros Hnd Hin. inversion Hnd as [|x y Hnot Hnd']; subst.
  destruct (String.eqb_spec l k) as [->|N].
  - f_equal. apply map_ext_in. intros l Hl.
    destruct (String.eqb_spec l k) as [->|_]; [contradiction|reflexivity].
  - f_equal. apply IH; auto. destruct Hin; [contradiction|assumption].
Qed.

Lemma tallyResult_tabulate (f : string -> BloomStats.t) (keys : list string) result :
  NoDup keys ->
  tallyResult (map (fun l => (l, f l)) keys) result
  = map (fun l => (l, tallyAt l (f l) result)) keys.
Proof.
  intros Hnd. unfold tallyResult, tallyAt. rewrite get_tabulate.
  destruct (existsb (String.eqb (ReportEntry.bloomLevel result)) keys) eqn:E.
  - apply existsb_exists in E. destruct E as (l & Hl & E).
    apply String.eqb_eq in E. subst l.
    rewrite set_tabulate by assumption.
    apply map_ext. intros l. rewrite (String.eqb_sym l).
    now destruct (String.eqb_spec (ReportEntry.bloomLevel result) l) as [->|_].
  - apply map_ext_in. intros l Hl.
    destruct (String.eqb_spec (ReportEntry.bloomLevel result) l) as [Heq|_]; auto.
    rewrite <- Heq in Hl.
    assert (existsb (String.eqb (ReportEntry.bloomLevel result)) keys = true) as E'
        by (apply existsb_exists; exists (ReportEntry.bloomLevel result);
            split; [assumption|apply String.eqb_refl]).
    congruence.
Qed.

Lemma fold_tallyResult (keys : list string) (results : list ReportEntry.t) :
  NoDup keys ->
  forall f : string -> BloomStats.t,
    fold_left tallyResult results (map (fun l => (l, f l)) keys)
    = map (fun l => (l, fold_left (tallyAt l) results (f l))) keys.
Proof.
  intros Hnd. induction results as [|r results IH]; intros f; simpl; auto.
  rewrite tallyResult_tabulate by assumption. apply IH.
Qed.

Lemma fold_tallyAt level (results : list ReportEntry.t) :
  forall stats,
    let mine := ofLevel level results in
    let final := fold_left (tallyAt level) results stats in
    BloomStats.count final = BloomStats.count stats + List.length mine
    /\ BloomStats.covered final = BloomStats.covered stats + withStatus Covered mine
    /\ BloomStats.partiallyCovered final
       = BloomStats.partiallyCovered stats + withStatus PartiallyCovered mine
    /\ BloomStats.notCovered final
       = BloomStats.notCovered stats + withStatus NotCovered mine
    /\ BloomStats.totalCoverage final
       = fold_left JS.add (map ReportEntry.coveragePercentage mine)
                   (BloomStats.totalCoverage stats).
Proof.
  induction results as [|r results IH]; intros stats; simpl.
  - unfold withStatus; simpl. repeat split; lia.
  - unfold ofLevel, tallyAt at 2 4 6 8 10; simpl.
    destruct (String.eqb (ReportEntry.bloomLevel r) level) eqn:E.
    + destruct (IH (countResult r stats)) as (H1 & H2 & H3 & H4 & H5).
      unfold ofLevel in *. rewrite H1, H2, H3, H4, H5. unfold withStatus; simpl.
      destruct (ReportEntry.status r); simpl; repeat split; lia.
    + apply IH.
Qed.

Lemma bloomLevels_NoDup : NoDup bloomLevels.
Proof.
  unfold bloomLevels. repeat constructor; simpl; intuition discriminate.
Qed.

Lemma withStatus_total results :
  withStatus Covered results + withStatus PartiallyCovered results
  + withStatus NotCovered results = List.length results.
Proof.
  unfold withStatus. induction results as [|r results IH]; simpl; auto.
  destruct (ReportEntry.status r); simpl; lia.
Qed.

(** The item of a level, from the results of that level. *)
Lemma bloomItem_spec results level :
  In level bloomLevels ->
  let mine := ofLevel level results in
  bloomItem (fold_left tallyResult results initialBloomStats) level
  = BloomItem.mk level (List.length mine)
      (if (0 <? List.length mine)%nat
       then JS.round (JS.div (fold_left JS.add (map ReportEntry.coveragePercentage mine)
                                        (JS.of_Z 0))
                             (JS.of_nat (List.length mine)))
       else JS.of_Z 0)
      (withStatus Covered mine) (withStatus PartiallyCovered mine)
      (withStatus NotCovered mine).
Proof.
  intros Hin mine.
  change initialBloomStats
    with (map (fun l => (l, BloomStats.mk 0 (JS.of_Z 0) 0 0 0)) bloomLevels).
  rewrite fold_tallyResult by apply bloomLevels_NoDup.
  unfold bloomItem. rewrite get_tabulate.
  replace (existsb (String.eqb level) bloomLevels) with true.
  2:{ symmetry. apply existsb_exists. exists level. split; auto. apply String.eqb_refl. }
  destruct (fold_tallyAt level results (BloomStats.mk 0 (JS.of_Z 0) 0 0 0))
    as (H1 & H2 & H3 & H4 & H5).
  fold mine in H1, H2, H3, H4, H5. simpl in H1, H2, H3, H4, H5.
  now rewrite H1, H2, H3, H4, H5.
Qed.

End BloomFacts.

(** X11.  The rollup lists, in the fixed order of the six levels, the
    levels that have at least one result, each once.  The count of a level
    is the number of results of that level and is the sum of its three
    tallies, each of which counts the results of the level with that
    status.  A result whose level is none of the six, as "Unknown" for an
    outcome that the module no longer has, is counted nowhere. *)
Theorem bloom_rollup_counts_by_level :
  forall results items,
    calculateBloomLevelCoverage (Some results) = Some items ->
    map BloomItem.level items
    = filter (fun level =>
                existsb (fun r => String.eqb (ReportEntry.bloomLevel r) level) results)
             bloomLevels
    /\ NoDup (map BloomItem.level items)
    /\ Forall (fun item =>
                 let mine :=
                   filter (fun r => String.eqb (ReportEntry.bloomLevel r)
                                               (BloomItem.level item)) results in
                 In (BloomItem.level item) bloomLevels
                 /\ 0 < BloomItem.count item
                 /\ BloomItem.count item = List.length mine
                 /\ BloomItem.covered item
                    = List.length (filter (fun r => Status_eqb (ReportEntry.status r)
                                                               Covered) mine)
                 /\ BloomItem.partiallyCovered item
                    = List.length (filter (fun r => Status_eqb (ReportEntry.status r)
                                                               PartiallyCovered) mine)
                 /\ BloomItem.notCovered item
                    = List.length (filter (fun r => Status_eqb (ReportEntry.status r)
                                                               NotCovered) mine)
                 /\ BloomItem.count item
                    = BloomItem.covered item + BloomItem.partiallyCovered item
                      + BloomItem.notCovered item)
              items.
Proof.
  intros results items H.
  set (stats := fold_left tallyResult results initialBloomStats).
  assert (items = filter (fun item => 0 <? BloomItem.count item)
                         (map (bloomItem stats) bloomLevels)) as ->
      by (injection H as <-; reflexivity).
  clear H.
  assert (forall level, In level bloomLevels ->
            (0 <? BloomItem.count (bloomItem stats level))
            = existsb (fun r => String.eqb (ReportEntry.bloomLevel r) level) results)
    as Hpos.
  { intros level Hl. unfold stats. rewrite (BloomFacts.bloomItem_spec results Hl).
    cbv zeta. cbn [BloomItem.count]. unfold ofLevel.
    induction results as [|r rs IH]; simpl; auto.
    destruct (String.eqb (ReportEntry.bloomLevel r) level); simpl; auto. }
  assert (map BloomItem.level
              (filter (fun item => 0 <? BloomItem.count item)
                      (map (bloomItem stats) bloomLevels))
          = filter (fun level =>
                      existsb (fun r => String.eqb (ReportEntry.bloomLevel r) level)
                              results) bloomLevels) as Hlevels.
  { generalize (fun l (H : In l bloomLevels) => Hpos l H).
    generalize bloomLevels. intros ls.
    induction ls as [|l ls IH]; intros H; cbn [map filter]; auto.
    rewrite (H l (or_introl eq_refl)).
    destruct (existsb _ results); cbn [map]; rewrite IH; auto;
      intros; apply H; now right. }
  split; [exact Hlevels| ]. split.
  - pose proof (NoDup_filter
                  (fun level =>
                     existsb (fun r => String.eqb (ReportEntry.bloomLevel r) level)
                             results) BloomFacts.bloomLevels_NoDup) as Hnd.
    rewrite <- Hlevels in Hnd. exact Hnd.
  - apply Forall_forall. intros item Hitem. apply filter_In in Hitem.
    destruct Hitem as [Hitem Hcount]. apply in_map_iff in Hitem.
    destruct Hitem as (level & <- & Hl).
    unfold stats in *. rewrite (BloomFacts.bloomItem_spec results Hl) in *.
    cbv zeta in *. cbn [BloomItem.level BloomItem.count BloomItem.covered
      BloomItem.partiallyCovered BloomItem.notCovered] in *.
    apply Nat.ltb_lt in Hcount.
    repeat split; auto.
    symmetry. apply BloomFacts.withStatus_total.
Qed.

Lemma bloom_rollup_counts_by_level_witness :
  let results :=
    match getReport 1 None
            (db (runCoverageAnalysis Scenario.chat Scenario.clock 1 None None
                   Scenario.start)) with
    | Some r => r
    | None => []
    end in
  exists items,
    calculateBloomLevelCoverage (Some results) = Some items
    /\ map BloomItem.level items = ["Understand"; "Create"].
Proof.
  intros results. eexists. split; [reflexivity| ].
  exact (proj1 (@bloom_rollup_counts_by_level results _ eq_refl)).
Defined.

(** X12.  When the percentages of the results are integers between 0 and
    100, the average of every level of the rollup is an integer between 0
    and 100: the rounded mean of the percentages of the results of the
    level. *)
Theorem bloom_rollup_averages_are_percentages :
  forall results items,
    calculateBloomLevelCoverage (Some results) = Some items ->
    Forall (fun r => isPercentage (ReportEntry.coveragePercentage r)) results ->
    Forall (fun item =>
              let mine :=
                map ReportEntry.coveragePercentage
                    (filter (fun r => String.eqb (ReportEntry.bloomLevel r)
                                                 (BloomItem.level item)) results) in
              BloomItem.averageCoverage item
              = JS.round (JS.div (fold_left JS.add mine (JS.of_Z 0))
                                 (JS.of_nat (List.length mine)))
              /\ isPercentage (BloomItem.averageCoverage item))
           items.
Proof.
  intros results items H HF.
  assert (items = filter (fun item => 0 <? BloomItem.count item)
                         (map (bloomItem (fold_left tallyResult results
                                            initialBloomStats)) bloomLevels)) as ->
      by (injection H as <-; reflexivity).
  clear H.
  apply Forall_forall. intros item Hitem. apply filter_In in Hitem.
  destruct Hitem as [Hitem Hcount]. apply in_map_iff in Hitem.
  destruct Hitem as (level & <- & Hl).
  rewrite (BloomFacts.bloomItem_spec results Hl) in *.
  cbv zeta in *. cbn [BloomItem.level BloomItem.count BloomItem.averageCoverage] in *.
  rewrite Hcount. unfold ofLevel in *. rewrite length_map.
  split; [reflexivity| ].
  rewrite <- (length_map ReportEntry.coveragePercentage).
  apply StatsFacts.mean_percentage.
  - apply Forall_forall. intros x Hx. apply in_map_iff in Hx.
    destruct Hx as (r & <- & Hr). apply filter_In in Hr.
    rewrite Forall_forall in HF. now apply HF.
  - apply Nat.ltb_lt in Hcount. intros E. rewrite <- (length_map
      ReportEntry.coveragePercentage) in Hcount. rewrite E in Hcount. simpl in Hcount. lia.
Qed.

Lemma bloom_rollup_averages_are_percentages_witness :
  let results :=
    match getReport 1 None
            (db (runCoverageAnalysis Scenario.chat Scenario.clock 1 None None
                   Scenario.start)) with
    | Some r => r
    | None => []
    end in
  exists items,
    calculateBloomLevelCoverage (Some results) = Some items
    /\ Forall (fun item => isPercentage (BloomItem.averageCoverage item)) items.
Proof.
  intros results. eexists. split; [reflexivity| ].
  eapply Forall_impl;
    [ |refine (@bloom_rollup_averages_are_percentages results _ eq_refl _)].
  - intros item H. exact (proj2 H).
  - apply Forall_forall. intros r Hr. vm_compute in Hr.
    destruct Hr as [<-|[<-|[]]]; eexists; (split; [reflexivity|lia]).
Defined.

(* ================================================================== *)
(** * Manual entry of a question: properties *)
(* ================================================================== *)

Section QuestionRouteFacts.

Variable World : Type.
Variable chatCompletion : World -> string -> string -> ApiResult * World.
Variable dateNow : World -> Z * World.
Variable newObjectId : World -> ObjectId * World.

(** What a successful request went through. *)
Lemma createQuestionRoute_created body (s : Sys World) q s' :
  createQuestionRoute chatCompletion dateNow newObjectId body s = (Created q, s') ->
  exists moduleId questionType mdl,
    QuestionBody.moduleId body = Some moduleId
    /\ questionTypeOf (match QuestionBody.questionType body with
                       | Some t => t
                       | None => ""
                       end) = Some questionType
    /\ findById moduleId (Modules (db s)) = Some mdl
    /\ (questionType = MCQ ->
        2 <= List.length
               (filter nonBlank
                  (match QuestionBody.options body with Some o => o | None => [] end)))
    /\ q = Question.mk (fst (newObjectId (world s))) moduleId
             (trimOrEmpty (QuestionBody.questionText body)) questionType Manual
             (match questionType with
              | MCQ => filter nonBlank
                         (match QuestionBody.options body with
                          | Some o => o
                          | None => []
                          end)
              | Structured => []
              end)
             (match questionType with
              | MCQ => trimOrEmpty (QuestionBody.correctAnswer body)
              | Structured => ""
              end)
             (match QuestionBody.marks body with
              | Some m => if JS.truthy m then m else JS.of_Z 0
              | None => JS.of_Z 0
              end)
             (match questionType with
              | MCQ => ""
              | Structured => trimOrEmpty (QuestionBody.sampleAnswer body)
              end)
    /\ trimOrEmpty (QuestionBody.questionText body) <> ""
    /\ s' = runCoverageAnalysis chatCompletion dateNow moduleId None None
              (mkSys (mkDatabase (Modules (db s)) (Questions (db s) ++ [q])
                                 (Coverages (db s)))
                     (console s) (snd (newObjectId (world s)))).
Proof.
  unfold createQuestionRoute.
  destruct (QuestionBody.moduleId body) as [moduleId| ]; [ |discriminate].
  destruct (negb (truthy (QuestionBody.questionText body))
            || negb (truthy (QuestionBody.questionType body))); [discriminate| ].
  destruct (questionTypeOf _) as [questionType| ] eqn:Et; [ |discriminate].
  destruct questionType.
  - cbn [andb].
    destruct (negb (isSome (QuestionBody.options body)) || _); [discriminate| ].
    destruct (Nat.ltb_spec (List.length
                              (filter nonBlank
                                 match QuestionBody.options body with
                                 | Some o => o
                                 | None => []
                                 end)) 2) as [L|G]; [discriminate| ].
    destruct (findById moduleId (Modules (db s))) as [mdl| ] eqn:Hm; [ |discriminate].
    destruct (newObjectId (world s)) as [id w1]. unfold saveQuestion.
    destruct (truthy (Some _)) eqn:T; [ |discriminate].
    intros [= <- <-]. exists moduleId, MCQ, mdl. cbn [fst snd].
    repeat split; auto.
    cbn [Question.questionText] in T. unfold truthy in T.
    intros E. rewrite E in T. discriminate.
  - cbn [andb].
    destruct (findById moduleId (Modules (db s))) as [mdl| ] eqn:Hm; [ |discriminate].
    destruct (newObjectId (world s)) as [id w1]. unfold saveQuestion.
    destruct (truthy (Some _)) eqn:T; [ |discriminate].
    intros [= <- <-]. exists moduleId, Structured, mdl. cbn [fst snd].
    repeat split; auto; try discriminate.
    cbn [Question.questionText] in T. unfold truthy in T.
    intros E. rewrite E in T. discriminate.
Qed.

(** X13.  A request that is not answered by the created question leaves
    the database and the console as they were.  That is the case of every
    MCQ that has fewer than two options left once the blank ones are
    removed, and of every request whose text is made of white space only,
    which passes the check of the required fields and is then refused by
    the schema. *)
Theorem rejected_question_leaves_no_trace :
  forall body (s : Sys World),
    let answer := createQuestionRoute chatCompletion dateNow newObjectId body s in
    ((forall q, fst answer <> Created q) ->
     db (snd answer) = db s /\ console (snd answer) = console s)
    /\ (QuestionBody.questionType body = Some "MCQ" ->
        List.length (filter nonBlank
                       (match QuestionBody.options body with
                        | Some o => o
                        | None => []
                        end)) < 2 ->
        forall q, fst answer <> Created q)
    /\ (trimOrEmpty (QuestionBody.questionText body) = "" ->
        forall q, fst answer <> Created q).
Proof.
  intros body s answer. split; [ |split].
  - unfold answer, createQuestionRoute.
    destruct (QuestionBody.moduleId body) as [moduleId| ]; [ |now auto].
    destruct (negb (truthy (QuestionBody.questionText body))
              || negb (truthy (QuestionBody.questionType body))); [now auto| ].
    destruct (questionTypeOf _) as [questionType| ]; [ |now auto].
    destruct (_ && (negb (isSome (QuestionBody.options body)) || _)); [now auto| ].
    destruct (_ && (List.length _ <? 2)); [now auto| ].
    destruct (findById moduleId (Modules (db s))) as [mdl| ]; [ |now auto].
    destruct (newObjectId (world s)) as [id w1]. unfold saveQuestion.
    destruct (truthy (Some _)); cbn [fst snd]; auto.
    intros H. exfalso. eapply H. reflexivity.
  - intros Et Hlen q E.
    destruct answer as [r s'] eqn:Ea. simpl in E. subst r.
    apply createQuestionRoute_created in Ea.
    destruct Ea as (m & qt & mdl & _ & Eqt & _ & Hmcq & _).
    rewrite Et in Eqt. injection Eqt as <-. specialize (Hmcq eq_refl). lia.
  - intros Et q E.
    destruct answer as [r s'] eqn:Ea. simpl in E. subst r.
    apply createQuestionRoute_created in Ea.
    destruct Ea as (m & qt & mdl & _ & _ & _ & _ & _ & N & _). contradiction.
Qed.

(** X14.  A created question belongs to the module of the request, has the
    source Manual and the trimmed text of the request, which is not empty.
    An MCQ keeps the options of the request that are not blank, in their
    order, and they are at least two; a structured question has no option
    and no answer, and only a structured question has a sample answer. *)
Theorem created_question_is_normalised :
  forall body (s : Sys World) q s',
    createQuestionRoute chatCompletion dateNow newObjectId body s = (Created q, s') ->
    QuestionBody.moduleId body = Some (Question.moduleId q)
    /\ Question.source q = Manual
    /\ Question.questionText q = trimOrEmpty (QuestionBody.questionText body)
    /\ Question.questionText q <> ""
    /\ (Question.questionType q = MCQ ->
        Question.options q
        = filter nonBlank
            (match QuestionBody.options body with Some o => o | None => [] end)
        /\ 2 <= List.length (Question.options q)
        /\ Forall (fun o => nonBlank o = true) (Question.options q)
        /\ Question.sampleAnswer q = "")
    /\ (Question.questionType q = Structured ->
        Question.options q = [] /\ Question.correctAnswer q = "").
Proof.
  intros body s q s' E. apply createQuestionRoute_created in E.
  destruct E as (m & qt & mdl & Em & _ & _ & Hmcq & -> & N & _).
  cbn [Question.moduleId Question.source Question.questionText Question.questionType
       Question.options Question.sampleAnswer Question.correctAnswer].
  split; [exact Em| ]. split; [reflexivity| ]. split; [reflexivity| ].
  split; [exact N| ]. split.
  - intros ->. split; [reflexivity| ]. split; [now apply Hmcq| ].
    split; [ |reflexivity].
    apply Forall_forall. intros o Ho. now apply filter_In in Ho.
  - intros ->. split; reflexivity.
Qed.

(** X15.  Once the analysis started by a successful request has finished,
    the question is the last of the collection, the modules are as before
    and so is every coverage document of a tag or of another module; and
    when the module has an outcome, its default scope holds one document
    for each outcome, each counting every question of the module, the new
    one included. *)
Theorem created_question_refreshes_the_default_scope :
  forall body (s : Sys World) q s',
    createQuestionRoute chatCompletion dateNow newObjectId body s = (Created q, s') ->
    let moduleId := Question.moduleId q in
    Questions (db s') = Questions (db s) ++ [q]
    /\ Modules (db s') = Modules (db s)
    /\ (forall c, Coverage.moduleId c <> moduleId \/ Coverage.analysisTag c <> None ->
                  (In c (Coverages (db s')) <-> In c (Coverages (db s))))
    /\ (outcomesOf moduleId (db s) <> [] ->
        let fresh := findCoverage (scopeQuery moduleId None) (Coverages (db s')) in
        map Coverage.loId fresh = map LearningOutcome.loId (outcomesOf moduleId (db s))
        /\ Forall (fun c =>
                     Coverage.questionCount c
                     = Some (List.length (findQuestions moduleId (Questions (db s))) + 1))
                  fresh).
Proof.
  intros body s q s' E moduleId. apply createQuestionRoute_created in E.
  destruct E as (m & qt & mdl & Em & _ & Hmdl & _ & Eq & _ & Es').
  assert (Question.moduleId q = m) as Hqm by (rewrite Eq; reflexivity).
  unfold moduleId. rewrite Hqm. clear moduleId Eq. set (s1 := mkSys _ _ _) in Es'. subst s'.
  destruct (run_keeps_modules_questions chatCompletion dateNow m None None s1)
    as [HM HQ].
  split; [exact HQ| ]. split; [exact HM| ]. split.
  - intros c Hc. apply (@run_frame_In _ chatCompletion dateNow m None None s1 c).
    exact Hc.
  - intros Hlo. cbv zeta.
    assert (findQuestions m (Questions (db s1))
            = findQuestions m (Questions (db s)) ++ [q]) as Hqs.
    { unfold s1, findQuestions. cbn [db Questions]. rewrite filter_app.
      cbn [filter]. rewrite Hqm, Nat.eqb_refl. reflexivity. }
    assert (outcomesOf m (db s1) = outcomesOf m (db s)) as Hos by reflexivity.
    assert (proceeds m None (db s1) = true) as Hp.
    { unfold proceeds. change (Modules (db s1)) with (Modules (db s)).
      unfold outcomesOf in Hlo. rewrite Hmdl in *.
      cbn [resolveQuestions]. rewrite Hqs, length_app. cbn [List.length].
      destruct (ModuleDoc.learningOutcomes mdl); [contradiction| ].
      cbn [List.length]. rewrite Nat.add_1_r. reflexivity. }
    rewrite run_scope_exact by exact Hp. split.
    + rewrite run_one_per_outcome by exact Hp. now rewrite Hos.
    + rewrite run_saved by exact Hp. apply Forall_forall. intros c Hc.
      apply in_map_iff in Hc. destruct Hc as (e & <- & _).
      unfold recordOf. cbn [Coverage.questionCount resolveQuestions].
      now rewrite Hqs, length_app.
Qed.

End QuestionRouteFacts.

(* ================================================================== *)
(** * Batch generation: properties *)
(* ================================================================== *)

Section BatchFacts.

Variable World : Type.
Variable generateQuestions :
  World -> string -> string -> Z -> Z -> Outcome Generated.t * World.
Variable newObjectId : World -> ObjectId * World.

Lemma saveQuestion_text (text : option string) :
  truthy text = true -> match text with Some s => s | None => "" end <> "".
Proof.
  destruct text as [s| ]; [ |discriminate]. simpl. intros H E. subst s. discriminate.
Qed.

Lemma saveMCQs_appends moduleId mcqs :
  forall saved d w,
  exists added, appends moduleId saved (saveMCQs newObjectId moduleId mcqs saved d w) d added.
Proof.
  induction mcqs as [|mcq mcqs IH]; intros saved d w; cbn [saveMCQs].
  - exists []. unfold appends. cbn [fst snd]. rewrite !app_nil_r.
    repeat split; auto. now intros l [= <-].
  - destruct (repairOptions mcq) as [options| ] eqn:R.
    2:{ exists []. unfold appends. cbn [fst snd]. rewrite app_nil_r.
        repeat split; auto. discriminate. }
    destruct (newObjectId w) as [id w1]. unfold saveQuestion.
    destruct (truthy (GeneratedMCQ.question mcq)) eqn:Ht.
    + set (q := Question.mk id moduleId _ MCQ AI _ _ _ _).
      destruct (IH (saved ++ [q])
                   (mkDatabase (Modules d) (Questions d ++ [q]) (Coverages d)) w1)
        as (added & HQ & HM & HC & HF & HL).
      exists (q :: added). unfold appends. rewrite HQ, HM, HC.
      cbn [Questions Modules Coverages]. rewrite <- app_assoc.
      split; [reflexivity| ]. split; [reflexivity| ]. split; [reflexivity| ]. split.
      * constructor; [ |exact HF]. unfold generatedFor, q.
        cbn [Question.moduleId Question.source Question.questionText
             Question.questionType Question.options].
        split; [reflexivity| ]. split; [reflexivity| ].
        split; [now apply saveQuestion_text| ].
        intros _. exact (RepairFacts.repairOptions_shape mcq R).
      * intros l El. rewrite (HL l El), <- app_assoc. reflexivity.
    + exists []. unfold appends. cbn [fst snd]. rewrite app_nil_r.
      repeat split; auto. discriminate.
Qed.

Lemma saveStructured_appends moduleId items :
  forall saved d w,
  exists added,
    appends moduleId saved (saveStructured newObjectId moduleId items saved d w) d added.
Proof.
  induction items as [|i items IH]; intros saved d w; cbn [saveStructured].
  - exists []. unfold appends. cbn [fst snd]. rewrite !app_nil_r.
    repeat split; auto. now intros l [= <-].
  - destruct (newObjectId w) as [id w1]. unfold saveQuestion.
    destruct (truthy (GeneratedStructured.question i)) eqn:Ht.
    + set (q := Question.mk id moduleId _ Structured AI _ _ _ _).
      destruct (IH (saved ++ [q])
                   (mkDatabase (Modules d) (Questions d ++ [q]) (Coverages d)) w1)
        as (added & HQ & HM & HC & HF & HL).
      exists (q :: added). unfold appends. rewrite HQ, HM, HC.
      cbn [Questions Modules Coverages]. rewrite <- app_assoc.
      split; [reflexivity| ]. split; [reflexivity| ]. split; [reflexivity| ]. split.
      * constructor; [ |exact HF]. unfold generatedFor, q.
        cbn [Question.moduleId Question.source Question.questionText
             Question.questionType Question.options].
        split; [reflexivity| ]. split; [reflexivity| ].
        split; [now apply saveQuestion_text| ]. discriminate.
      * intros l El. rewrite (HL l El), <- app_assoc. reflexivity.
    + exists []. unfold appends. cbn [fst snd]. rewrite app_nil_r.
      repeat split; auto. discriminate.
Qed.

(** One turn of the loop over the requested outcomes. *)
Lemma generateForOutcome_spec mdl moduleId mcqCount structuredCount loId d w :
  let res := generateForOutcome generateQuestions newObjectId mdl moduleId
               mcqCount structuredCount loId d w in
  batchLoId (fst (fst res)) = loId
  /\ (fst (fst res) = BatchOutcomeNotFound loId
      <-> find (fun l => String.eqb (LearningOutcome.loId l) loId)
               (ModuleDoc.learningOutcomes mdl) = None)
  /\ exists added,
       Questions (snd (fst res)) = Questions d ++ added
       /\ Modules (snd (fst res)) = Modules d
       /\ Coverages (snd (fst res)) = Coverages d
       /\ Forall (generatedFor moduleId) added
       /\ generatedCount (fst (fst res)) <= List.length added
       /\ ((forall l, fst (fst res) <> BatchFailed l) ->
           generatedCount (fst (fst res)) = List.length added).
Proof.
  unfold generateForOutcome.
  destruct (find _ (ModuleDoc.learningOutcomes mdl)) as [lo| ].
  2:{ cbn [fst snd batchLoId]. split; [reflexivity| ]. split; [tauto| ].
      exists []. rewrite app_nil_r. cbn [generatedCount List.length].
      split; [reflexivity| ]. split; [reflexivity| ]. split; [reflexivity| ].
      split; [constructor| ]. split; [lia|reflexivity]. }
  destruct (generateQuestions w _ _ _ _) as [[g| ] w1].
  2:{ cbn [fst snd batchLoId]. split; [reflexivity| ].
      split; [split; discriminate| ].
      exists []. rewrite app_nil_r. cbn [generatedCount List.length].
      split; [reflexivity| ]. split; [reflexivity| ]. split; [reflexivity| ].
      split; [constructor| ]. split; [lia|reflexivity]. }
  destruct (saveMCQs_appends moduleId
              (match Generated.mcqs g with Some l => l | None => [] end) [] d w1)
    as (a1 & HQ1 & HM1 & HC1 & HF1 & HL1).
  destruct (saveMCQs newObjectId moduleId _ [] d w1) as [[[savedMCQs| ] d1] w2].
  2:{ cbn [fst snd batchLoId] in *. split; [reflexivity| ].
      split; [split; discriminate| ].
      exists a1. cbn [generatedCount].
      split; [exact HQ1| ]. split; [exact HM1| ]. split; [exact HC1| ].
      split; [exact HF1| ]. split; [lia| ].
      intros H. exfalso. eapply H. reflexivity. }
  cbn [fst snd] in *. specialize (HL1 _ eq_refl). cbn [app] in HL1. subst savedMCQs.
  destruct (saveStructured_appends moduleId
              (match Generated.structured g with Some l => l | None => [] end) [] d1 w2)
    as (a2 & HQ2 & HM2 & HC2 & HF2 & HL2).
  destruct (saveStructured newObjectId moduleId _ [] d1 w2)
    as [[[savedStructured| ] d2] w3];
    cbn [fst snd batchLoId generatedCount] in *;
    (split; [reflexivity| ]); (split; [split; discriminate| ]);
    exists (a1 ++ a2); rewrite HQ2, HQ1, HM2, HM1, HC2, HC1, app_assoc, length_app;
    (split; [reflexivity| ]); (split; [reflexivity| ]); (split; [reflexivity| ]);
    (split; [apply Forall_app; now split| ]).
  - specialize (HL2 _ eq_refl). cbn [app] in HL2. subst savedStructured.
    split; [lia|intros; lia].
  - split; [lia| ]. intros H. exfalso. eapply H. reflexivity.
Qed.

Lemma generateBatchLoop_spec mdl moduleId mcqCount structuredCount loIds :
  forall results d w,
  let res := generateBatchLoop generateQuestions newObjectId mdl moduleId
               mcqCount structuredCount loIds results d w in
  exists fresh added,
    fst (fst res) = results ++ fresh
    /\ map batchLoId fresh = loIds
    /\ Forall (fun r =>
                 r = BatchOutcomeNotFound (batchLoId r)
                 <-> find (fun l => String.eqb (LearningOutcome.loId l) (batchLoId r))
                          (ModuleDoc.learningOutcomes mdl) = None) fresh
    /\ Questions (snd (fst res)) = Questions d ++ added
    /\ Modules (snd (fst res)) = Modules d
    /\ Coverages (snd (fst res)) = Coverages d
    /\ Forall (generatedFor moduleId) added
    /\ list_sum (map generatedCount fresh) <= List.length added
    /\ ((forall l, ~ In (BatchFailed l) fresh) ->
        list_sum (map generatedCount fresh) = List.length added).
Proof.
  induction loIds as [|loId rest IH]; intros results d w; cbn [generateBatchLoop].
  - exists [], []. cbn [fst snd]. rewrite !app_nil_r. cbn. repeat split; auto.
  - pose proof (generateForOutcome_spec mdl moduleId mcqCount structuredCount loId d w)
      as H. cbv zeta in H.
    destruct (generateForOutcome generateQuestions newObjectId mdl moduleId
                mcqCount structuredCount loId d w) as [[r d1] w1].
    cbn [fst snd] in H.
    destruct H as (Hid & Hnf & a1 & HQ1 & HM1 & HC1 & HF1 & Hle1 & Heq1).
    destruct (IH (results ++ [r]) d1 w1)
      as (fresh & a2 & E & Hids & Hnfs & HQ & HM & HC & HF & Hle & Heq).
    exists (r :: fresh), (a1 ++ a2).
    rewrite E, HQ, HM, HC, HQ1, HM1, HC1, <- !app_assoc, length_app.
    change (list_sum (map generatedCount (r :: fresh)))
      with (generatedCount r + list_sum (map generatedCount fresh)).
    cbn [app map]. rewrite Hid, Hids.
    split; [reflexivity| ]. split; [reflexivity| ]. split.
    { constructor; [ |exact Hnfs]. now rewrite Hid. }
    split; [reflexivity| ]. split; [reflexivity| ]. split; [reflexivity| ].
    split; [apply Forall_app; now split| ]. split; [lia| ].
    intros Hno. rewrite Heq1, Heq.
    + reflexivity.
    + intros l Hl. apply (Hno l). now right.
    + intros l El. apply (Hno l). left. now symmetry.
Qed.

(** X16.  A batch that finds its module answers with one result for each
    requested outcome, in the order of the request, and a result says that
    the outcome was not found exactly when the module has no outcome of
    that identifier.  The batch only appends questions: each belongs to the
    module, has the source AI and a text, and an MCQ has four options, or
    has for its only option a string of four code units, which is what is
    left of options that the generator gave as a string; modules and
    coverage documents stay as they were.  The counts of the results never
    exceed the number of questions added, and they add up to it when no
    result is a failure. *)
Theorem batch_answers_each_outcome_and_only_appends :
  forall moduleId loIds mcqCount structuredCount d w mdl,
    loIds <> [] ->
    findById moduleId (Modules d) = Some mdl ->
    exists results added d' w',
      generateBatchRoute generateQuestions newObjectId (Some moduleId) (Some loIds)
        mcqCount structuredCount d w = (BatchCompleted results, d', w')
      /\ map batchLoId results = loIds
      /\ Forall (fun r =>
                   r = BatchOutcomeNotFound (batchLoId r)
                   <-> find (fun l => String.eqb (LearningOutcome.loId l) (batchLoId r))
                            (ModuleDoc.learningOutcomes mdl) = None) results
      /\ Questions d' = Questions d ++ added
      /\ Modules d' = Modules d
      /\ Coverages d' = Coverages d
      /\ Forall (generatedFor moduleId) added
      /\ list_sum (map generatedCount results) <= List.length added
      /\ ((forall l, ~ In (BatchFailed l) results) ->
          list_sum (map generatedCount results) = List.length added).
Proof.
  intros moduleId loIds mcqCount structuredCount d w mdl Hne Hm.
  unfold generateBatchRoute.
  destruct loIds as [|loId rest]; [contradiction| ]. rewrite Hm.
  pose proof (generateBatchLoop_spec mdl moduleId mcqCount structuredCount
                (loId :: rest) [] d w) as H. cbv zeta in H.
  destruct (generateBatchLoop generateQuestions newObjectId mdl moduleId mcqCount
              structuredCount (loId :: rest) [] d w) as [[results d'] w'].
  cbn [fst snd app] in H. destruct H as (fresh & added & -> & H).
  exists fresh, added, d', w'. split; [reflexivity|exact H].
Qed.

(** X17.  A batch of a single outcome, with counts that are integers other
    than zero, does what the route for one outcome does: the same
    questions are saved and the same calls are made, and the result of the
    batch reports the failure, the missing outcome, or the numbers of
    questions of the answer of that route. *)
Theorem batch_of_one_agrees_with_the_single_route :
  forall moduleId loId mcqCount structuredCount d w,
    loId <> "" -> mcqCount <> 0%Z -> structuredCount <> 0%Z ->
    let single :=
      generateQuestionsRoute generateQuestions newObjectId (Some moduleId) (Some loId)
        mcqCount structuredCount d w in
    let batch :=
      generateBatchRoute generateQuestions newObjectId (Some moduleId) (Some [loId])
        (Some mcqCount) (Some structuredCount) d w in
    snd (fst batch) = snd (fst single)
    /\ snd batch = snd single
    /\ match fst (fst single) with
       | BadRequest => False
       | NotFound =>
           fst (fst batch) = BatchModuleNotFound
           \/ fst (fst batch) = BatchCompleted [BatchOutcomeNotFound loId]
       | ServerError => fst (fst batch) = BatchCompleted [BatchFailed loId]
       | Success savedMCQs savedStructured =>
           fst (fst batch)
           = BatchCompleted [BatchGenerated loId (List.length savedMCQs)
                               (List.length savedStructured)]
       end.
Proof.
  intros moduleId loId mcqCount structuredCount d w Hl Hm Hs.
  unfold generateQuestionsRoute, generateBatchRoute.
  cbn [generateBatchLoop app]. unfold generateForOutcome.
  assert (truthy (Some loId) = true) as ->.
  { unfold truthy. destruct (String.eqb_spec loId ""); [contradiction|reflexivity]. }
  unfold countOr. apply Z.eqb_neq in Hm, Hs. rewrite Hm, Hs. cbn [negb orb].
  destruct (findById moduleId (Modules d)) as [mdl| ]; [ |cbn; auto].
  destruct (find _ (ModuleDoc.learningOutcomes mdl)) as [lo| ]; [ |cbn; auto].
  destruct (generateQuestions w _ _ mcqCount structuredCount) as [[g| ] w1];
    [ |cbn; auto].
  destruct (saveMCQs newObjectId moduleId _ [] d w1) as [[[savedMCQs| ] d1] w2];
    [ |cbn; auto].
  destruct (saveStructured newObjectId moduleId _ [] d1 w2)
    as [[[savedStructured| ] d2] w3]; cbn; auto.
Qed.

End BatchFacts.

Lemma batch_answers_each_outcome_and_only_appends_witness :
  exists results added d' w',
    generateBatchRoute Requests.generator Scenario.freshId (Some 1)
      (Some ["LO1"; "LO7"; "LO2"; "LO1"]) None None Scenario.database
      (Scenario.answers, 1000%Z)
    = (BatchCompleted results, d', w')
    /\ map batchLoId results = ["LO1"; "LO7"; "LO2"; "LO1"]
    /\ Questions d' = Questions Scenario.database ++ added
    /\ Forall (generatedFor 1) added
    /\ list_sum (map generatedCount results) <= List.length added.
Proof.
  destruct (@batch_answers_each_outcome_and_only_appends _ Requests.generator
              Scenario.freshId 1 ["LO1"; "LO7"; "LO2"; "LO1"] None None
              Scenario.database (Scenario.answers, 1000%Z) Scenario.CS101
              ltac:(discriminate) eq_refl)
    as (results & added & d' & w' & E & Hids & _ & HQ & _ & _ & HF & Hle & _).
  exists results, added, d', w'. auto.
Defined.

Lemma batch_of_one_agrees_with_the_single_route_witness :
  fst (fst (generateQuestionsRoute Requests.generator Scenario.freshId (Some 1)
              (Some "LO2") 2 1 Scenario.database (Scenario.answers, 1000%Z)))
  = ServerError
  /\ fst (fst (generateBatchRoute Requests.generator Scenario.freshId (Some 1)
                 (Some ["LO2"]) (Some 2%Z) (Some 1%Z) Scenario.database
                 (Scenario.answers, 1000%Z)))
     = BatchCompleted [BatchFailed "LO2"].
Proof.
  split; [reflexivity| ].
  exact (proj2 (proj2 (@batch_of_one_agrees_with_the_single_route _ Requests.generator
                         Scenario.freshId 1 "LO2" 2%Z 1%Z Scenario.database
                         (Scenario.answers, 1000%Z)
                         ltac:(discriminate) ltac:(discriminate) ltac:(discriminate)))).
Defined.

(* ================================================================== *)
(** * Manual entry of a question: instances *)
(* ================================================================== *)

Lemma rejected_question_leaves_no_trace_witness :
  fst (createQuestionRoute Scenario.chat Scenario.clock Scenario.freshId
         Requests.blankOptions Scenario.withStale) = TooFewValidOptions
  /\ fst (createQuestionRoute Scenario.chat Scenario.clock Scenario.freshId
            Requests.blankText Scenario.withStale) = CreateFailed
  /\ db (snd (createQuestionRoute Scenario.chat Scenario.clock Scenario.freshId
                Requests.blankOptions Scenario.withStale)) = db Scenario.withStale
  /\ db (snd (createQuestionRoute Scenario.chat Scenario.clock Scenario.freshId
                Requests.blankText Scenario.withStale)) = db Scenario.withStale.
Proof.
  split; [reflexivity| ]. split; [reflexivity| ].
  destruct (rejected_question_leaves_no_trace Scenario.chat Scenario.clock
              Scenario.freshId Requests.blankOptions Scenario.withStale)
    as (H1 & H2 & _).
  destruct (rejected_question_leaves_no_trace Scenario.chat Scenario.clock
              Scenario.freshId Requests.blankText Scenario.withStale)
    as (H1' & _ & H3').
  split.
  - apply H1. apply H2; [reflexivity|vm_compute; lia].
  - apply H1'. apply H3'. reflexivity.
Defined.

Lemma created_question_is_normalised_witness :
  exists q s',
    createQuestionRoute Scenario.chat Scenario.clock Scenario.freshId Requests.mcq
      Scenario.withStale = (Created q, s')
    /\ Question.questionText q = "What is a loop?"
    /\ Question.options q = ["for"; "while"]
    /\ 2 <= List.length (Question.options q).
Proof.
  pose (answer := createQuestionRoute Scenario.chat Scenario.clock Scenario.freshId
                    Requests.mcq Scenario.withStale).
  assert (answer = (Created (match fst answer with
                             | Created q => q
                             | _ => Scenario.Q1
                             end), snd answer)) as E
    by (vm_compute; reflexivity).
  destruct (@created_question_is_normalised _ Scenario.chat Scenario.clock
              Scenario.freshId Requests.mcq Scenario.withStale _ _ E)
    as (_ & _ & Ht & _ & Hmcq & _).
  destruct (Hmcq eq_refl) as (Ho & Hlen & _).
  eexists. eexists. split; [exact E| ]. split; [exact Ht| ]. split; [exact Ho|exact Hlen].
Defined.

Lemma created_question_refreshes_the_default_scope_witness :
  exists q s',
    createQuestionRoute Scenario.chat Scenario.clock Scenario.freshId Requests.mcq
      Scenario.withStale = (Created q, s')
    /\ map Coverage.loId (findCoverage (scopeQuery 1 None) (Coverages (db s')))
       = ["LO1"; "LO2"]
    /\ Forall (fun c => Coverage.questionCount c = Some 4)
              (findCoverage (scopeQuery 1 None) (Coverages (db s'))).
Proof.
  pose (answer := createQuestionRoute Scenario.chat Scenario.clock Scenario.freshId
                    Requests.mcq Scenario.withStale).
  assert (answer = (Created (match fst answer with
                             | Created q => q
                             | _ => Scenario.Q1
                             end), snd answer)) as E
    by (vm_compute; reflexivity).
  destruct (@created_question_refreshes_the_default_scope _ Scenario.chat
              Scenario.clock Scenario.freshId Requests.mcq Scenario.withStale _ _ E)
    as (_ & _ & _ & H).
  destruct (H ltac:(discriminate)) as [Hids Hcount].
  eexists. eexists. split; [exact E| ]. split; [exact Hids|exact Hcount].
Defined.

(* ================================================================== *)
(** * Uploaded files: properties *)
(* ================================================================== *)

(** X18.  The upload filter refuses a MIME type exactly when the text
    extraction has no reader for it: a file that passes the filter is never
    reported as of an unsupported type, whatever the readers answer, and a
    refused type would be. *)
Theorem upload_filter_matches_the_readers :
  forall (parsePDF parseDOCX parseTXT : string -> option string) filePath mimeType,
    fileFilter mimeType = false
    <-> extractTextFromFile parsePDF parseDOCX parseTXT filePath mimeType
        = UnsupportedFileType mimeType.
Proof.
  intros parsePDF parseDOCX parseTXT filePath mimeType.
  unfold fileFilter, allowedTypes, extractTextFromFile. cbn [existsb].
  destruct (String.eqb mimeType "application/pdf");
    [unfold parsed; destruct (parsePDF filePath); split; discriminate| ].
  destruct (String.eqb mimeType
              "application/vnd.openxmlformats-officedocument.wordprocessingml.document");
    [unfold parsed; destruct (parseDOCX filePath); split; discriminate| ].
  destruct (String.eqb mimeType "application/msword");
    [unfold parsed; destruct (parseDOCX filePath); split; discriminate| ].
  destruct (String.eqb mimeType "text/plain");
    [unfold parsed; destruct (parseTXT filePath); split; discriminate| ].
  split; reflexivity.
Qed.

Lemma upload_filter_matches_the_readers_witness :
  fileFilter "image/png" = false
  /\ extractTextFromFile (fun _ => None) (fun _ => None) (fun _ => None)
       "uploads/scan.png" "image/png" = UnsupportedFileType "image/png"
  /\ extractTextFromFile (fun _ => None) (fun _ => None) (fun _ => None)
       "uploads/exam.doc" "application/msword" <> UnsupportedFileType "application/msword".
Proof.
  split; [reflexivity| ]. split.
  - exact (proj1 (upload_filter_matches_the_readers (fun _ => None) (fun _ => None)
                    (fun _ => None) "uploads/scan.png" "image/png") eq_refl).
  - intros E.
    pose proof (proj2 (upload_filter_matches_the_readers (fun _ => None) (fun _ => None)
                         (fun _ => None) "uploads/exam.doc" "application/msword") E)
      as H.
    discriminate H.
Defined.

(* ================================================================== *)
(** * The persisted module selection: properties *)
(* ================================================================== *)

Module StorageFacts.

Lemma get_set_same {V} k (v : V) m : StrMap.get k (StrMap.set k v m) = Some v.
Proof.
  induction m as [|[k' v'] m IH]; simpl.
  - now rewrite String.eqb_refl.
  - destruct (String.eqb k' k) eqn:E; simpl; rewrite E; auto.
Qed.

Lemma get_set_other {V} k k0 (v : V) m :
  k <> k0 -> StrMap.get k (StrMap.set k0 v m) = StrMap.get k m.
Proof.
  intros N. induction m as [|[k' v'] m IH]; simpl.
  - destruct (String.eqb_spec k0 k); [congruence|reflexivity].
  - destruct (String.eqb_spec k' k0) as [->|N']; simpl.
    + destruct (String.eqb_spec k0 k); [congruence|reflexivity].
    + now rewrite IH.
Qed.

Lemma get_remove_same {V} k (m : StrMap.t V) : StrMap.get k (StrMap.remove k m) = None.
Proof.
  induction m as [|[k' v'] m IH]; simpl; auto.
  destruct (String.eqb k' k) eqn:E; simpl; [ |rewrite E]; auto.
Qed.

Lemma get_remove_other {V} k k0 (m : StrMap.t V) :
  k <> k0 -> StrMap.get k (StrMap.remove k0 m) = StrMap.get k m.
Proof.
  intros N. induction m as [|[k' v'] m IH]; simpl; auto.
  destruct (String.eqb_spec k' k0) as [->|N']; simpl.
  - rewrite IH. destruct (String.eqb_spec k0 k); [congruence|reflexivity].
  - now rewrite IH.
Qed.

End StorageFacts.

(** X19.  On a storage that answers, the selection read after a write is
    the identifier written, and nothing after the write of an empty or
    missing identifier or after a clearing; on a storage that throws, the
    selection is never read and nothing is written.  No write and no
    clearing changes an item of another key. *)
Theorem persisted_selection_round_trip :
  forall (localStorage : LocalStorage) moduleId,
    (localStorage <> None ->
     getPersistedModuleId (setPersistedModuleId moduleId localStorage)
     = if truthy moduleId then moduleId else None)
    /\ (localStorage = None ->
        getPersistedModuleId (setPersistedModuleId moduleId localStorage) = None
        /\ setPersistedModuleId moduleId localStorage = None)
    /\ getPersistedModuleId
         (clearPersistedModuleId (setPersistedModuleId moduleId localStorage)) = None
    /\ (forall key, key <> STORAGE_KEY ->
          option_map (StrMap.get key) (setPersistedModuleId moduleId localStorage)
          = option_map (StrMap.get key) localStorage
          /\ option_map (StrMap.get key) (clearPersistedModuleId localStorage)
             = option_map (StrMap.get key) localStorage).
Proof.
  intros [items| ] moduleId.
  - unfold setPersistedModuleId, clearPersistedModuleId, getPersistedModuleId.
    split; [ |split; [discriminate| ]].
    + intros _. destruct (truthy moduleId) eqn:T.
      * destruct moduleId as [m| ]; [ |discriminate].
        apply StorageFacts.get_set_same.
      * apply StorageFacts.get_remove_same.
    + split.
      * destruct (truthy moduleId); apply StorageFacts.get_remove_same.
      * intros key N. cbn [option_map]. split.
        -- destruct (truthy moduleId); cbn [option_map]; f_equal;
             [now apply StorageFacts.get_set_other
             |now apply StorageFacts.get_remove_other].
        -- f_equal. now apply StorageFacts.get_remove_other.
  - split; [intros N; now contradiction N| ]. split; [split; reflexivity| ].
    split; [reflexivity| ]. intros key _. split; reflexivity.
Qed.

Lemma persisted_selection_round_trip_witness :
  getPersistedModuleId (setPersistedModuleId (Some "m1") Requests.storage) = Some "m1"
  /\ getPersistedModuleId (setPersistedModuleId (Some "") Requests.storage) = None
  /\ option_map (StrMap.get "theme") (setPersistedModuleId (Some "m1") Requests.storage)
     = Some (Some "dark").
Proof.
  split; [ |split].
  - exact (proj1 (persisted_selection_round_trip Requests.storage (Some "m1"))
             ltac:(discriminate)).
  - exact (proj1 (persisted_selection_round_trip Requests.storage (Some ""))
             ltac:(discriminate)).
  - exact (proj1 (proj2 (proj2 (proj2 (persisted_selection_round_trip Requests.storage
                                         (Some "m1"))))
                    "theme" ltac:(discriminate))).
Defined.

(* ================================================================== *)
(** * The run and the routes of the coverage router: instances *)
(* ================================================================== *)

Lemma scope_holds_one_document_per_outcome_witness :
  proceeds 1 None (db Scenario.withStale) = true
  /\ map Coverage.loId
         (findCoverage (scopeQuery 1 None)
            (Coverages (db (runCoverageAnalysis Scenario.chat Scenario.clock 1 None None
                              Scenario.withStale)))) = ["LO1"; "LO2"]
  /\ map Coverage.loId
         (findCoverage (scopeQuery 1 None)
            (Coverages (db (runCoverageAnalysis Scenario.chat Scenario.clock 1 None None
                              (runCoverageAnalysis Scenario.chat Scenario.clock 1 None
                                 None Scenario.withStale))))) = ["LO1"; "LO2"].
Proof.
  split; [reflexivity| ].
  exact (scope_holds_one_document_per_outcome Scenario.chat Scenario.clock 1 None None
           Scenario.withStale eq_refl).
Defined.

Lemma saved_documents_describe_the_run_witness :
  Forall (fun c =>
            Coverage.moduleId c = 1
            /\ Coverage.analysisTag c = Some "midterm"
            /\ Coverage.analyzedQuestions c = Some [11; 13]
            /\ Coverage.questionCount c = Some 2
            /\ List.length (Coverage.questionsCovered c) <= 2)
         (savedCoverages 1 (Some "midterm") (db Scenario.start)
            (db (runCoverageAnalysis Scenario.chat Scenario.clock 1 (Some [11; 13])
                   (Some "midterm") Scenario.start))).
Proof.
  eapply Forall_impl;
    [ |exact (saved_documents_describe_the_run Scenario.chat Scenario.clock 1
                (Some [11; 13]) (Some "midterm") Scenario.start eq_refl)].
  intros c (Hm & Ht & Ha & Hn & Hl & _).
  split; [exact Hm| ]. split; [exact Ht| ]. split; [exact Ha| ].
  split; [exact Hn|exact Hl].
Defined.

Lemma run_writes_coverage_only_witness :
  Forall (fun c => Coverage.analysisTag c <> Some "")
         (Coverages (db (runCoverageAnalysis Scenario.chat Scenario.clock 1 None
                           (Some "") Scenario.withStale))).
Proof.
  apply (proj2 (proj2 (run_writes_coverage_only Scenario.chat Scenario.clock 1 None
                         (Some "") Scenario.withStale))).
  repeat constructor. discriminate.
Defined.

Lemma analyze_answers_one_result_per_outcome_witness :
  exists results,
    analyzeRoute Scenario.chat Scenario.clock 1 (Some [11; 13]) (Some "midterm")
      Scenario.withStale
    = (AnalyzeCompleted 2 2 (Some "midterm") results,
       runCoverageAnalysis Scenario.chat Scenario.clock 1 (Some [11; 13])
         (Some "midterm") Scenario.withStale)
    /\ map AnalyzeEntry.loId results = ["LO1"; "LO2"].
Proof.
  destruct (analyze_answers_one_result_per_outcome Scenario.chat Scenario.clock 1
              (Some [11; 13]) (Some "midterm") Scenario.withStale eq_refl)
    as (results & E & Hids & _).
  exists results. split; [exact E|exact Hids].
Defined.

Lemma analyze_without_outcomes_or_questions_witness :
  db (snd (analyzeRoute Scenario.chat Scenario.clock 1 None None
             Scenario.withoutQuestions)) = db Scenario.withoutQuestions
  /\ fst (analyzeRoute Scenario.chat Scenario.clock 1 None None
            Scenario.withoutQuestions) = AnalyzeNoQuestions.
Proof.
  destruct (analyze_without_outcomes_or_questions Scenario.chat Scenario.clock 1 None
              None Scenario.withoutQuestions eq_refl) as (Hdb & _ & Hq & _).
  split; [exact Hdb|exact (Hq Scenario.CS101 eq_refl eq_refl)].
Defined.

Lemma analysisTags_are_the_tags_in_use_witness :
  analysisTags 1 (db Scenario.withStale) = [].
Proof.
  apply (proj2 (proj2 (analysisTags_are_the_tags_in_use 1 (db Scenario.withStale)))).
  intros c [<-|[]] _. reflexivity.
Defined.

Lemma tags_after_a_run_witness :
  In "midterm"
     (analysisTags 1 (db (runCoverageAnalysis Scenario.chat Scenario.clock 1 None
                            (Some "midterm") Scenario.withStale)))
  /\ (In "final"
         (analysisTags 1 (db (runCoverageAnalysis Scenario.chat Scenario.clock 1 None
                                (Some "midterm") Scenario.withStale)))
      <-> In "final" (analysisTags 1 (db Scenario.withStale))).
Proof.
  assert (orNull (Some "midterm") <> Some "final") as N by (vm_compute; discriminate).
  split.
  - apply (proj1 (tags_after_a_run Scenario.chat Scenario.clock 1 None (Some "midterm")
                    Scenario.withStale) "midterm"); reflexivity.
  - apply (proj2 (tags_after_a_run Scenario.chat Scenario.clock 1 None (Some "midterm")
                    Scenario.withStale) 1 "final"). right. exact N.
Defined.

(* ================================================================== *)
(** * Removal of a question and of a module: properties *)
(* ================================================================== *)

Module DeletionFacts.

Lemma findQuestionById_None id qs :
  findQuestionById id qs = None <-> ~ In id (map Question._id qs).
Proof.
  unfold findQuestionById. induction qs as [|q qs IH]; simpl; [tauto| ].
  destruct (Nat.eqb_spec (Question._id q) id) as [E|N].
  - split; [discriminate|intros H; exfalso; apply H; now left].
  - rewrite IH. tauto.
Qed.

Lemma filter_other_ids id qs :
  ~ In id (map Question._id qs) ->
  filter (fun q => negb (Nat.eqb (Question._id q) id)) qs = qs.
Proof.
  induction qs as [|q qs IH]; simpl; auto. intros H.
  destruct (Nat.eqb_spec (Question._id q) id) as [E|N]; simpl.
  - exfalso. apply H. now left.
  - rewrite IH; tauto.
Qed.

Lemma deleteQuestionById_filter id qs :
  NoDup (map Question._id qs) ->
  deleteQuestionById id qs = filter (fun q => negb (Nat.eqb (Question._id q) id)) qs.
Proof.
  induction qs as [|q qs IH]; simpl; auto. intros H.
  inversion H as [|x l Hnotin Hnd]; subst.
  destruct (Nat.eqb_spec (Question._id q) id) as [E|N]; simpl.
  - subst id. now rewrite filter_other_ids.
  - now rewrite IH.
Qed.

Lemma resolveQuestions_incl moduleId questionIds qs q :
  In q (resolveQuestions moduleId questionIds qs) -> In q qs.
Proof.
  unfold resolveQuestions, findQuestionsIn, findQuestions.
  destruct questionIds as [ids| ]; [destruct (0 <? List.length ids)| ];
    intros H; now apply filter_In in H.
Qed.

Lemma findById_None id ms :
  findById id ms = None <-> ~ In id (map ModuleDoc._id ms).
Proof.
  unfold findById. induction ms as [|m ms IH]; simpl; [tauto| ].
  destruct (Nat.eqb_spec (ModuleDoc._id m) id) as [E|N].
  - split; [discriminate|intros H; exfalso; apply H; now left].
  - rewrite IH. tauto.
Qed.

Lemma deleteModuleById_gone id ms :
  NoDup (map ModuleDoc._id ms) -> findById id (deleteModuleById id ms) = None.
Proof.
  induction ms as [|m ms IH]; simpl; auto. intros H.
  inversion H as [|x l Hnotin Hnd]; subst.
  destruct (Nat.eqb_spec (ModuleDoc._id m) id) as [E|N].
  - subst id. now apply findById_None.
  - unfold findById in *. simpl.
    destruct (Nat.eqb_spec (ModuleDoc._id m) id); [contradiction|auto].
Qed.

End DeletionFacts.

Section DeletionAndRuns.

Variable World : Type.
Variable chatCompletion : World -> string -> string -> ApiResult * World.
Variable dateNow : World -> Z * World.

(** The covering sets of the documents of a run name resolved questions
    only. *)
Lemma run_covering_ids moduleId questionIds analysisTag (s : Sys World) :
  proceeds moduleId questionIds (db s) = true ->
  Forall (fun c =>
            forall qid, In qid (map Covered.questionId (Coverage.questionsCovered c)) ->
                        In qid (map Question._id
                                  (resolveQuestions moduleId questionIds
                                     (Questions (db s)))))
         (savedCoverages moduleId analysisTag (db s)
            (db (runCoverageAnalysis chatCompletion dateNow moduleId questionIds
                   analysisTag s))).
Proof.
  intros H. apply run_saved_Forall; [exact H| ]. intros lo w now qid.
  unfold recordOf. cbn [fst snd Coverage.questionsCovered]. intros Hin.
  apply coveredBy_ids_In in Hin.
  rewrite <- (similarityAnswers_questions chatCompletion lo
                (resolveQuestions moduleId questionIds (Questions (db s))) w) at 1.
  now rewrite map_map.
Qed.

(** X20.  The removal of a question takes the question out of the
    collection, keeps the order of the others and touches no module and no
    coverage document: the documents that name the question keep naming
    it.  It answers that the question is not found exactly when no question
    has the identifier.  After the removal, a run that goes past its guards
    leaves in its scope no document that names the question. *)
Theorem question_removal_shows_at_the_next_run :
  forall id d,
    NoDup (map Question._id (Questions d)) ->
    let answer := deleteQuestionRoute id d in
    Modules (snd answer) = Modules d
    /\ Coverages (snd answer) = Coverages d
    /\ Questions (snd answer)
       = filter (fun q => negb (Nat.eqb (Question._id q) id)) (Questions d)
    /\ (fst answer = DeleteNotFound <-> ~ In id (map Question._id (Questions d)))
    /\ forall moduleId questionIds analysisTag console w,
         proceeds moduleId questionIds (snd answer) = true ->
         Forall (fun c =>
                   ~ In id (map Covered.questionId (Coverage.questionsCovered c)))
                (findCoverage (scopeQuery moduleId analysisTag)
                   (Coverages
                      (db (runCoverageAnalysis chatCompletion dateNow moduleId
                             questionIds analysisTag (mkSys (snd answer) console w))))).
Proof.
  intros id d Hnd answer.
  assert (Questions (snd answer)
          = filter (fun q => negb (Nat.eqb (Question._id q) id)) (Questions d)) as HQ.
  { unfold answer, deleteQuestionRoute.
    destruct (findQuestionById id (Questions d)) eqn:E; cbn [snd Questions].
    - now apply DeletionFacts.deleteQuestionById_filter.
    - symmetry. apply DeletionFacts.filter_other_ids.
      now apply DeletionFacts.findQuestionById_None. }
  split; [ |split; [ |split; [exact HQ|split]]].
  - unfold answer, deleteQuestionRoute.
    now destruct (findQuestionById id (Questions d)).
  - unfold answer, deleteQuestionRoute.
    now destruct (findQuestionById id (Questions d)).
  - rewrite <- DeletionFacts.findQuestionById_None.
    unfold answer, deleteQuestionRoute.
    destruct (findQuestionById id (Questions d)); cbn [fst]; split;
      try discriminate; reflexivity.
  - intros moduleId questionIds analysisTag console w Hp.
    set (s := mkSys (snd answer) console w).
    change (snd answer) with (db s) in Hp.
    rewrite run_scope_exact by exact Hp.
    pose proof (run_covering_ids moduleId questionIds analysisTag s Hp) as HF.
    eapply Forall_impl; [ |exact HF]. cbv beta. intros c Hc Hin.
    apply Hc in Hin. apply in_map_iff in Hin. destruct Hin as (q & Eq & Hq).
    apply DeletionFacts.resolveQuestions_incl in Hq.
    change (Questions (db s)) with (Questions (snd answer)) in Hq.
    rewrite HQ in Hq. apply filter_In in Hq. destruct Hq as [_ Hq].
    rewrite Eq, Nat.eqb_refl in Hq. discriminate.
Qed.

(** X21.  The removal of a module removes the module only: its questions
    and its coverage documents stay in their collections, and its tags are
    still listed.  From then on the report and the statistics of the module
    answer that it is not found, an analysis of it is answered the same
    way, and a run for it changes nothing. *)
Theorem module_removal_leaves_questions_and_documents :
  forall id d d',
    NoDup (map ModuleDoc._id (Modules d)) ->
    deleteModuleRoute id d = (Deleted, d') ->
    Questions d' = Questions d
    /\ Coverages d' = Coverages d
    /\ analysisTags id d' = analysisTags id d
    /\ (forall analysisTag,
          getReport id analysisTag d' = None /\ getStats id analysisTag d' = None)
    /\ forall questionIds analysisTag console w,
         db (runCoverageAnalysis chatCompletion dateNow id questionIds analysisTag
               (mkSys d' console w)) = d'
         /\ analyzeRoute chatCompletion dateNow id questionIds analysisTag
              (mkSys d' console w)
            = (AnalyzeModuleNotFound, mkSys d' console w).
Proof.
  intros id d d' Hnd. unfold deleteModuleRoute.
  destruct (findById id (Modules d)) as [mdl| ]; [ |discriminate].
  intros [= <-]. cbn [Questions Coverages].
  assert (findById id (deleteModuleById id (Modules d)) = None) as Hgone
      by (now apply DeletionFacts.deleteModuleById_gone).
  split; [reflexivity| ]. split; [reflexivity| ]. split; [reflexivity| ]. split.
  - intros analysisTag. unfold getReport, getStats. cbn [Modules].
    now rewrite Hgone.
  - intros questionIds analysisTag console w. split.
    + apply (run_skipped chatCompletion dateNow id questionIds analysisTag
               (mkSys (mkDatabase (deleteModuleById id (Modules d)) (Questions d)
                                  (Coverages d)) console w)).
      unfold proceeds. cbn [db Modules]. now rewrite Hgone.
    + unfold analyzeRoute. cbn [db Modules]. now rewrite Hgone.
Qed.

End DeletionAndRuns.

(* ================================================================== *)
(** * Upload of a question paper: properties *)
(* ================================================================== *)

Module UploadFacts.

Lemma unlink_present path fs :
  In path fs ->
  unlink path fs = Ok (filter (fun f => negb (String.eqb f path)) fs).
Proof.
  intros H. unfold unlink.
  replace (existsb (String.eqb path) fs) with true; [reflexivity| ].
  symmetry. apply existsb_exists. exists path. split; [exact H| ].
  apply String.eqb_refl.
Qed.

Lemma removed path fs :
  let fs' := filter (fun f => negb (String.eqb f path)) fs in
  ~ In path fs' /\ forall f, f <> path -> (In f fs' <-> In f fs).
Proof.
  cbv zeta. split.
  - intros H. apply filter_In in H. destruct H as [_ H].
    now rewrite String.eqb_refl in H.
  - intros f N. rewrite filter_In.
    destruct (String.eqb_spec f path); [contradiction|simpl; tauto].
Qed.

Lemma cleanUp_present file disk :
  In (UploadedFile.path file) (files disk) ->
  cleanUp file disk
  = mkDisk (filter (fun f => negb (String.eqb f (UploadedFile.path file))) (files disk))
           (failedToDelete disk).
Proof.
  intros H. unfold cleanUp. now rewrite unlink_present.
Qed.

End UploadFacts.

Section UploadRouteFacts.

Variable World : Type.
Variable chatCompletion : World -> string -> string -> ApiResult * World.
Variable dateNow : World -> Z * World.
Variable newObjectId : World -> ObjectId * World.
Variable parsePDF parseDOCX parseTXT : string -> option string.
Variable splitIntoQuestions : string -> list string.

Lemma saveUploaded_spec moduleId questionTexts :
  forall savedQuestions d w l d' w',
    saveUploaded newObjectId moduleId questionTexts savedQuestions d w = (Ok l, d', w') ->
    exists added,
      l = savedQuestions ++ added
      /\ Questions d' = Questions d ++ added
      /\ Modules d' = Modules d
      /\ Coverages d' = Coverages d
      /\ map Question.questionText added = map Text.trim questionTexts
      /\ Forall (fun q =>
                   Question.moduleId q = moduleId
                   /\ Question.questionType q = Structured
                   /\ Question.source q = Uploaded
                   /\ Question.options q = []
                   /\ Question.questionText q <> "") added.
Proof.
  induction questionTexts as [|questionText rest IH];
    intros savedQuestions d w l d' w'; cbn [saveUploaded].
  - intros [= <- <- <-]. exists []. rewrite !app_nil_r. repeat split; auto.
  - destruct (newObjectId w) as [id w1]. unfold saveQuestion.
    destruct (truthy (Some (Text.trim questionText))) eqn:T; [ |discriminate].
    intros E. apply IH in E.
    destruct E as (added & -> & HQ & HM & HC & Ht & HF).
    exists (Question.mk id moduleId (Text.trim questionText) Structured Uploaded []
              "" (JS.of_Z 0) "" :: added).
    rewrite HQ, HM, HC. cbn [Questions Modules Coverages map Question.questionText].
    rewrite <- !app_assoc, Ht.
    split; [reflexivity| ]. split; [reflexivity| ]. split; [reflexivity| ].
    split; [reflexivity| ]. split; [reflexivity| ].
    constructor; [ |exact HF].
    cbn [Question.moduleId Question.questionType Question.source Question.options
         Question.questionText].
    repeat split. intros E. unfold truthy in T. rewrite E in T. discriminate.
Qed.

(** X22.  Whatever the request, the readers and the database do, a file
    that the upload left in the directory is no longer there when the
    route has answered, no other file is touched and no failure of the
    cleanup is reported. *)
Theorem upload_removes_the_file :
  forall file moduleId (s : Sys World) disk,
    In (UploadedFile.path file) (files disk) ->
    let answer :=
      uploadRoute chatCompletion dateNow newObjectId parsePDF parseDOCX parseTXT
        splitIntoQuestions (Some file) moduleId s disk in
    ~ In (UploadedFile.path file) (files (snd answer))
    /\ (forall f, f <> UploadedFile.path file ->
                  (In f (files (snd answer)) <-> In f (files disk)))
    /\ failedToDelete (snd answer) = failedToDelete disk.
Proof.
  intros file moduleId s disk Hin answer.
  assert (snd answer
          = mkDisk (filter (fun f => negb (String.eqb f (UploadedFile.path file)))
                      (files disk)) (failedToDelete disk)) as ->.
  { unfold answer, uploadRoute.
    rewrite (UploadFacts.cleanUp_present file disk Hin).
    rewrite (UploadFacts.unlink_present _ _ Hin).
    destruct moduleId as [m| ]; [ |reflexivity].
    destruct (findById m (Modules (db s))); [ |reflexivity].
    destruct (extractTextFromFile _ _ _ _ _); try reflexivity.
    now destruct (saveUploaded _ _ _ _ _ _) as [[[l| ] d1] w1]. }
  cbn [files failedToDelete].
  destruct (UploadFacts.removed (UploadedFile.path file) (files disk)) as [H1 H2].
  split; [exact H1| ]. split; [exact H2|reflexivity].
Qed.

(** X23.  An upload that is answered with questions read a text from the
    file, saved one structured question of source Uploaded for each text
    the splitter gave, with the trimmed text, in their order and after the
    questions the collection held, and then started the analysis of the
    default scope of the module.  An upload answered that the file, the
    module identifier or the module is missing leaves the system as it
    was. *)
Theorem upload_saves_one_question_per_text :
  forall file moduleId (s : Sys World) disk,
    let answer :=
      uploadRoute chatCompletion dateNow newObjectId parsePDF parseDOCX parseTXT
        splitIntoQuestions file moduleId s disk in
    (forall count questions,
        fst (fst answer) = UploadedQuestions count questions ->
        exists f m text w1,
          file = Some f /\ moduleId = Some m
          /\ extractTextFromFile parsePDF parseDOCX parseTXT (UploadedFile.path f)
               (UploadedFile.mimetype f) = ExtractedText text
          /\ count = List.length (splitIntoQuestions text)
          /\ map Question.questionText questions
             = map Text.trim (splitIntoQuestions text)
          /\ Forall (fun q =>
                       Question.moduleId q = m
                       /\ Question.questionType q = Structured
                       /\ Question.source q = Uploaded
                       /\ Question.options q = []
                       /\ Question.questionText q <> "") questions
          /\ snd (fst answer)
             = runCoverageAnalysis chatCompletion dateNow m None None
                 (mkSys (mkDatabase (Modules (db s)) (Questions (db s) ++ questions)
                                    (Coverages (db s)))
                        (console s) w1))
    /\ (fst (fst answer) = NoFileUploaded
        \/ fst (fst answer) = UploadModuleIdRequired
        \/ fst (fst answer) = UploadModuleNotFound ->
        snd (fst answer) = s).
Proof.
  intros file moduleId s disk answer. unfold answer, uploadRoute.
  destruct file as [f| ].
  2:{ cbn [fst snd]. split; [discriminate|reflexivity]. }
  destruct moduleId as [m| ].
  2:{ destruct (unlink _ _); cbn [fst snd]; split; try discriminate; reflexivity. }
  destruct (findById m (Modules (db s))) as [mdl| ].
  2:{ destruct (unlink _ _); cbn [fst snd]; split; try discriminate; reflexivity. }
  destruct (extractTextFromFile _ _ _ _ _) as [text| |mime] eqn:Ex.
  2:{ cbn [fst snd]. split; [discriminate|reflexivity]. }
  2:{ cbn [fst snd]. split; [discriminate|reflexivity]. }
  destruct (saveUploaded newObjectId m (splitIntoQuestions text) [] (db s) (world s))
    as [[[l| ] d1] w1] eqn:Es.
  2:{ cbn [fst snd]. split; [discriminate| ].
      intros [H|[H|H]]; discriminate H. }
  destruct (unlink _ _) as [fs| ].
  2:{ cbn [fst snd]. split; [discriminate| ].
      intros [H|[H|H]]; discriminate H. }
  cbn [fst snd]. split.
  - intros count questions [= <- <-].
    apply saveUploaded_spec in Es.
    destruct Es as (added & -> & HQ & HM & HC & Ht & HF). cbn [app] in *.
    exists f, m, text, w1.
    split; [reflexivity| ]. split; [reflexivity| ]. split; [exact Ex| ].
    split; [now rewrite <- (length_map Question.questionText), Ht, length_map| ].
    split; [exact Ht| ]. split; [exact HF| ].
    destruct d1 as [ms qs cs]. cbn [Questions Modules Coverages] in *. now subst.
  - intros [H|[H|H]]; discriminate H.
Qed.

End UploadRouteFacts.

(* ================================================================== *)
(** * The question generator page: properties *)
(* ================================================================== *)

Module SelectionFacts.

Local Open Scope Q_scope.

(** A percentage below 30 has the status Not Covered. *)
Lemma below_30_is_not_covered (p : JS.jsnum) :
  JS.ltb p (JS.of_Z 30) = true -> statusOf p = NotCovered.
Proof.
  unfold statusOf, JS.geb, JS.leb, JS.ltb, JS.of_Z.
  destruct p as [ | | |q]; simpl; try discriminate; auto.
  destruct (Qcompare_spec q (inject_Z 30)) as [E|L|G]; try discriminate. intros _.
  assert (inject_Z 30 < inject_Z 70) as H3070 by (rewrite <- Zlt_Qlt; reflexivity).
  destruct (Qcompare_spec (inject_Z 70) q) as [E1|L1|G1];
    [rewrite <- E1 in L; lra|lra| ].
  destruct (Qcompare_spec (inject_Z 30) q) as [E2|L2|G2]; [rewrite <- E2 in L; lra|lra| ].
  reflexivity.
Qed.

Local Close Scope Q_scope.

Lemma NoDup_map_filter {A B} (f : A -> B) (p : A -> bool) l :
  NoDup (map f l) -> NoDup (map f (filter p l)).
Proof.
  induction l as [|a l IH]; simpl; auto. intros H.
  inversion H as [|x y Hnotin Hnd]; subst.
  destruct (p a); simpl; auto. constructor; auto.
  intros Hin. apply Hnotin. apply in_map_iff in Hin. destruct Hin as (b & E & Hb).
  apply filter_In in Hb. apply in_map_iff. exists b. tauto.
Qed.

Lemma Status_eqb_eq a b : Status_eqb a b = true <-> a = b.
Proof. destruct a, b; simpl; split; congruence. Qed.

End SelectionFacts.

(** X24.  Selecting an outcome that is not selected adds it at the end and
    selecting a selected one removes it; no other outcome enters or leaves
    the selection, a selection without repetition stays without one, and
    selecting twice an outcome that was not selected gives the selection
    back. *)
Theorem selection_toggles_one_outcome :
  forall loId selectedLOs,
    (forall x, In x (handleLOSelect loId selectedLOs)
               <-> (x = loId /\ ~ In loId selectedLOs)
                   \/ (x <> loId /\ In x selectedLOs))
    /\ (NoDup selectedLOs -> NoDup (handleLOSelect loId selectedLOs))
    /\ (~ In loId selectedLOs ->
        handleLOSelect loId (handleLOSelect loId selectedLOs) = selectedLOs).
Proof.
  intros loId selectedLOs. unfold handleLOSelect at 1 2.
  destruct (existsb (String.eqb loId) selectedLOs) eqn:E.
  - assert (In loId selectedLOs) as Hin.
    { apply existsb_exists in E. destruct E as (y & Hy & Ey).
      apply String.eqb_eq in Ey. now subst y. }
    split; [ |split].
    + intros x. rewrite filter_In.
      destruct (String.eqb_spec x loId) as [->|N]; simpl; split.
      * intros [_ H]; discriminate.
      * intros [[_ H]|[H _]]; contradiction.
      * intros [H _]. right. auto.
      * intros [[H _]|[_ H]]; [contradiction|auto].
    + intros H. now apply NoDup_filter.
    + intros H. contradiction.
  - assert (~ In loId selectedLOs) as Hnot.
    { intros H. assert (existsb (String.eqb loId) selectedLOs = true) as E'.
      { apply existsb_exists. exists loId. split; auto. apply String.eqb_refl. }
      congruence. }
    split; [ |split].
    + intros x. rewrite in_app_iff. simpl.
      destruct (String.eqb_spec x loId) as [->|N]; split.
      * intros _. left. auto.
      * intros _. right. left. reflexivity.
      * intros [H|[H|[]]]; [right; auto|congruence].
      * intros [[H _]|[_ H]]; [contradiction|left; exact H].
    + intros H. apply NoDup_app; [exact H|repeat constructor; simpl; tauto| ].
      intros x Hx [<-|[]]. contradiction.
    + intros _.
      assert (handleLOSelect loId selectedLOs = selectedLOs ++ [loId]) as ->
          by (unfold handleLOSelect; now rewrite E).
      unfold handleLOSelect.
      replace (existsb (String.eqb loId) (selectedLOs ++ [loId])) with true.
      * rewrite filter_app. simpl. rewrite String.eqb_refl. simpl.
        rewrite app_nil_r. apply filter_all.
        apply Forall_forall. intros x Hx.
        destruct (String.eqb_spec x loId); [subst; contradiction|reflexivity].
      * symmetry. apply existsb_exists. exists loId. split.
        -- apply in_or_app. right. now left.
        -- apply String.eqb_refl.
Qed.

Lemma selection_toggles_one_outcome_witness :
  handleLOSelect "LO2" (handleLOSelect "LO2" ["LO1"; "LO3"]) = ["LO1"; "LO3"]
  /\ NoDup (handleLOSelect "LO1" ["LO1"; "LO3"]).
Proof.
  destruct (selection_toggles_one_outcome "LO2" ["LO1"; "LO3"]) as (_ & _ & H).
  destruct (selection_toggles_one_outcome "LO1" ["LO1"; "LO3"]) as (_ & Hnd & _).
  split.
  - apply H. simpl. intros [E|[E|[]]]; discriminate E.
  - apply Hnd. repeat constructor; simpl; intuition discriminate.
Defined.

Section SelectionAfterRun.

Variable World : Type.
Variable chatCompletion : World -> string -> string -> ApiResult * World.
Variable dateNow : World -> Z * World.

(** X25.  On the report of the default scope read after a run that went
    past its guards on a module whose outcomes have distinct identifiers,
    the selection of the uncovered outcomes holds, each once, the outcomes
    of the module whose entry has the status Not Covered: the test on the
    percentage selects no other entry. *)
Theorem uncovered_selection_is_the_not_covered_outcomes :
  forall moduleId questionIds (s : Sys World),
    proceeds moduleId questionIds (db s) = true ->
    NoDup (map LearningOutcome.loId (outcomesOf moduleId (db s))) ->
    let s' := runCoverageAnalysis chatCompletion dateNow moduleId questionIds None s in
    exists results,
      getReport moduleId None (db s') = Some results
      /\ forall selectedLOs,
           let selected := handleSelectUncovered (Some results) selectedLOs in
           NoDup selected
           /\ incl selected (map LearningOutcome.loId (outcomesOf moduleId (db s)))
           /\ forall lo, In lo selected
                         <-> exists r, In r results
                                       /\ ReportEntry.loId r = lo
                                       /\ ReportEntry.status r = NotCovered.
Proof.
  intros moduleId questionIds s H Hnd s'.
  pose proof (run_one_per_outcome chatCompletion dateNow moduleId questionIds None s H)
    as Hids.
  pose proof (run_saved_Forall chatCompletion dateNow moduleId questionIds None s
                (fun c => Coverage.status c = statusOf (Coverage.coveragePercentage c)) H)
    as Hst.
  rewrite <- run_scope_exact in Hids, Hst by exact H. fold s' in Hids, Hst.
  specialize (Hst ltac:(intros; reflexivity)).
  set (scope := findCoverage (scopeQuery moduleId None) (Coverages (db s'))) in *.
  assert (exists mdl, findById moduleId (Modules (db s')) = Some mdl) as [mdl Hmdl].
  { destruct (run_keeps_modules_questions chatCompletion dateNow moduleId questionIds
                None s) as [HM _]. fold s' in HM. rewrite HM.
    unfold proceeds in H. destruct (findById moduleId (Modules (db s))); eauto.
    discriminate. }
  assert (deduplicate (sortByAnalyzedAtDesc scope) = sortByAnalyzedAtDesc scope) as Hdd.
  { apply StatsFacts.deduplicate_distinct.
    eapply Permutation_NoDup; [ |rewrite <- Hids in Hnd; exact Hnd]. symmetry.
    apply Permutation_map, StatsFacts.sort_perm. }
  exists (map (enrich mdl) (sortByAnalyzedAtDesc scope)). split.
  { unfold getReport. rewrite Hmdl. fold scope. now rewrite Hdd. }
  intros selectedLOs selected.
  assert (Permutation (map ReportEntry.loId (map (enrich mdl) (sortByAnalyzedAtDesc scope)))
                      (map LearningOutcome.loId (outcomesOf moduleId (db s)))) as Hperm.
  { rewrite map_map. cbn [enrich ReportEntry.loId]. rewrite <- Hids.
    apply Permutation_map, StatsFacts.sort_perm. }
  assert (forall r, In r (map (enrich mdl) (sortByAnalyzedAtDesc scope)) ->
                    ReportEntry.status r = statusOf (ReportEntry.coveragePercentage r))
    as Hinv.
  { intros r Hr. apply in_map_iff in Hr. destruct Hr as (c & <- & Hc).
    cbn [enrich ReportEntry.status ReportEntry.coveragePercentage].
    rewrite Forall_forall in Hst. apply Hst.
    eapply Permutation_in; [apply StatsFacts.sort_perm|exact Hc]. }
  unfold selected, handleSelectUncovered. split; [ |split].
  - apply SelectionFacts.NoDup_map_filter.
    eapply Permutation_NoDup; [symmetry; exact Hperm|exact Hnd].
  - intros lo Hlo. eapply Permutation_in; [exact Hperm| ].
    apply in_map_iff in Hlo. destruct Hlo as (r & E & Hr).
    apply filter_In in Hr. apply in_map_iff. exists r. tauto.
  - intros lo. rewrite in_map_iff. split.
    + intros (r & E & Hr). apply filter_In in Hr. destruct Hr as [Hr Hf].
      exists r. split; [exact Hr| ]. split; [exact E| ].
      apply orb_true_iff in Hf. destruct Hf as [Hf|Hf].
      * now apply SelectionFacts.Status_eqb_eq.
      * rewrite (Hinv r Hr). now apply SelectionFacts.below_30_is_not_covered.
    + intros (r & Hr & E & Hs). exists r. split; [exact E| ].
      apply filter_In. split; [exact Hr| ]. rewrite Hs. reflexivity.
Qed.

End SelectionAfterRun.

Lemma uncovered_selection_is_the_not_covered_outcomes_witness :
  exists results,
    getReport 1 None
      (db (runCoverageAnalysis Scenario.chat Scenario.clock 1 None None
             Scenario.withStale)) = Some results
    /\ handleSelectUncovered (Some results) ["LO1"] = ["LO2"].
Proof.
  destruct (uncovered_selection_is_the_not_covered_outcomes Scenario.chat
              Scenario.clock 1 None Scenario.withStale eq_refl)
    as (results & E & _).
  - vm_compute. repeat constructor; simpl; intuition discriminate.
  - exists results. split; [exact E| ].
    vm_compute in E. injection E as <-. vm_compute. reflexivity.
Defined.

Section GenerateEachFacts.

Variable World : Type.
Variable generateQuestions :
  World -> string -> string -> Z -> Z -> Outcome Generated.t * World.
Variable newObjectId : World -> ObjectId * World.

(** A request for one outcome against the turn of the batch for it. *)
Lemma request_is_a_turn_of_the_batch mdl moduleId loId mcqCount structuredCount d w :
  loId <> "" -> mcqCount <> 0%Z -> structuredCount <> 0%Z ->
  findById moduleId (Modules d) = Some mdl ->
  let single :=
    generateQuestionsRoute generateQuestions newObjectId (Some moduleId) (Some loId)
      mcqCount structuredCount d w in
  let turn :=
    generateForOutcome generateQuestions newObjectId mdl moduleId (Some mcqCount)
      (Some structuredCount) loId d w in
  snd (fst single) = snd (fst turn)
  /\ snd single = snd turn
  /\ match fst (fst single) with Success _ _ => true | _ => false end
     = batchSuccess (fst (fst turn)).
Proof.
  intros Hl Hm Hs Hfind. unfold generateQuestionsRoute, generateForOutcome.
  assert (truthy (Some loId) = true) as ->.
  { unfold truthy. destruct (String.eqb_spec loId ""); [contradiction|reflexivity]. }
  unfold countOr. apply Z.eqb_neq in Hm, Hs. rewrite Hm, Hs, Hfind. cbn [negb orb].
  destruct (find _ (ModuleDoc.learningOutcomes mdl)) as [lo| ]; [ |cbn; auto].
  destruct (generateQuestions w _ _ mcqCount structuredCount) as [[g| ] w1];
    [ |cbn; auto].
  destruct (saveMCQs newObjectId moduleId _ [] d w1) as [[[savedMCQs| ] d1] w2];
    [ |cbn; auto].
  destruct (saveStructured newObjectId moduleId _ [] d1 w2)
    as [[[savedStructured| ] d2] w3]; cbn; auto.
Qed.

Lemma generateEach_is_the_loop_of_the_batch mdl moduleId mcqCount structuredCount loIds :
  mcqCount <> 0%Z -> structuredCount <> 0%Z ->
  Forall (fun loId => loId <> "") loIds ->
  forall results results' d w,
    findById moduleId (Modules d) = Some mdl ->
    let each :=
      generateEach generateQuestions newObjectId moduleId mcqCount structuredCount
        loIds results d w in
    let batch :=
      generateBatchLoop generateQuestions newObjectId mdl moduleId (Some mcqCount)
        (Some structuredCount) loIds results' d w in
    snd (fst each) = snd (fst batch)
    /\ snd each = snd batch
    /\ exists fresh fresh',
         fst (fst each) = results ++ fresh
         /\ fst (fst batch) = results' ++ fresh'
         /\ map fst fresh = loIds
         /\ map snd fresh = map batchSuccess fresh'.
Proof.
  intros Hm Hs HF. induction HF as [|loId rest Hl _ IH];
    intros results results' d w Hfind; cbn [generateEach generateBatchLoop].
  - cbn [fst snd]. split; [reflexivity| ]. split; [reflexivity| ].
    exists [], []. rewrite !app_nil_r. auto.
  - pose proof (@request_is_a_turn_of_the_batch mdl moduleId loId mcqCount
                  structuredCount d w Hl Hm Hs Hfind) as H. cbv zeta in H.
    pose proof (generateForOutcome_spec generateQuestions newObjectId mdl moduleId
                  (Some mcqCount) (Some structuredCount) loId d w) as Hspec.
    cbv zeta in Hspec.
    destruct (generateQuestionsRoute generateQuestions newObjectId (Some moduleId)
                (Some loId) mcqCount structuredCount d w) as [[r1 d1] w1].
    destruct (generateForOutcome generateQuestions newObjectId mdl moduleId
                (Some mcqCount) (Some structuredCount) loId d w) as [[r2 d2] w2].
    cbn [fst snd] in H, Hspec. destruct H as (<- & <- & Hsucc).
    destruct Hspec as (_ & _ & added & _ & HM & _).
    assert (findById moduleId (Modules d1) = Some mdl) as Hfind'
        by (now rewrite HM).
    destruct (IH (results ++ [(loId, match r1 with
                                     | Success _ _ => true
                                     | _ => false
                                     end)]) (results' ++ [r2]) d1 w1 Hfind')
      as (Hd & Hw & fresh & fresh' & E1 & E2 & Hids & Hflags).
    split; [exact Hd| ]. split; [exact Hw| ].
    exists ((loId, match r1 with Success _ _ => true | _ => false end) :: fresh),
           (r2 :: fresh').
    rewrite E1, E2, <- !app_assoc. cbn [app map fst snd].
    rewrite Hids, Hflags, Hsucc. auto.
Qed.

(** X26.  With counts other than zero, on a module that exists, the
    requests that the page sends one after the other for the selected
    outcomes leave the database and the world as one request of the batch
    route for the same outcomes does; the page gets one result for each
    outcome, in their order, a success where the batch reports generated
    questions, and counts as many successes. *)
Theorem page_requests_amount_to_one_batch :
  forall moduleId mcqCount structuredCount selectedLOs d w mdl,
    mcqCount <> 0%Z -> structuredCount <> 0%Z ->
    selectedLOs <> [] ->
    Forall (fun loId => loId <> "") selectedLOs ->
    findById moduleId (Modules d) = Some mdl ->
    let each :=
      generateEach generateQuestions newObjectId moduleId mcqCount structuredCount
        selectedLOs [] d w in
    exists results,
      generateBatchRoute generateQuestions newObjectId (Some moduleId)
        (Some selectedLOs) (Some mcqCount) (Some structuredCount) d w
      = (BatchCompleted results, snd (fst each), snd each)
      /\ map fst (fst (fst each)) = selectedLOs
      /\ map snd (fst (fst each)) = map batchSuccess results
      /\ successCount (fst (fst each)) = List.length (filter batchSuccess results).
Proof.
  intros moduleId mcqCount structuredCount selectedLOs d w mdl Hm Hs Hne HF Hfind each.
  destruct (@generateEach_is_the_loop_of_the_batch mdl moduleId mcqCount
              structuredCount selectedLOs Hm Hs HF [] [] d w Hfind)
    as (Hd & Hw & fresh & fresh' & E1 & E2 & Hids & Hflags).
  fold each in Hd, Hw, E1. cbn [app] in E1, E2.
  unfold generateBatchRoute. destruct selectedLOs as [|loId rest]; [contradiction| ].
  rewrite Hfind.
  destruct (generateBatchLoop generateQuestions newObjectId mdl moduleId (Some mcqCount)
              (Some structuredCount) (loId :: rest) [] d w) as [[results d'] w'].
  cbn [fst snd] in *. subst results d' w'.
  exists fresh'. rewrite E1. split; [reflexivity| ]. split; [exact Hids| ].
  split; [exact Hflags| ].
  unfold successCount.
  assert (forall (l : list (string * bool)) (l' : list BatchResult),
             map snd l = map batchSuccess l' ->
             List.length (filter (fun r => snd r) l)
             = List.length (filter batchSuccess l')) as Hcount.
  { induction l as [|a l IHl]; intros [|b l'] E; try discriminate; auto.
    cbn [map] in E. injection E as Ea El. cbn [filter]. rewrite Ea.
    destruct (batchSuccess b); cbn [List.length]; auto. }
  now apply Hcount.
Qed.

End GenerateEachFacts.

Lemma page_requests_amount_to_one_batch_witness :
  exists results,
    generateBatchRoute Requests.generator Scenario.freshId (Some 1)
      (Some ["LO1"; "LO2"]) (Some 2%Z) (Some 1%Z) Scenario.database
      (Scenario.answers, 1000%Z)
    = (BatchCompleted results,
       snd (fst (generateEach Requests.generator Scenario.freshId 1 2 1 ["LO1"; "LO2"]
                   [] Scenario.database (Scenario.answers, 1000%Z))),
       snd (generateEach Requests.generator Scenario.freshId 1 2 1 ["LO1"; "LO2"]
              [] Scenario.database (Scenario.answers, 1000%Z)))
    /\ successCount
         (fst (fst (generateEach Requests.generator Scenario.freshId 1 2 1
                      ["LO1"; "LO2"] [] Scenario.database (Scenario.answers, 1000%Z))))
       = List.length (filter batchSuccess results).
Proof.
  destruct (@page_requests_amount_to_one_batch _ Requests.generator Scenario.freshId
              1 2%Z 1%Z ["LO1"; "LO2"] Scenario.database (Scenario.answers, 1000%Z)
              Scenario.CS101 ltac:(discriminate) ltac:(discriminate)
              ltac:(discriminate) ltac:(repeat constructor; discriminate) eq_refl)
    as (results & E & _ & _ & Hc).
  exists results. split; [exact E|exact Hc].
Defined.

(* ================================================================== *)
(** * Removal and upload: instances *)
(* ================================================================== *)

Lemma question_removal_shows_at_the_next_run_witness :
  Questions (snd (deleteQuestionRoute 11 Scenario.database))
  = [Scenario.Q2; Scenario.Q3; Scenario.Q9]
  /\ Forall (fun c => ~ In 11 (map Covered.questionId (Coverage.questionsCovered c)))
            (findCoverage (scopeQuery 1 None)
               (Coverages
                  (db (runCoverageAnalysis Scenario.chat Scenario.clock 1 None None
                         (mkSys (snd (deleteQuestionRoute 11 Scenario.database)) []
                                (Scenario.answers, 1000%Z)))))).
Proof.
  assert (NoDup (map Question._id (Questions Scenario.database))) as Hnd
      by (vm_compute; repeat constructor; simpl; intuition discriminate).
  destruct (question_removal_shows_at_the_next_run Scenario.chat Scenario.clock 11
              Scenario.database Hnd) as (_ & _ & HQ & _ & Hrun).
  split; [exact HQ| ].
  exact (Hrun 1 None None [] (Scenario.answers, 1000%Z) eq_refl).
Defined.

Lemma module_removal_leaves_questions_and_documents_witness :
  Coverages (snd (deleteModuleRoute 1 (db Scenario.withStale)))
  = [Scenario.stale 500 Covered 80]
  /\ getReport 1 None (snd (deleteModuleRoute 1 (db Scenario.withStale))) = None.
Proof.
  assert (NoDup (map ModuleDoc._id (Modules (db Scenario.withStale)))) as Hnd
      by (vm_compute; repeat constructor; simpl; intuition discriminate).
  destruct (@module_removal_leaves_questions_and_documents _ Scenario.chat
              Scenario.clock 1 (db Scenario.withStale)
              (snd (deleteModuleRoute 1 (db Scenario.withStale))) Hnd eq_refl)
    as (_ & HC & _ & HR & _).
  split; [exact HC|exact (proj1 (HR None))].
Defined.

Lemma upload_removes_the_file_witness :
  files (snd (uploadRoute Scenario.chat Scenario.clock Scenario.freshId
                Requests.reader Requests.reader Requests.reader Requests.splitter
                (Some Requests.paper) (Some 7) Scenario.withStale Requests.disk))
  = ["uploads/old.pdf"]
  /\ ~ In "uploads/paper.txt"
         (files (snd (uploadRoute Scenario.chat Scenario.clock Scenario.freshId
                        Requests.reader Requests.reader Requests.reader
                        Requests.splitter (Some Requests.paper) (Some 7)
                        Scenario.withStale Requests.disk))).
Proof.
  split; [reflexivity| ].
  apply (upload_removes_the_file Scenario.chat Scenario.clock Scenario.freshId
           Requests.reader Requests.reader Requests.reader Requests.splitter
           Requests.paper (Some 7) Scenario.withStale Requests.disk).
  right. left. reflexivity.
Defined.

Lemma upload_saves_one_question_per_text_witness :
  exists questions,
    fst (fst (uploadRoute Scenario.chat Scenario.clock Scenario.freshId
                Requests.reader Requests.reader Requests.reader Requests.splitter
                (Some Requests.paper) (Some 1) Scenario.withStale Requests.disk))
    = UploadedQuestions 2 questions
    /\ map Question.questionText questions = ["What is a loop?"; "What is a stack?"].
Proof.
  pose (answer := uploadRoute Scenario.chat Scenario.clock Scenario.freshId
                    Requests.reader Requests.reader Requests.reader Requests.splitter
                    (Some Requests.paper) (Some 1) Scenario.withStale Requests.disk).
  pose (questions := match fst (fst answer) with
                     | UploadedQuestions _ qs => qs
                     | _ => []
                     end).
  assert (fst (fst answer) = UploadedQuestions 2 questions) as E
      by (vm_compute; reflexivity).
  destruct (proj1 (upload_saves_one_question_per_text Scenario.chat Scenario.clock
                     Scenario.freshId Requests.reader Requests.reader Requests.reader
                     Requests.splitter (Some Requests.paper) (Some 1)
                     Scenario.withStale Requests.disk) 2 questions E)
    as (f & m & text & w1 & _ & _ & _ & _ & Ht & _).
  exists questions. split; [exact E|exact Ht].
Defined.

(* ================================================================== *)
(** * Update of a question: properties *)
(* ================================================================== *)

Module UpdateFacts.

Lemma replaceQuestion_ids question qs :
  map Question._id (replaceQuestion question qs) = map Question._id qs.
Proof.
  induction qs as [|q qs IH]; simpl; auto.
  destruct (Nat.eqb_spec (Question._id q) (Question._id question)) as [E|N]; simpl.
  - now rewrite E.
  - now rewrite IH.
Qed.

Lemma replaceQuestion_In question qs x :
  In x (replaceQuestion question qs) -> x = question \/ In x qs.
Proof.
  induction qs as [|q qs IH]; simpl; auto.
  destruct (Nat.eqb (Question._id q) (Question._id question)); simpl.
  - intros [H|H]; auto.
  - intros [H|H]; auto. destruct (IH H); auto.
Qed.

(** The place of the replacement: that of the first document of the
    identifier. *)
Lemma replaceQuestion_at question qs old :
  findQuestionById (Question._id question) qs = Some old ->
  exists before after,
    qs = before ++ old :: after
    /\ replaceQuestion question qs = before ++ question :: after
    /\ Forall (fun x => Question._id x <> Question._id question) before.
Proof.
  unfold findQuestionById.
  induction qs as [|q qs IH]; cbn [find replaceQuestion]; [discriminate| ].
  destruct (Nat.eqb_spec (Question._id q) (Question._id question)) as [E|N].
  - intros [= <-]. exists [], qs. repeat split. constructor.
  - intros H. destruct (IH H) as (before & after & -> & -> & HF).
    exists (q :: before), after. repeat split. now constructor.
Qed.

Lemma findQuestionById_Some id qs q :
  findQuestionById id qs = Some q -> In q qs /\ Question._id q = id.
Proof.
  intros H. apply find_some in H. destruct H as [H E].
  now apply Nat.eqb_eq in E.
Qed.

Lemma last_assignments body q :
  sameHead
    (assign (UpdateBody.sampleAnswer body) (fun v => setSampleAnswer (Text.trim v))
       (assign (UpdateBody.marks body) (fun v => setMarks (JS.Fin v))
          (assign (UpdateBody.correctAnswer body)
             (fun v => setCorrectAnswer (Text.trim v)) q)))
    q.
Proof.
  unfold assign, sameHead.
  destruct (UpdateBody.sampleAnswer body), (UpdateBody.marks body),
    (UpdateBody.correctAnswer body); cbn; repeat split.
Qed.

End UpdateFacts.

(** X27.  An update never touches a module or a coverage document, and
    starts no analysis: the documents computed from the former text stay.
    An update that is not answered with the question changes nothing.  An
    updated question keeps its identifier, its module and its source, its
    text is not empty, and it is in the collection at the place of the
    former one, which is the first document of the identifier, the
    questions before and after it staying as they were; when options are
    given it keeps the ones that are not blank, at least two for an MCQ, and
    when none is given it keeps its options. *)
Theorem question_update_keeps_identity_and_coverage :
  forall id body d,
    let answer := updateQuestionRoute id body d in
    Modules (snd answer) = Modules d
    /\ Coverages (snd answer) = Coverages d
    /\ ((forall q, fst answer <> Updated q) -> snd answer = d)
    /\ forall q,
         fst answer = Updated q ->
         exists old,
           findQuestionById id (Questions d) = Some old
           /\ Question._id q = id
           /\ Question.moduleId q = Question.moduleId old
           /\ Question.source q = Question.source old
           /\ Question.questionText q <> ""
           /\ map Question._id (Questions (snd answer)) = map Question._id (Questions d)
           /\ (forall x, In x (Questions (snd answer)) -> x = q \/ In x (Questions d))
           /\ In q (Questions (snd answer))
           /\ (exists before after,
                 Questions d = before ++ old :: after
                 /\ Questions (snd answer) = before ++ q :: after
                 /\ Forall (fun x => Question._id x <> id) before)
           /\ match UpdateBody.options body with
              | Some options =>
                  Question.options q = filter nonBlank options
                  /\ (Question.questionType q = MCQ ->
                      2 <= List.length (Question.options q))
              | None => Question.options q = Question.options old
              end.
Proof.
  intros id body d answer. unfold answer, updateQuestionRoute.
  destruct (findQuestionById id (Questions d)) as [old| ] eqn:Hold.
  2:{ cbn [fst snd]. repeat split; auto. discriminate. }
  destruct (UpdateFacts.findQuestionById_Some _ _ Hold) as [_ Hid].
  set (question1 := assign (UpdateBody.questionText body) _ old).
  assert (Question._id question1 = id
          /\ Question.moduleId question1 = Question.moduleId old
          /\ Question.source question1 = Question.source old
          /\ Question.options question1 = Question.options old) as H1.
  { unfold question1, assign. destruct (UpdateBody.questionText body); cbn; auto. }
  clearbody question1.
  set (typed := if truthy (UpdateBody.questionType body) then _ else _).
  assert (forall question2, typed = Some question2 ->
            Question._id question2 = id
            /\ Question.moduleId question2 = Question.moduleId old
            /\ Question.source question2 = Question.source old
            /\ Question.options question2 = Question.options old) as H2.
  { unfold typed. intros question2.
    destruct (truthy (UpdateBody.questionType body)).
    - destruct (questionTypeOf _); [ |discriminate]. intros [= <-]. cbn. exact H1.
    - intros [= <-]. exact H1. }
  destruct typed as [question2| ].
  2:{ cbn [fst snd]. repeat split; auto. discriminate. }
  specialize (H2 question2 eq_refl). clear H1 question1.
  set (checked := match UpdateBody.options body with Some _ => _ | None => _ end).
  assert (forall question3, checked = Some question3 ->
            Question._id question3 = id
            /\ Question.moduleId question3 = Question.moduleId old
            /\ Question.source question3 = Question.source old
            /\ match UpdateBody.options body with
               | Some options =>
                   Question.options question3 = filter nonBlank options
                   /\ (Question.questionType question3 = MCQ ->
                       2 <= List.length (Question.options question3))
               | None => Question.options question3 = Question.options old
               end) as H3.
  { unfold checked. intros question3.
    destruct (UpdateBody.options body) as [options| ].
    - destruct (Question.questionType question2) eqn:Et.
      + destruct (Nat.ltb_spec (List.length (filter nonBlank options)) 2) as [L|G];
          [discriminate| ].
        intros [= <-]. cbn. repeat split; try tauto.
      + intros [= <-]. cbn. repeat split; try tauto. rewrite Et. discriminate.
    - intros [= <-]. tauto. }
  destruct checked as [question3| ].
  2:{ cbn [fst snd]. repeat split; auto. discriminate. }
  specialize (H3 question3 eq_refl). clear H2 question2.
  destruct (UpdateFacts.last_assignments body question3)
    as (Ei & Em & Es & Et & Ety & Eo).
  set (question6 := assign (UpdateBody.sampleAnswer body) _ _) in *.
  clearbody question6.
  destruct (truthy (Some (Question.questionText question6))) eqn:T; cbn [fst snd].
  2:{ repeat split; auto. discriminate. }
  split; [reflexivity| ]. split; [reflexivity| ]. split.
  { intros H. exfalso. eapply H. reflexivity. }
  intros q [= <-]. exists old. cbn [Questions].
  destruct H3 as (Hi & Hm & Hs & Ho).
  split; [reflexivity| ]. split; [congruence| ]. split; [congruence| ].
  split; [congruence| ]. split.
  { intros E. unfold truthy in T. rewrite E in T. discriminate. }
  split; [apply UpdateFacts.replaceQuestion_ids| ].
  split; [intros x; apply UpdateFacts.replaceQuestion_In| ].
  assert (Question._id question6 = id) as Hid6 by congruence.
  destruct (@UpdateFacts.replaceQuestion_at question6 (Questions d) old)
    as (before & after & Hd & Hr & Hb); [now rewrite Hid6| ].
  rewrite Hid6 in Hb.
  split; [rewrite Hr; apply in_or_app; right; now left| ].
  split; [exists before, after; auto| ].
  rewrite Eo, Ety. exact Ho.
Qed.

Lemma question_update_keeps_identity_and_coverage_witness :
  (exists q, fst (updateQuestionRoute 12 Requests.newText (db Scenario.withStale))
             = Updated q
             /\ Question.questionText q = "Q2, reworded"
             /\ Questions (snd (updateQuestionRoute 12 Requests.newText
                                  (db Scenario.withStale)))
                = [Scenario.Q1; q; Scenario.Q3; Scenario.Q9])
  /\ Coverages (snd (updateQuestionRoute 12 Requests.newText (db Scenario.withStale)))
     = [Scenario.stale 500 Covered 80]
  /\ fst (updateQuestionRoute 11 Requests.oneOption (db Scenario.withStale))
     = UpdateTooFewOptions
  /\ snd (updateQuestionRoute 11 Requests.oneOption (db Scenario.withStale))
     = db Scenario.withStale.
Proof.
  destruct (question_update_keeps_identity_and_coverage 12 Requests.newText
              (db Scenario.withStale)) as (_ & HC & _ & Hq).
  destruct (question_update_keeps_identity_and_coverage 11 Requests.oneOption
              (db Scenario.withStale)) as (_ & _ & Hsame & _).
  split; [ |split; [exact HC|split; [reflexivity| ]]].
  - eexists. split; [reflexivity| ]. split; [reflexivity| ].
    destruct (Hq _ eq_refl)
      as (old & Eold & _ & _ & _ & _ & _ & _ & _ & (before & after & Hd & Hr & Hb) & _).
    rewrite Hr. clear Hr Hq HC Hsame.
    assert (old = Scenario.Q2) as -> by (vm_compute in Eold; now injection Eold as <-).
    change (Questions (db Scenario.withStale))
      with [Scenario.Q1; Scenario.Q2; Scenario.Q3; Scenario.Q9] in Hd.
    destruct before as [|x [|y before]].
    + discriminate Hd.
    + injection Hd as <- <-. reflexivity.
    + exfalso. injection Hd as <- <- _. inversion Hb as [|? ? _ Hb']; subst.
      inversion Hb' as [|? ? N _]; subst. now apply N.
  - apply Hsame. intros q. vm_compute. discriminate.
Defined.

(* ================================================================== *)
(** * The analysis started from the questions page: properties *)
(* ================================================================== *)

Lemma analysisTagFor_not_empty analysisTag isoNow :
  analysisTagFor analysisTag isoNow <> "".
Proof.
  unfold analysisTagFor.
  destruct (String.eqb_spec (Text.trim analysisTag) "") as [E|N]; [ |exact N].
  discriminate.
Qed.

Section QuestionsPageFacts.

Variable World : Type.
Variable chatCompletion : World -> string -> string -> ApiResult * World.
Variable dateNow : World -> Z * World.

(** X28.  The tag of an analysis started from the questions page is never
    empty: it is the trimmed tag of the form, or a tag made from the date
    when the form gives none.  Such an analysis therefore leaves every
    document of the default scope, and every document of another module,
    as it was, whatever its answer; and when it is answered as completed
    the answer carries that tag. *)
Theorem page_analysis_never_touches_the_default_scope :
  forall selectedModuleId selectedQuestions analysisTag isoNow (s : Sys World),
    let tag := analysisTagFor analysisTag isoNow in
    let answer :=
      handleRunAnalysis chatCompletion dateNow selectedModuleId selectedQuestions
        analysisTag isoNow s in
    tag <> ""
    /\ (Text.trim analysisTag <> "" -> tag = Text.trim analysisTag)
    /\ (forall c,
          Coverage.analysisTag c = None \/ Some (Coverage.moduleId c) <> selectedModuleId ->
          (In c (Coverages (db (snd answer))) <-> In c (Coverages (db s))))
    /\ (forall totalLOs totalQuestions answered results,
          fst answer = Some (AnalyzeCompleted totalLOs totalQuestions answered results) ->
          answered = Some tag /\ selectedQuestions <> []).
Proof.
  intros selectedModuleId selectedQuestions analysisTag isoNow s tag answer.
  pose proof (analysisTagFor_not_empty analysisTag isoNow) as Hne. fold tag in Hne.
  assert (orNull (Some tag) = Some tag) as Hor.
  { unfold orNull, truthy. destruct (String.eqb_spec tag ""); [contradiction| ].
    reflexivity. }
  split; [exact Hne| ]. split.
  { intros N. unfold tag, analysisTagFor.
    destruct (String.eqb_spec (Text.trim analysisTag) ""); [contradiction|reflexivity]. }
  unfold answer, handleRunAnalysis. fold tag.
  destruct selectedModuleId as [moduleId| ].
  2:{ cbn [fst snd]. split; [tauto|discriminate]. }
  destruct (Nat.eqb_spec (List.length selectedQuestions) 0) as [E|N].
  { cbn [fst snd]. split; [tauto|discriminate]. }
  unfold analyzeRoute.
  destruct (findById moduleId (Modules (db s))) as [mdl| ].
  2:{ cbn [fst snd]. split; [tauto|discriminate]. }
  destruct (resolveQuestions moduleId (Some selectedQuestions) (Questions (db s)))
    as [|q qs].
  { cbn [fst snd]. split; [tauto|discriminate]. }
  cbn [fst snd]. split.
  - intros c Hc.
    apply (@run_frame_In _ chatCompletion dateNow moduleId (Some selectedQuestions)
             (Some tag) s c).
    rewrite Hor. destruct Hc as [Hc|Hc]; [right; congruence|left; congruence].
  - intros totalLOs totalQuestions answered results [= _ _ <- _].
    split; [exact Hor| ]. intros ->. now apply N.
Qed.

End QuestionsPageFacts.

Lemma page_analysis_never_touches_the_default_scope_witness :
  analysisTagFor "   " "2026-01-15T10:30:00.000Z" = "Analysis-2026-01-15T10:30"
  /\ (In (Scenario.stale 500 Covered 80)
         (Coverages
            (db (snd (handleRunAnalysis Scenario.chat Scenario.clock (Some 1) [11; 13]
                        "   " "2026-01-15T10:30:00.000Z" Scenario.withStale))))
      <-> In (Scenario.stale 500 Covered 80) (Coverages (db Scenario.withStale))).
Proof.
  split; [reflexivity| ].
  destruct (page_analysis_never_touches_the_default_scope Scenario.chat Scenario.clock
              (Some 1) [11; 13] "   " "2026-01-15T10:30:00.000Z" Scenario.withStale)
    as (_ & _ & H & _).
  apply H. left. reflexivity.
Defined.

(* ================================================================== *)
(** * The authentication token: properties *)
(* ================================================================== *)

(** X29.  The token read after a login is the token of the login, and the
    header carries it when it is not empty; after a logout there is no
    token and no header.  The token and the persisted module selection do
    not interfere: a login or a logout leaves the selection as it was, and
    a change of the selection leaves the token as it was. *)
Theorem token_and_selection_are_independent :
  forall items token moduleId,
    getAuthToken (setAuthToken token items) = Some token
    /\ (token <> "" ->
        getAuthHeader (setAuthToken token items)
        = [("Authorization", ("Bearer " ++ token)%string)])
    /\ getAuthToken (removeAuthToken items) = None
    /\ getAuthHeader (removeAuthToken items) = []
    /\ getPersistedModuleId (Some (setAuthToken token items))
       = getPersistedModuleId (Some items)
    /\ getPersistedModuleId (Some (removeAuthToken items))
       = getPersistedModuleId (Some items)
    /\ option_map getAuthToken (setPersistedModuleId moduleId (Some items))
       = Some (getAuthToken items)
    /\ option_map getAuthToken (clearPersistedModuleId (Some items))
       = Some (getAuthToken items).
Proof.
  intros items token moduleId.
  assert (TOKEN_KEY <> STORAGE_KEY) as N by discriminate.
  assert (STORAGE_KEY <> TOKEN_KEY) as N' by discriminate.
  unfold getAuthHeader, getAuthToken, setAuthToken, removeAuthToken,
    getPersistedModuleId, setPersistedModuleId, clearPersistedModuleId.
  rewrite StorageFacts.get_set_same, StorageFacts.get_remove_same.
  rewrite (StorageFacts.get_set_other _ _ N'), (StorageFacts.get_remove_other _ N').
  split; [reflexivity| ]. split.
  { intros Ht. unfold truthy. destruct (String.eqb_spec token ""); [contradiction| ].
    reflexivity. }
  split; [reflexivity| ]. split; [reflexivity| ]. split; [reflexivity| ].
  split; [reflexivity| ]. split.
  - destruct (truthy moduleId); cbn [option_map]; f_equal;
      [now apply StorageFacts.get_set_other|now apply StorageFacts.get_remove_other].
  - cbn [option_map]. f_equal. now apply StorageFacts.get_remove_other.
Qed.

Lemma token_and_selection_are_independent_witness :
  getAuthHeader (setAuthToken "abc" [("selectedModuleId", "m1")])
  = [("Authorization", "Bearer abc")]
  /\ getPersistedModuleId (Some (removeAuthToken
                                   (setAuthToken "abc" [("selectedModuleId", "m1")])))
     = Some "m1".
Proof.
  split.
  - exact (proj1 (proj2 (token_and_selection_are_independent
                           [("selectedModuleId", "m1")] "abc" None))
             ltac:(discriminate)).
  - exact (proj1 (proj2 (proj2 (proj2 (proj2 (proj2
             (token_and_selection_are_independent
                (setAuthToken "abc" [("selectedModuleId", "m1")]) "abc" None))))))).
Defined.
